(** * yorm: converters and attribute interception (src/yorm/base.py)

    A shallow embedding of the container converters [Dictionary] and [List]
    and of the attribute interception of [Mappable], with the properties the
    specification states about them. *)

From Stdlib Require Import List String Ascii Bool Arith PeanoNat ZArith Lia.
Import ListNotations.
Set Warnings "-register-all".
Set Default Proof Using "Type".
Local Open Scope string_scope.
Local Open Scope list_scope.

(** ** Python values *)

(** The converter classes.  Class identity is the class name; the two
    container base classes are values of their own because the code tests
    [cls is Dictionary] and [cls is List]. *)
Inductive conv : Type :=
| Leaf (k : string)      (* a scalar Converter subclass, supplied from outside *)
| DictSub (c : string)   (* a declared subclass of Dictionary *)
| ListSub (c : string)   (* a declared subclass of List *)
| DictBase               (* Dictionary itself *)
| ListBase.              (* List itself *)

(** Modelled from the spec: the Mapper (module mapper is not in src).  The
    spec gives it an auto flag, default true; [stores] and [retrieves] count
    the store and retrieve operations performed, the document I/O itself
    being external. *)
Record mapper : Type := Mapper {
  auto : bool;
  stores : nat;
  retrieves : nat
}.

(** Python objects as far as the code meets them.  A dict is an insertion
    ordered sequence of entries with string keys. *)
Inductive pyobj : Type :=
| VNone
| VBool (b : bool)
| VInt (z : Z)
| VStr (s : string)
| VList (l : list pyobj)
| VDict (d : list (string * pyobj))
| VClass (c : conv)
| VMapper (m : mapper).

Definition dict (A : Type) : Type := list (string * A).

Inductive exn : Type :=
| NotImplementedError (msg : string)
| AttributeError (name : string)
| KeyError (name : string)
| TypeError
| RuntimeError      (* dictionary changed size during iteration *)
| RecursionError.   (* call depth exhausted *)

Inductive result (A : Type) : Type :=
| Ok (a : A)
| Raise (e : exn).
Arguments Ok {A} a.
Arguments Raise {A} e.

(** ** dict operations *)

Definition keys {A} (d : dict A) : list string := map fst d.

Fixpoint dict_get {A} (d : dict A) (k : string) : option A :=
  match d with
  | [] => None
  | (k', v) :: d' => if String.eqb k k' then Some v else dict_get d' k
  end.

(** [d[k] = v]: an existing key keeps its position, a new one goes last. *)
Fixpoint dict_set {A} (d : dict A) (k : string) (v : A) : dict A :=
  match d with
  | [] => [(k, v)]
  | (k', v') :: d' =>
      if String.eqb k k' then (k, v) :: d' else (k', v') :: dict_set d' k v
  end.

Fixpoint dict_del {A} (d : dict A) (k : string) : dict A :=
  match d with
  | [] => []
  | (k', v') :: d' => if String.eqb k k' then d' else (k', v') :: dict_del d' k
  end.

(** [d.pop(k)]: [None] stands for the KeyError. *)
Definition dict_pop {A} (d : dict A) (k : string) : option (A * dict A) :=
  match dict_get d k with
  | Some v => Some (v, dict_del d k)
  | None => None
  end.

Definition has_key {A} (d : dict A) (k : string) : bool :=
  match dict_get d k with Some _ => true | None => false end.

(** ** str operations *)

(** [str.isspace] on the code points below 256. *)
Definition is_space (a : ascii) : bool :=
  let n := nat_of_ascii a in
  (((9 <=? n) && (n <=? 13)) || ((28 <=? n) && (n <=? 32))
   || (n =? 133) || (n =? 160))%nat.

Fixpoint lstrip (s : string) : string :=
  match s with
  | EmptyString => EmptyString
  | String a s' => if is_space a then lstrip s' else s
  end.

Fixpoint rev_string (acc s : string) : string :=
  match s with
  | EmptyString => acc
  | String a s' => rev_string (String a acc) s'
  end.

(** [s.strip()] *)
Definition strip (s : string) : string :=
  rev_string "" (lstrip (rev_string "" (lstrip s))).

(** [sep in s] for a one-character [sep]. *)
Fixpoint contains (sep : ascii) (s : string) : bool :=
  match s with
  | EmptyString => false
  | String a s' => Ascii.eqb a sep || contains sep s'
  end.

(** [s.split(sep)]: never empty, keeps empty fields. *)
Fixpoint split_on (sep : ascii) (s : string) : list string :=
  match s with
  | EmptyString => [EmptyString]
  | String a s' =>
      if Ascii.eqb a sep then EmptyString :: split_on sep s'
      else match split_on sep s' with
           | [] => [String a EmptyString]
           | w :: ws => String a w :: ws
           end
  end.

Definition cons_word (w : string) (ws : list string) : list string :=
  match w with EmptyString => ws | _ => w :: ws end.

Fixpoint split_go (s : string) : string * list string :=
  match s with
  | EmptyString => (EmptyString, [])
  | String a s' =>
      let (w, ws) := split_go s' in
      if is_space a then (EmptyString, cons_word w ws) else (String a w, ws)
  end.

(** [s.split()]: the maximal runs without whitespace. *)
Definition split_ws (s : string) : list string :=
  let (w, ws) := split_go s in cons_word w ws.

(** [sub in s] for strings. *)
Fixpoint prefixb (p s : string) : bool :=
  match p, s with
  | EmptyString, _ => true
  | String a p', String b s' => Ascii.eqb a b && prefixb p' s'
  | _, EmptyString => false
  end.

Fixpoint substringb (p s : string) : bool :=
  prefixb p s || match s with
                 | EmptyString => false
                 | String _ s' => substringb p s'
                 end.

(** ** Dictionary.to_dict and List.to_list *)

Definition to_dict (obj : pyobj) : dict pyobj :=
  match obj with
  | VDict d => d
  | VStr s =>
      let text := strip s in
      let parts := split_on "=" text in
      match parts with
      | [k; v] => [(k, VStr v)]
      | _ => [(text, VNone)]
      end
  | _ => []
  end.

Definition to_list (obj : pyobj) : list pyobj :=
  match obj with
  | VList l => l
  | VStr s =>
      let text := strip s in
      if contains "," text && negb (contains " " text)
      then map VStr (split_on "," text)
      else map VStr (split_ws text)
  | VNone => []
  | _ => [obj]
  end.

(** ** Sample scalar converters

    The scalar converters live outside src; these samples instantiate them
    where a concrete run is wanted.  [MockConverter] is the one of
    test/test_decorators.py: both directions return None. *)

Definition sample_to_value (k : string) (obj : pyobj) : pyobj :=
  if String.eqb k "Integer" then
    match obj with
    | VInt z => VInt z
    | VBool b => VInt (if b then 1 else 0)
    | _ => VInt 0
    end
  else if String.eqb k "String" then
    match obj with VStr s => VStr s | _ => VStr "" end
  else if String.eqb k "MockConverter" then VNone
  else obj.

Definition sample_to_data (k : string) (obj : pyobj) : pyobj :=
  sample_to_value k obj.

(** Scalar converters that emit a value as it is. *)
Definition plain_to_data (k : string) (obj : pyobj) : pyobj := obj.

Definition sample_match (data : pyobj) : string :=
  match data with
  | VInt _ => "Integer"
  | VStr _ => "String"
  | _ => "Object"
  end.

(** ** The converter engine *)

(** [yorm_attrs] of every container class: each class owns one dict, empty
    when the class is declared (ContainerMeta.__init__). *)
Definition regs : Type := string -> dict conv.

Definition no_attrs : regs := fun _ => [].

(** Class methods run over the registries and may raise. *)
Definition M (A : Type) : Type := regs -> result (A * regs).

Definition ret {A} (a : A) : M A := fun st => Ok (a, st).

Definition raise {A} (e : exn) : M A := fun _ => Raise e.

Definition bind {A B} (m : M A) (f : A -> M B) : M B :=
  fun st => match m st with
            | Ok (a, st') => f a st'
            | Raise e => Raise e
            end.

Notation "x <- m ;; k" := (bind m (fun x => k))
  (at level 100, m at next level, right associativity).

Definition get_attrs (c : string) : M (dict conv) :=
  fun st => Ok (st c, st).

(** [cls.yorm_attrs[name] = converter] *)
Definition put_attr (st : regs) (c name : string) (converter : conv) : regs :=
  fun c' => if String.eqb c' c then dict_set (st c) name converter else st c'.

Definition set_attr (c name : string) (converter : conv) : M unit :=
  fun st => Ok (tt, put_attr st c name converter).

(** [value.get(name, None)] *)
Definition get_or_none (value : dict pyobj) (name : string) : pyobj :=
  match dict_get value name with Some v => v | None => VNone end.

Section Engine.

(** Modelled from the spec: the scalar converters and the inference of a
    converter for new data ([standard.match]), which are not in src.
    [to_value] and [to_data] of a scalar converter are deterministic, total
    and free of side effects, and inference yields a scalar converter. *)
Variable leaf_to_value : string -> pyobj -> pyobj.
Variable leaf_to_data : string -> pyobj -> pyobj.
Variable standard_match : pyobj -> string.

Section Bodies.

(** The recursive calls [converter.to_value] and [converter.to_data]. *)
Variable rec_value : conv -> pyobj -> M pyobj.
Variable rec_data : conv -> pyobj -> M pyobj.

(** First loop of Dictionary.to_value, over the items of the input. *)
Fixpoint load_items (c : string) (items : dict pyobj)
    (yorm_attrs : dict conv) (value : dict pyobj)
    : M (dict conv * dict pyobj) :=
  match items with
  | [] => ret (yorm_attrs, value)
  | (name, data) :: items' =>
      match dict_pop yorm_attrs name with
      | Some (converter, yorm_attrs') =>
          x <- rec_value converter data ;;
          load_items c items' yorm_attrs' (dict_set value name x)
      | None =>
          let converter := Leaf (standard_match data) in
          _ <- set_attr c name converter ;;
          x <- rec_value converter data ;;
          load_items c items' yorm_attrs (dict_set value name x)
      end
  end.

(** Second loop of Dictionary.to_value, over what is left of the copy. *)
Fixpoint add_deleted (yorm_attrs : dict conv) (value : dict pyobj)
    : M (dict pyobj) :=
  match yorm_attrs with
  | [] => ret value
  | (name, converter) :: rest =>
      x <- rec_value converter VNone ;;
      add_deleted rest (dict_set value name x)
  end.

Definition dictionary_to_value (c : string) (obj : pyobj) : M (dict pyobj) :=
  yorm_attrs <- get_attrs c ;;
  p <- load_items c (to_dict obj) yorm_attrs [] ;;
  add_deleted (fst p) (snd p).

(** The loop of Dictionary.to_data.  It walks the class's own dict, not a
    copy: entry [i] is read when it is reached, and every step first checks
    that the dict still has the [size] it had when the loop began. *)
Fixpoint dump_items (c : string) (size : nat) (value : dict pyobj)
    (left i : nat) (data : dict pyobj) : M (dict pyobj) :=
  attrs <- get_attrs c ;;
  if negb (Nat.eqb (List.length attrs) size) then raise RuntimeError
  else match left with
       | 0 => ret data
       | S left' =>
           match nth_error attrs i with
           | None => ret data
           | Some (name, converter) =>
               x <- rec_data converter (get_or_none value name) ;;
               dump_items c size value left' (S i) (dict_set data name x)
           end
       end.

Definition dictionary_to_data (c : string) (obj : pyobj) : M (dict pyobj) :=
  value <- dictionary_to_value c obj ;;
  attrs <- get_attrs c ;;
  dump_items c (List.length attrs) value (List.length attrs) 0 [].

(** [cls.item_type]: [cls.yorm_attrs.get(cls.ALL)] *)
Definition item_type (c : string) : M (option conv) :=
  fun st => Ok (dict_get (st c) "all", st).

(** A call of a method on [cls.item_type]; None has no such method. *)
Definition call_item (rec : conv -> pyobj -> M pyobj) (meth : string)
    (c : string) (item : pyobj) : M pyobj :=
  it <- item_type c ;;
  match it with
  | Some converter => rec converter item
  | None => raise (AttributeError meth)
  end.

Fixpoint convert_items (rec : conv -> pyobj -> M pyobj) (meth : string)
    (c : string) (items : list pyobj) (acc : list pyobj) : M (list pyobj) :=
  match items with
  | [] => ret acc
  | item :: items' =>
      x <- call_item rec meth c item ;;
      convert_items rec meth c items' (acc ++ [x])
  end.

Definition list_to_value (c : string) (obj : pyobj) : M (list pyobj) :=
  it <- item_type c ;;
  match it with
  | None => raise (NotImplementedError "List subclass must specify item type")
  | Some _ => convert_items rec_value "to_value" c (to_list obj) []
  end.

Definition list_to_data (c : string) (obj : pyobj) : M (list pyobj) :=
  value <- list_to_value c obj ;;
  convert_items rec_data "to_data" c value [].

End Bodies.

(** [cls.to_value(obj)] and [cls.to_data(obj)].  [fuel] bounds the depth to
    which container converters nest; a scalar converter needs none. *)
Fixpoint to_value (fuel : nat) (cls : conv) (obj : pyobj) {struct fuel}
    : M pyobj :=
  match cls, fuel with
  | Leaf k, _ => ret (leaf_to_value k obj)
  | _, 0 => raise RecursionError
  | DictBase, S _ =>
      raise (NotImplementedError "Dictionary class must be subclassed to use")
  | ListBase, S _ =>
      raise (NotImplementedError "List class must be subclassed to use")
  | DictSub c, S fuel' =>
      v <- dictionary_to_value (to_value fuel') c obj ;; ret (VDict v)
  | ListSub c, S fuel' =>
      v <- list_to_value (to_value fuel') c obj ;; ret (VList v)
  end.

Fixpoint to_data (fuel : nat) (cls : conv) (obj : pyobj) {struct fuel}
    : M pyobj :=
  match cls, fuel with
  | Leaf k, _ => ret (leaf_to_data k obj)
  | _, 0 => raise RecursionError
  | DictBase, S _ =>
      raise (NotImplementedError "Dictionary class must be subclassed to use")
  | ListBase, S _ =>
      raise (NotImplementedError "List class must be subclassed to use")
  | DictSub c, S fuel' =>
      v <- dictionary_to_data (to_value fuel') (to_data fuel') c obj ;;
      ret (VDict v)
  | ListSub c, S fuel' =>
      v <- list_to_data (to_value fuel') (to_data fuel') c obj ;;
      ret (VList v)
  end.

(** ** Mappable *)

(** What the [__set__] of a data descriptor makes of the instance's
    [__dict__] when it is given a value, unless it raises. *)
Definition setter : Type := dict pyobj -> pyobj -> result (dict pyobj).

(** An instance as attribute lookup sees it: its own [__dict__], the
    attributes of its class, and the data descriptors its class answers a
    write with ([__class__], [__dict__] and [__weakref__] on every class, the
    properties a class defines).  Reading through a descriptor is not
    modelled.

    Modelled from the spec: [document], what the last store wrote (module
    mapper is not in src).  The spec has store apply to_data to the object's
    current attribute values and write the result; the document is kept as
    the attribute values the store read. *)
Record object : Type := Object {
  class_dict : dict pyobj;
  inst_dict : dict pyobj;
  descriptors : dict setter;
  document : dict pyobj
}.

Definition lookup_attr (self : object) (name : string) : option pyobj :=
  match dict_get (inst_dict self) name with
  | Some v => Some v
  | None => dict_get (class_dict self) name
  end.

(** [object.__getattribute__(self, name)] *)
Definition object_getattribute (self : object) (name : string)
    : result pyobj :=
  match lookup_attr self name with
  | Some v => Ok v
  | None => Raise (AttributeError name)
  end.

(** [self.__dict__[name] = value] *)
Definition store_attr (self : object) (name : string) (value : pyobj)
    : object :=
  Object (class_dict self) (dict_set (inst_dict self) name value)
    (descriptors self) (document self).

(** [object.__setattr__(self, name, value)]: a data descriptor of the class
    takes the write, and may refuse it; without one the value goes to the
    instance's [__dict__]. *)
Definition object_setattr (self : object) (name : string) (value : pyobj)
    : result object :=
  match dict_get (descriptors self) name with
  | Some set =>
      match set (inst_dict self) value with
      | Ok d => Ok (Object (class_dict self) d (descriptors self)
                      (document self))
      | Raise e => Raise e
      end
  | None => Ok (store_attr self name value)
  end.

(** [name in container] for a string [name]. *)
Definition py_in (name : string) (container : pyobj) : result bool :=
  match container with
  | VDict d => Ok (has_key d name)
  | VList l =>
      Ok (existsb (fun x => match x with
                            | VStr s => String.eqb s name
                            | _ => false
                            end) l)
  | VStr s => Ok (substringb name s)
  | _ => Raise TypeError
  end.

(** [container[name]] for a string [name]. *)
Definition py_getitem (container : pyobj) (name : string) : result pyobj :=
  match container with
  | VDict d => match dict_get d name with
               | Some v => Ok v
               | None => Raise (KeyError name)
               end
  | _ => Raise TypeError
  end.

(** [hasattr(self, 'yorm_attrs') and name in self.yorm_attrs]: both reads
    of [yorm_attrs] go through the first branch of [__getattribute__]. *)
Definition is_mapped (self : object) (name : string) : result bool :=
  match lookup_attr self "yorm_attrs" with
  | None => Ok false
  | Some attrs => py_in name attrs
  end.

(** Modelled from the spec: Mapper.store and Mapper.retrieve (module mapper
    is not in src).  The spec has store compute the document with to_data,
    write it and update the modification marker, and has retrieve do nothing
    to the object while the document is unchanged; neither is given an
    effect on the auto flag.  The document itself is external: one more
    store, or retrieve, is counted, and what a store wrote is kept with the
    object ([document]). *)
Definition mapper_store (m : mapper) : mapper :=
  Mapper (auto m) (S (stores m)) (retrieves m).

Definition mapper_retrieve (m : mapper) : mapper :=
  Mapper (auto m) (stores m) (S (retrieves m)).

Definition mapper_set_auto (m : mapper) (enabled : bool) : mapper :=
  Mapper enabled (stores m) (retrieves m).

(** The mapper is one mutable object: a change to it shows wherever the
    attribute [yorm_mapper] is found. *)
Definition update_mapper (self : object) (m : mapper) : object :=
  if has_key (inst_dict self) "yorm_mapper"
  then Object (class_dict self)
         (dict_set (inst_dict self) "yorm_mapper" (VMapper m))
         (descriptors self) (document self)
  else Object (dict_set (class_dict self) "yorm_mapper" (VMapper m))
         (inst_dict self) (descriptors self) (document self).

(** [self.yorm_mapper.<meth>(self)] *)
Definition call_mapper (self : object) (meth : string)
    (f : mapper -> mapper) : result object :=
  match object_getattribute self "yorm_mapper" with
  | Raise e => Raise e
  | Ok (VMapper m) => Ok (update_mapper self (f m))
  | Ok _ => Raise (AttributeError meth)
  end.

(** Modelled from the spec: the document a store writes is made of the
    attribute values the object has when the store is called. *)
Definition write_document (self : object) : object :=
  Object (class_dict self) (inst_dict self) (descriptors self)
    (inst_dict self).

(** [self.yorm_mapper.store(self)] *)
Definition call_store (self : object) : result object :=
  match object_getattribute self "yorm_mapper" with
  | Raise e => Raise e
  | Ok (VMapper m) =>
      Ok (update_mapper (write_document self) (mapper_store m))
  | Ok _ => Raise (AttributeError "store")
  end.

(** [Mappable.__getattribute__] *)
Definition Mappable_getattribute (self : object) (name : string)
    : result (pyobj * object) :=
  if String.eqb name "yorm_mapper" || String.eqb name "yorm_attrs" then
    match object_getattribute self name with
    | Ok v => Ok (v, self)
    | Raise e => Raise e
    end
  else
    match object_getattribute self "yorm_attrs" with
    | Raise e => Raise e
    | Ok attrs =>
        match py_in name attrs with
        | Raise e => Raise e
        | Ok mapped =>
            match (if mapped then call_mapper self "retrieve" mapper_retrieve
                   else Ok self) with
            | Raise e => Raise e
            | Ok self' =>
                match object_getattribute self' name with
                | Ok v => Ok (v, self')
                | Raise e => Raise e
                end
            end
        end
    end.

(** [converter.to_value(value)] on whatever [yorm_attrs[name]] holds. *)
Definition call_to_value (fuel : nat) (converter : pyobj) (value : pyobj)
    : M pyobj :=
  match converter with
  | VClass cls => to_value fuel cls value
  | _ => raise (AttributeError "to_value")
  end.

(** The end of [Mappable.__setattr__]: store when the mapper is there and
    its auto flag is on. *)
Definition store_if_auto (self : object) : result object :=
  match lookup_attr self "yorm_mapper" with
  | None => Ok self
  | Some (VMapper m) =>
      if auto m then call_store self else Ok self
  | Some _ => Raise (AttributeError "auto")
  end.

(** [Mappable.__setattr__] *)
Definition Mappable_setattr (fuel : nat) (self : object) (name : string)
    (value : pyobj) : M object :=
  fun st =>
    match is_mapped self name with
    | Raise e => Raise e
    | Ok mapped =>
        let converted :=
          if mapped then
            match lookup_attr self "yorm_attrs" with
            | None => Raise (AttributeError "yorm_attrs")
            | Some attrs =>
                match py_getitem attrs name with
                | Raise e => Raise e
                | Ok converter => call_to_value fuel converter value st
                end
            end
          else Ok (value, st) in
        match converted with
        | Raise e => Raise e
        | Ok (value', st') =>
            match object_setattr self name value' with
            | Raise e => Raise e
            | Ok self' =>
                match is_mapped self' name with
                | Raise e => Raise e
                | Ok true =>
                    match store_if_auto self' with
                    | Ok self'' => Ok (self'', st')
                    | Raise e => Raise e
                    end
                | Ok false => Ok (self', st')
                end
            end
        end
    end.

(** [Mappable.__enter__] *)
Definition Mappable_enter (self : object) : result object :=
  match object_getattribute self "yorm_mapper" with
  | Raise e => Raise e
  | Ok (VMapper m) => Ok (update_mapper self (mapper_set_auto m false))
  | Ok _ => Raise (AttributeError "auto")
  end.

(** [Mappable.__exit__] *)
Definition Mappable_exit (self : object) : result object :=
  call_store self.

(** The attribute writes of the body of a [with] block, in order. *)
Fixpoint write_attrs (fuel : nat) (self : object)
    (writes : list (string * pyobj)) : M object :=
  match writes with
  | [] => ret self
  | (name, value) :: rest =>
      self' <- Mappable_setattr fuel self name value ;;
      write_attrs fuel self' rest
  end.

(** [with self: <writes>] *)
Definition with_block (fuel : nat) (self : object)
    (writes : list (string * pyobj)) : M object :=
  fun st =>
    match Mappable_enter self with
    | Raise e => Raise e
    | Ok self1 =>
        match write_attrs fuel self1 writes st with
        | Raise e => Raise e
        | Ok (self2, st') =>
            match Mappable_exit self2 with
            | Raise e => Raise e
            | Ok self3 => Ok (self3, st')
            end
        end
    end.

(** The mapper an object holds, if it holds one. *)
Definition mapper_of (self : object) : option mapper :=
  match lookup_attr self "yorm_mapper" with
  | Some (VMapper m) => Some m
  | _ => None
  end.

End Engine.

(** ** Notions the statements use *)

(** The number of occurrences of a character. *)
Fixpoint count_char (sep : ascii) (s : string) : nat :=
  match s with
  | EmptyString => 0
  | String a s' => (if Ascii.eqb a sep then 1 else 0) + count_char sep s'
  end.

(** Some character of the string is whitespace. *)
Fixpoint has_space (s : string) : bool :=
  match s with
  | EmptyString => false
  | String a s' => is_space a || has_space s'
  end.

(** Every character of the string is whitespace. *)
Fixpoint all_space (s : string) : bool :=
  match s with
  | EmptyString => true
  | String a s' => is_space a && all_space s'
  end.

(** ** Sample classes and objects *)

(** A list of strings. *)
Definition tags_regs : regs := put_attr no_attrs "Tags" "all" (Leaf "String").

(** The data descriptors of a class that defines none of its own:
    [__class__] refuses what is not a class, [__dict__] takes a dict as the
    instance's new [__dict__] and refuses anything else, and [__weakref__]
    cannot be written.  A change of class leaves the instance's [__dict__]
    as it is; the change itself is not followed. *)
Definition plain_descriptors : dict setter :=
  [("__class__", fun d v => match v with
                            | VClass _ => Ok d
                            | _ => Raise TypeError
                            end);
   ("__dict__", fun _ v => match v with
                           | VDict d' => Ok d'
                           | _ => Raise TypeError
                           end);
   ("__weakref__", fun _ _ => Raise (AttributeError "__weakref__"))].

(** A mapped object with the fields [count] and [tags]; nothing has been
    stored yet. *)
Definition sample_object (enabled : bool) : object :=
  Object []
    [("yorm_attrs", VDict [("count", VClass (Leaf "Integer"));
                           ("tags", VClass (ListSub "Tags"))]);
     ("yorm_mapper", VMapper (Mapper enabled 0 0))]
    plain_descriptors [].

(** A class with two declared fields, one of them a list. *)
Definition sample_regs : regs :=
  put_attr (put_attr tags_regs "Sample" "count" (Leaf "Integer"))
    "Sample" "tags" (ListSub "Tags").

Definition sample_rank (c : string) : nat :=
  if String.eqb c "Sample" then 1 else 0.

(** A document with the declared field [count] and the new field [note]. *)
Definition sample_doc : dict pyobj :=
  [("count", VInt 5); ("note", VStr "hello")].

(** A tree: a Node has a list of Nodes as its children. *)
Definition tree_regs : regs :=
  put_attr (put_attr no_attrs "Node" "children" (ListSub "Nodes"))
    "Nodes" "all" (DictSub "Node").

(** A node with one child, which has the new field [x]. *)
Definition tree_doc : pyobj :=
  VDict [("children", VList [VDict [("x", VInt 1)]])].

(** A class whose field [next] has the class itself as its converter. *)
Definition chain_regs : regs :=
  put_attr no_attrs "Link" "next" (DictSub "Link").

(** An instance that has a mapper but no [yorm_attrs] yet. *)
Definition half_mapped : object :=
  Object [] [("yorm_mapper", VMapper (Mapper true 0 0))] plain_descriptors [].

(** The registries only grow: the keys of each, in order, begin the keys it
    has later. *)
Definition grows (st st' : regs) : Prop :=
  forall c, exists l, keys (st' c) = keys (st c) ++ l.

(** A ranking of the container classes: what a class of rank below [bound]
    may refer to.  A subclass of List must have its item type. *)
Definition conv_ok (rank : string -> nat) (st : regs) (bound : nat)
    (k : conv) : Prop :=
  match k with
  | Leaf _ => True
  | DictSub c => rank c < bound
  | ListSub c => rank c < bound /\ has_key (st c) "all" = true
  | DictBase | ListBase => False
  end.

(** The declared classes do not refer to themselves, directly or through
    others: every [yorm_attrs] is a dict (no key twice) whose converters are
    scalar converters or container subclasses of lower rank. *)
Definition wf_schema (rank : string -> nat) (st : regs) : Prop :=
  forall c, NoDup (keys (st c)) /\
    forall name k, In (name, k) (st c) -> conv_ok rank st (rank c) k.

(** The classes of rank [bound] and above are as they were. *)
Definition untouched (rank : string -> nat) (bound : nat) (st st' : regs)
    : Prop :=
  forall c, bound <= rank c -> st' c = st c.

(** A raw input as a document gives it: no dict in it has a key twice. *)
Fixpoint nodupb (l : list string) : bool :=
  match l with
  | [] => true
  | k :: l' => negb (existsb (String.eqb k) l') && nodupb l'
  end.

Fixpoint valid_obj (x : pyobj) : bool :=
  match x with
  | VList l => forallb valid_obj l
  | VDict d => nodupb (map fst d) && forallb (fun e => valid_obj (snd e)) d
  | _ => true
  end.

(** Every field keeps its converter. *)
Definition persists (st st' : regs) : Prop :=
  forall c n k, dict_get (st c) n = Some k -> dict_get (st' c) n = Some k.

(** What a call returns, where it returns. *)
Definition run_of (rec : conv -> pyobj -> M pyobj) (s : regs) (k : conv)
    (x : pyobj) : pyobj :=
  match rec k x s with
  | Ok (w, _) => w
  | Raise _ => VNone
  end.

(** [x] is settled for the converter [k] in [s]: converting it adds no
    field, converting the result again changes nothing, and [x] and the
    result are emitted alike. *)
Definition settled (rec_value rec_data : conv -> pyobj -> M pyobj)
    (s : regs) (k : conv) (x : pyobj) : Prop :=
  rec_value k x s = Ok (run_of rec_value s k x, s) /\
  rec_value k (run_of rec_value s k x) s = Ok (run_of rec_value s k x, s) /\
  rec_data k x s = Ok (run_of rec_data s k x, s) /\
  rec_data k (run_of rec_value s k x) s = Ok (run_of rec_data s k x, s).

(** [u] is converted to itself in [s], and emitted. *)
Definition stable (rec_value rec_data : conv -> pyobj -> M pyobj)
    (s : regs) (k : conv) (u : pyobj) : Prop :=
  rec_value k u s = Ok (u, s) /\ exists d, rec_data k u s = Ok (d, s).

(** The converter of a field. *)
Definition field_conv (attrs : dict conv) (name : string) : conv :=
  match dict_get attrs name with
  | Some k => k
  | None => Leaf EmptyString
  end.

(** What the first loop of Dictionary.to_value makes of an entry, and the
    second of a field, when the calls return in [s]. *)
Definition settle_entry (rec_value : conv -> pyobj -> M pyobj) (s : regs)
    (c : string) (e : string * pyobj) : string * pyobj :=
  (fst e, run_of rec_value s (field_conv (s c) (fst e)) (snd e)).

Definition default_entry (rec_value : conv -> pyobj -> M pyobj) (s : regs)
    (e : string * conv) : string * pyobj :=
  (fst e, run_of rec_value s (snd e) VNone).

(** What the loop of Dictionary.to_data makes of a field, given the
    values. *)
Definition dump_entry (rec_data : conv -> pyobj -> M pyobj) (s : regs)
    (value : dict pyobj) (e : string * conv) : string * pyobj :=
  (fst e, run_of rec_data s (snd e) (get_or_none value (fst e))).

(** The dict built so far by Dictionary.to_value of the class [c]: each
    entry is of a field, and what is [known] of its value holds in every
    later state. *)
Definition entries_known (rank : string -> nat) (c : string)
    (known : regs -> conv -> pyobj -> Prop) (st : regs)
    (value : dict pyobj) : Prop :=
  forall n x, dict_get value n = Some x ->
    exists k, dict_get (st c) n = Some k /\
      forall s, wf_schema rank s -> persists st s -> known s k x.

(** Every [yorm_attrs] is a dict: no key twice. *)
Definition all_nodup (st : regs) : Prop :=
  forall c, NoDup (keys (st c)).

(** [sep.join(l)] for a one-character [sep]. *)
Fixpoint join (sep : ascii) (l : list string) : string :=
  match l with
  | [] => EmptyString
  | [w] => w
  | w :: l' => (w ++ String sep (join sep l'))%string
  end.

(** * Properties *)

(** ** Strings *)

Lemma append_assoc (s t u : string) :
  ((s ++ t) ++ u)%string = (s ++ (t ++ u))%string.
Proof. induction s as [|a s IH]; simpl; [reflexivity | now rewrite IH]. Qed.

Lemma rev_string_app (s acc : string) :
  rev_string acc s = (rev_string "" s ++ acc)%string.
Proof.
  revert acc. induction s as [|a s IH]; intros acc; simpl.
  - reflexivity.
  - rewrite IH. rewrite (IH (String a "")).
    rewrite append_assoc. reflexivity.
Qed.

Lemma append_empty_r (s : string) : (s ++ "")%string = s.
Proof. induction s as [|a s IH]; simpl; [reflexivity | now rewrite IH]. Qed.

Lemma rev_string_append (s t : string) :
  rev_string "" (s ++ t)%string = (rev_string "" t ++ rev_string "" s)%string.
Proof.
  induction s as [|a s IH]; simpl.
  - now rewrite append_empty_r.
  - rewrite (rev_string_app (s ++ t)%string (String a "")), IH.
    rewrite (rev_string_app s (String a "")).
    now rewrite append_assoc.
Qed.

Lemma rev_string_involutive (s : string) :
  rev_string "" (rev_string "" s) = s.
Proof.
  induction s as [|a s IH]; simpl.
  - reflexivity.
  - rewrite (rev_string_app s (String a "")), rev_string_append, IH.
    reflexivity.
Qed.

Lemma has_space_append (s t : string) :
  has_space (s ++ t)%string = has_space s || has_space t.
Proof.
  induction s as [|a s IH]; simpl; [reflexivity|].
  now rewrite IH, orb_assoc.
Qed.

Lemma has_space_rev (s : string) :
  has_space (rev_string "" s) = has_space s.
Proof.
  induction s as [|a s IH]; simpl; [reflexivity|].
  rewrite (rev_string_app s (String a "")), has_space_append, IH. simpl.
  rewrite orb_false_r. apply orb_comm.
Qed.

Lemma all_space_append (s t : string) :
  all_space (s ++ t)%string = all_space s && all_space t.
Proof.
  induction s as [|a s IH]; simpl; [reflexivity|].
  now rewrite IH, andb_assoc.
Qed.

Lemma all_space_rev (s : string) :
  all_space (rev_string "" s) = all_space s.
Proof.
  induction s as [|a s IH]; simpl; [reflexivity|].
  rewrite (rev_string_app s (String a "")), all_space_append, IH. simpl.
  rewrite andb_true_r. apply andb_comm.
Qed.

Lemma lstrip_no_space (s : string) : has_space s = false -> lstrip s = s.
Proof.
  destruct s as [|a s]; simpl; [reflexivity|].
  intros H. apply orb_false_iff in H as [Ha _]. now rewrite Ha.
Qed.

(** A string without whitespace is its own [strip]. *)
Lemma strip_no_space (s : string) : has_space s = false -> strip s = s.
Proof.
  intros H. unfold strip.
  rewrite (lstrip_no_space s H).
  rewrite lstrip_no_space by now rewrite has_space_rev.
  apply rev_string_involutive.
Qed.

(** [lstrip] removes a prefix of whitespace. *)
Lemma lstrip_prefix (s : string) :
  exists sp, all_space sp = true /\ s = (sp ++ lstrip s)%string.
Proof.
  induction s as [|a s [sp [Hsp Hs]]]; simpl.
  - exists "". split; reflexivity.
  - destruct (is_space a) eqn:Ha.
    + exists (String a sp). simpl. rewrite Ha, Hsp. split; [reflexivity|].
      now rewrite <- Hs.
    + exists "". split; reflexivity.
Qed.

(** [strip] removes whitespace at both ends and nothing else. *)
Lemma strip_frame (s : string) :
  exists sp1 sp2, all_space sp1 = true /\ all_space sp2 = true /\
    s = (sp1 ++ strip s ++ sp2)%string.
Proof.
  destruct (lstrip_prefix s) as [sp1 [H1 Hs]].
  destruct (lstrip_prefix (rev_string "" (lstrip s))) as [sp2 [H2 Hr]].
  exists sp1, (rev_string "" sp2). split; [exact H1|]. split.
  - now rewrite all_space_rev.
  - unfold strip. rewrite <- rev_string_append, <- Hr.
    rewrite rev_string_involutive. exact Hs.
Qed.

Lemma contains_append (sep : ascii) (s t : string) :
  contains sep (s ++ t)%string = contains sep s || contains sep t.
Proof.
  induction s as [|a s IH]; simpl; [reflexivity|].
  now rewrite IH, orb_assoc.
Qed.

Lemma split_on_nonempty (sep : ascii) (s : string) : split_on sep s <> [].
Proof.
  destruct s as [|a s]; simpl; [discriminate|].
  destruct (Ascii.eqb a sep); [discriminate|].
  destruct (split_on sep s); discriminate.
Qed.

Lemma split_on_absent (sep : ascii) (s : string) :
  contains sep s = false -> split_on sep s = [s].
Proof.
  induction s as [|a s IH]; simpl; [reflexivity|].
  intros H. apply orb_false_iff in H as [Ha Hs].
  rewrite Ha, (IH Hs). reflexivity.
Qed.

Lemma split_on_first (sep : ascii) (k v : string) :
  contains sep k = false ->
  split_on sep (k ++ String sep v)%string = k :: split_on sep v.
Proof.
  induction k as [|a k IH]; simpl; intros H.
  - now rewrite Ascii.eqb_refl.
  - apply orb_false_iff in H as [Ha Hk].
    rewrite Ha, (IH Hk). reflexivity.
Qed.

Lemma split_on_length (sep : ascii) (s : string) :
  List.length (split_on sep s) = S (count_char sep s).
Proof.
  induction s as [|a s IH]; simpl; [reflexivity|].
  destruct (Ascii.eqb a sep); simpl.
  - now rewrite IH.
  - destruct (split_on sep s) eqn:E; simpl in *; [discriminate | exact IH].
Qed.

Lemma split_go_trailing (s sp : string) :
  all_space sp = true -> split_go (s ++ sp)%string = split_go s.
Proof.
  intros Hsp. induction s as [|a s IH]; simpl.
  - induction sp as [|b sp IHsp]; simpl; [reflexivity|].
    simpl in Hsp. apply andb_true_iff in Hsp as [Hb Hsp].
    rewrite (IHsp Hsp), Hb. reflexivity.
  - now rewrite IH.
Qed.

Lemma split_ws_leading (sp s : string) :
  all_space sp = true -> split_ws (sp ++ s)%string = split_ws s.
Proof.
  intros Hsp. induction sp as [|b sp IH]; simpl; [reflexivity|].
  simpl in Hsp. apply andb_true_iff in Hsp as [Hb Hsp].
  specialize (IH Hsp). unfold split_ws in *. simpl.
  destruct (split_go (sp ++ s)%string) as [w ws]. rewrite Hb. simpl.
  exact IH.
Qed.

(** Splitting on whitespace does not see the [strip] before it. *)
Lemma split_ws_strip (s : string) : split_ws (strip s) = split_ws s.
Proof.
  destruct (strip_frame s) as [sp1 [sp2 [H1 [H2 Hs]]]].
  rewrite Hs at 2. rewrite (split_ws_leading sp1 _ H1).
  unfold split_ws. now rewrite (split_go_trailing _ sp2 H2).
Qed.

Lemma contains_space_has_space (s : string) :
  has_space s = false -> contains " " s = false.
Proof.
  induction s as [|a s IH]; simpl; [reflexivity|].
  intros H. apply orb_false_iff in H as [Ha Hs]. rewrite (IH Hs).
  destruct (Ascii.eqb a " ") eqn:E; [|reflexivity].
  apply Ascii.eqb_eq in E. subst a. discriminate Ha.
Qed.

(** ** dict *)

Lemma dict_get_set_same {A} (d : dict A) (k : string) (v : A) :
  dict_get (dict_set d k v) k = Some v.
Proof.
  induction d as [|[k' v'] d IH]; simpl.
  - now rewrite String.eqb_refl.
  - destruct (String.eqb k k') eqn:E; simpl.
    + now rewrite String.eqb_refl.
    + now rewrite E.
Qed.

Lemma dict_get_set_other {A} (d : dict A) (k k' : string) (v : A) :
  k <> k' -> dict_get (dict_set d k v) k' = dict_get d k'.
Proof.
  intros Hne. induction d as [|[k0 v0] d IH]; simpl.
  - destruct (String.eqb k' k) eqn:E; [|reflexivity].
    apply String.eqb_eq in E. congruence.
  - destruct (String.eqb k k0) eqn:E; simpl.
    + apply String.eqb_eq in E. subst k0.
      destruct (String.eqb k' k) eqn:E'; [|reflexivity].
      apply String.eqb_eq in E'. congruence.
    + now rewrite IH.
Qed.

(** ** C6: Dictionary.to_dict *)

(** C6, as amended: [to_dict] returns a dict unchanged; a string is first
    stripped of the whitespace around it, and the stripped text with exactly
    one "=" gives the one entry from the part before it to the part after it,
    any other gives the one entry from the stripped text to None; a string
    without whitespace is its own stripped text; None gives the empty dict. *)
Theorem to_dict_cases :
  (forall d, to_dict (VDict d) = d) /\
  (forall s k v,
      strip s = (k ++ String "=" v)%string ->
      contains "=" k = false -> contains "=" v = false ->
      to_dict (VStr s) = [(k, VStr v)]) /\
  (forall s, count_char "=" (strip s) <> 1 ->
      to_dict (VStr s) = [(strip s, VNone)]) /\
  (forall s, has_space s = false -> strip s = s) /\
  to_dict VNone = [].
Proof.
  split; [reflexivity|]. split; [|split; [|split; [|reflexivity]]].
  - intros s k v Hs Hk Hv. unfold to_dict. rewrite Hs.
    rewrite (split_on_first _ k v Hk), (split_on_absent _ v Hv). reflexivity.
  - intros s Hc. unfold to_dict.
    pose proof (split_on_length "=" (strip s)) as Hl.
    destruct (split_on "=" (strip s)) as [|a [|b [|c l]]]; try reflexivity.
    simpl in Hl. exfalso. apply Hc. now injection Hl.
  - exact strip_no_space.
Qed.

(** ** C7: List.to_list *)

(** C7, as amended: [to_list] returns a list unchanged; a string is first
    stripped of the whitespace around it, and when the stripped text has a
    comma and no space character it is split on commas, otherwise the string
    is split on whitespace; a string with a comma and no whitespace at all is
    split on commas as it stands; None gives the empty list and any other
    object the list of that object alone. *)
Theorem to_list_cases :
  (forall l, to_list (VList l) = l) /\
  (forall s,
      contains "," (strip s) = true -> contains " " (strip s) = false ->
      to_list (VStr s) = map VStr (split_on "," (strip s))) /\
  (forall s,
      contains "," (strip s) && negb (contains " " (strip s)) = false ->
      to_list (VStr s) = map VStr (split_ws s)) /\
  (forall s,
      contains "," s = true -> has_space s = false ->
      to_list (VStr s) = map VStr (split_on "," s)) /\
  to_list VNone = [] /\
  (forall obj,
      (forall l, obj <> VList l) -> (forall s, obj <> VStr s) ->
      obj <> VNone -> to_list obj = [obj]).
Proof.
  split; [reflexivity|].
  split; [|split; [|split; [|split; [reflexivity|]]]].
  - intros s Hc Hs. unfold to_list. now rewrite Hc, Hs.
  - intros s H. unfold to_list. rewrite H. now rewrite split_ws_strip.
  - intros s Hc Hs. unfold to_list. rewrite (strip_no_space s Hs), Hc.
    now rewrite (contains_space_has_space s Hs).
  - intros obj Hl Hs Hn. destruct obj; try reflexivity.
    + contradiction.
    + exfalso. now apply (Hs s).
    + exfalso. now apply (Hl l).
Qed.

Section Facts.

Variable leaf_to_value : string -> pyobj -> pyobj.
Variable leaf_to_data : string -> pyobj -> pyobj.
Variable standard_match : pyobj -> string.

Local Abbreviation to_value' := (to_value leaf_to_value standard_match).
Local Abbreviation to_data' :=
  (to_data leaf_to_value leaf_to_data standard_match).
Local Abbreviation setattr' := (Mappable_setattr leaf_to_value standard_match).

(** ** C8: a List subclass without an item type *)

(** C8: on a subclass of List whose [yorm_attrs] has no entry "all",
    [to_value] raises NotImplementedError whatever the input, and returns a
    value at no call depth. *)
Theorem list_to_value_without_item_type (c : string) (obj : pyobj)
    (st : regs) :
  dict_get (st c) "all" = None ->
  (forall fuel,
      to_value' (S fuel) (ListSub c) obj st
      = Raise (NotImplementedError "List subclass must specify item type")) /\
  (forall fuel v st', to_value' fuel (ListSub c) obj st <> Ok (v, st')).
Proof.
  intros H.
  assert (forall fuel,
             to_value' (S fuel) (ListSub c) obj st
             = Raise (NotImplementedError
                        "List subclass must specify item type")) as E.
  { intros fuel. simpl. unfold bind, list_to_value, bind, item_type.
    now rewrite H. }
  split; [exact E|].
  intros [|fuel] v st'; [discriminate|]. rewrite E. discriminate.
Qed.

(** ** Mappable *)

Lemma lookup_attr_setattr_same (self : object) (name : string) (v : pyobj) :
  lookup_attr (store_attr self name v) name = Some v.
Proof. unfold lookup_attr, store_attr. simpl. now rewrite dict_get_set_same. Qed.

Lemma lookup_attr_setattr_other (self : object) (name name' : string)
    (v : pyobj) :
  name <> name' ->
  lookup_attr (store_attr self name v) name' = lookup_attr self name'.
Proof.
  intros H. unfold lookup_attr, store_attr. simpl.
  now rewrite (dict_get_set_other _ _ _ _ H).
Qed.

(** Without a data descriptor for the name, [object.__setattr__] stores. *)
Lemma object_setattr_plain (self : object) (name : string) (v : pyobj) :
  dict_get (descriptors self) name = None ->
  object_setattr self name v = Ok (store_attr self name v).
Proof. unfold object_setattr. now intros ->. Qed.

Lemma lookup_attr_update_mapper (self : object) (m : mapper) (name : string) :
  name <> "yorm_mapper" ->
  lookup_attr (update_mapper self m) name = lookup_attr self name.
Proof.
  intros H. unfold update_mapper, lookup_attr.
  destruct (has_key (inst_dict self) "yorm_mapper"); simpl.
  - rewrite dict_get_set_other; [reflexivity | congruence].
  - rewrite dict_get_set_other; [reflexivity | congruence].
Qed.

Lemma mapper_of_update_mapper (self : object) (m : mapper) :
  mapper_of (update_mapper self m) = Some m.
Proof.
  unfold mapper_of, update_mapper, lookup_attr, has_key.
  destruct (dict_get (inst_dict self) "yorm_mapper") eqn:E; simpl.
  - now rewrite dict_get_set_same.
  - rewrite E. now rewrite dict_get_set_same.
Qed.

Lemma document_update_mapper (self : object) (m : mapper) :
  document (update_mapper self m) = document self.
Proof.
  unfold update_mapper.
  now destruct (has_key (inst_dict self) "yorm_mapper").
Qed.

Lemma descriptors_update_mapper (self : object) (m : mapper) :
  descriptors (update_mapper self m) = descriptors self.
Proof.
  unfold update_mapper.
  now destruct (has_key (inst_dict self) "yorm_mapper").
Qed.

(** What a store does: the document is the attributes the object has, and
    the mapper has one more store, the auto flag as it was. *)
Lemma call_store_mapper (self : object) (m : mapper) :
  lookup_attr self "yorm_mapper" = Some (VMapper m) ->
  exists self', call_store self = Ok self' /\
    mapper_of self' = Some (mapper_store m) /\
    document self' = inst_dict self /\
    descriptors self' = descriptors self /\
    forall n, n <> "yorm_mapper" -> lookup_attr self' n = lookup_attr self n.
Proof.
  intros Hm. unfold call_store, object_getattribute. rewrite Hm.
  eexists. split; [reflexivity|]. split; [apply mapper_of_update_mapper|].
  split; [now rewrite document_update_mapper|].
  split; [now rewrite descriptors_update_mapper|].
  intros n Hn. now rewrite lookup_attr_update_mapper.
Qed.

(** What [__exit__] does to the mapper: one store, the auto flag as it was. *)
Lemma Mappable_exit_mapper (self : object) (m : mapper) :
  mapper_of self = Some m ->
  exists self', Mappable_exit self = Ok self' /\
    mapper_of self' = Some (Mapper (auto m) (S (stores m)) (retrieves m)).
Proof.
  unfold mapper_of, Mappable_exit. intros H.
  destruct (lookup_attr self "yorm_mapper") as [[]|] eqn:E; try discriminate.
  injection H as ->.
  destruct (call_store_mapper self m E) as (self' & H1 & H2 & _).
  exists self'. split; [exact H1 | exact H2].
Qed.

(** C5, as amended: on an object whose [yorm_attrs] is a dict and whose
    mapper, if any, is a Mapper, and for a [name] other than [yorm_attrs] and
    [yorm_mapper].  A write to a field [name] that [yorm_attrs] maps to a
    converter class first converts: if the conversion raises, so does the
    write.  The class having no data descriptor for [name], the converted
    value is then assigned, and then, if the auto flag is on, one store is
    made, which finds the converted value assigned: the document it writes
    is the object's attributes with [name] set to the converted value; with
    the flag off, or without a mapper, nothing is stored.  A write to a name
    that [yorm_attrs] does not hold assigns the value as it is and stores
    nothing.  Either way, a write that [object.__setattr__] refuses raises
    what that raises. *)
Theorem setattr_converts_then_stores_if_auto (fuel : nat) (self : object)
    (name : string) (value : pyobj) (st : regs) (attrs : dict pyobj) :
  name <> "yorm_attrs" -> name <> "yorm_mapper" ->
  lookup_attr self "yorm_attrs" = Some (VDict attrs) ->
  (lookup_attr self "yorm_mapper" = None \/
   exists m, lookup_attr self "yorm_mapper" = Some (VMapper m)) ->
  (forall cls, dict_get attrs name = Some (VClass cls) ->
     match to_value' fuel cls value st with
     | Ok (value', st') =>
         (dict_get (descriptors self) name = None ->
          exists self', setattr' fuel self name value st = Ok (self', st') /\
            lookup_attr self' name = Some value' /\
            mapper_of self'
            = option_map (fun m => if auto m then mapper_store m else m)
                (mapper_of self) /\
            document self'
            = match mapper_of self with
              | Some m => if auto m
                          then dict_set (inst_dict self) name value'
                          else document self
              | None => document self
              end) /\
         (forall e, object_setattr self name value' = Raise e ->
                    setattr' fuel self name value st = Raise e)
     | Raise e => setattr' fuel self name value st = Raise e
     end) /\
  (dict_get attrs name = None ->
     (dict_get (descriptors self) name = None ->
      setattr' fuel self name value st = Ok (store_attr self name value, st) /\
      lookup_attr (store_attr self name value) name = Some value /\
      mapper_of (store_attr self name value) = mapper_of self /\
      document (store_attr self name value) = document self) /\
     (forall e, object_setattr self name value = Raise e ->
                setattr' fuel self name value st = Raise e)).
Proof.
  intros Hn1 Hn2 Hattrs Hmap. split.
  - intros cls Hcls. unfold Mappable_setattr, is_mapped.
    rewrite Hattrs. simpl. unfold has_key. rewrite Hcls. simpl.
    destruct (to_value' fuel cls value st) as [[value' st']|e];
      [|reflexivity].
    split; [|now intros e ->].
    intros Hplain. rewrite (object_setattr_plain self name value' Hplain).
    rewrite (lookup_attr_setattr_other self name "yorm_attrs" value' Hn1).
    rewrite Hattrs. simpl. unfold has_key. rewrite Hcls.
    unfold store_if_auto, mapper_of.
    rewrite (lookup_attr_setattr_other self name "yorm_mapper" value' Hn2).
    destruct Hmap as [Hm|[m Hm]]; rewrite Hm.
    + eexists. split; [reflexivity|]. split.
      * apply lookup_attr_setattr_same.
      * rewrite (lookup_attr_setattr_other self name "yorm_mapper" value' Hn2).
        rewrite Hm. split; reflexivity.
    + destruct (auto m) eqn:Ha.
      * destruct (call_store_mapper (store_attr self name value') m)
          as (self' & E & H1 & H2 & _ & H3).
        { now rewrite (lookup_attr_setattr_other self name "yorm_mapper"
                         value' Hn2). }
        rewrite E. exists self'. split; [reflexivity|]. split; [|split].
        -- rewrite (H3 name Hn2). apply lookup_attr_setattr_same.
        -- fold (mapper_of self'). rewrite H1. simpl. now rewrite Ha.
        -- exact H2.
      * eexists. split; [reflexivity|]. split; [|split].
        -- apply lookup_attr_setattr_same.
        -- rewrite (lookup_attr_setattr_other self name "yorm_mapper" value' Hn2).
           rewrite Hm. simpl. now rewrite Ha.
        -- reflexivity.
  - intros Hnone. split.
    + intros Hplain. split; [|split; [|split]].
      * unfold Mappable_setattr, is_mapped.
        rewrite Hattrs. simpl. unfold has_key. rewrite Hnone.
        rewrite (object_setattr_plain self name value Hplain).
        rewrite (lookup_attr_setattr_other self name "yorm_attrs" value Hn1).
        rewrite Hattrs. simpl. unfold has_key. now rewrite Hnone.
      * apply lookup_attr_setattr_same.
      * unfold mapper_of.
        now rewrite (lookup_attr_setattr_other self name "yorm_mapper" value
                       Hn2).
      * reflexivity.
    + intros e He. unfold Mappable_setattr, is_mapped.
      rewrite Hattrs. simpl. unfold has_key. rewrite Hnone. now rewrite He.
Qed.

(** C9, as amended: on an instance without [yorm_attrs], reading any
    attribute other than [yorm_mapper] raises AttributeError, while
    [yorm_mapper] itself is read like any attribute of an object; writing an
    attribute other than [yorm_attrs] for which the class has no data
    descriptor succeeds and assigns the value as it is, and a write that
    [object.__setattr__] refuses raises what that raises. *)
Theorem access_without_yorm_attrs (self : object) :
  lookup_attr self "yorm_attrs" = None ->
  (forall name, name <> "yorm_mapper" ->
     Mappable_getattribute self name = Raise (AttributeError "yorm_attrs")) /\
  Mappable_getattribute self "yorm_mapper"
  = match lookup_attr self "yorm_mapper" with
    | Some v => Ok (v, self)
    | None => Raise (AttributeError "yorm_mapper")
    end /\
  (forall fuel name value st, name <> "yorm_attrs" ->
     dict_get (descriptors self) name = None ->
     setattr' fuel self name value st
     = Ok (store_attr self name value, st)) /\
  (forall fuel name value st e,
     object_setattr self name value = Raise e ->
     setattr' fuel self name value st = Raise e).
Proof.
  intros H. split; [|split; [|split]].
  - intros name Hn. unfold Mappable_getattribute.
    destruct (String.eqb name "yorm_mapper") eqn:E1.
    { apply String.eqb_eq in E1. contradiction. }
    destruct (String.eqb name "yorm_attrs") eqn:E2; simpl.
    + apply String.eqb_eq in E2. subst name.
      unfold object_getattribute. now rewrite H.
    + unfold object_getattribute. now rewrite H.
  - unfold Mappable_getattribute, object_getattribute. simpl.
    now destruct (lookup_attr self "yorm_mapper").
  - intros fuel name value st Hn Hplain. unfold Mappable_setattr, is_mapped.
    rewrite H. rewrite (object_setattr_plain self name value Hplain).
    rewrite (lookup_attr_setattr_other self name "yorm_attrs" value Hn).
    now rewrite H.
  - intros fuel name value st e He. unfold Mappable_setattr, is_mapped.
    rewrite H. now rewrite He.
Qed.

End Facts.

(** * The container converters *)

(** ** More on dict *)

Lemma has_key_in {A} (d : dict A) (k : string) :
  has_key d k = true <-> In k (keys d).
Proof.
  unfold has_key. induction d as [|[k' v] d IH]; simpl.
  - split; [discriminate | tauto].
  - destruct (String.eqb k k') eqn:E.
    + apply String.eqb_eq in E. subst. split; auto.
    + apply String.eqb_neq in E. rewrite IH. split; [auto|].
      intros [H|H]; [congruence | exact H].
Qed.

Lemma dict_get_in {A} (d : dict A) (k : string) (v : A) :
  dict_get d k = Some v -> In (k, v) d.
Proof.
  induction d as [|[k' v'] d IH]; simpl; [discriminate|].
  destruct (String.eqb k k') eqn:E.
  - apply String.eqb_eq in E. subst. intros [= ->]. now left.
  - intros H. right. auto.
Qed.

Lemma dict_get_in_keys {A} (d : dict A) (k : string) (v : A) :
  dict_get d k = Some v -> In k (keys d).
Proof.
  intros H. apply dict_get_in in H. apply (in_map fst) in H. exact H.
Qed.

Lemma dict_get_none {A} (d : dict A) (k : string) :
  dict_get d k = None <-> ~ In k (keys d).
Proof.
  rewrite <- has_key_in. unfold has_key.
  destruct (dict_get d k); split; congruence.
Qed.

Lemma in_dict_get {A} (d : dict A) (k : string) (v : A) :
  NoDup (keys d) -> In (k, v) d -> dict_get d k = Some v.
Proof.
  induction d as [|[k' v'] d IH]; simpl; [tauto|].
  intros Hnd [H|H].
  - injection H as -> ->. now rewrite String.eqb_refl.
  - inversion Hnd as [|? ? Hk Hd]; subst.
    destruct (String.eqb k k') eqn:E.
    + apply String.eqb_eq in E. subst. exfalso. apply Hk.
      apply (in_map fst) in H. exact H.
    + auto.
Qed.

Lemma keys_dict_set_in {A} (d : dict A) (n : string) (v : A) (k : string) :
  In k (keys (dict_set d n v)) <-> k = n \/ In k (keys d).
Proof.
  induction d as [|[k' v'] d IH]; simpl.
  - split; intros [H|H]; auto; contradiction.
  - destruct (String.eqb n k') eqn:E; simpl.
    + apply String.eqb_eq in E. subst. intuition congruence.
    + rewrite IH. intuition congruence.
Qed.

Lemma keys_dict_set_grows {A} (d : dict A) (n : string) (v : A) :
  exists l, keys (dict_set d n v) = keys d ++ l.
Proof.
  induction d as [|[k' v'] d [l IH]]; simpl.
  - now exists [n].
  - destruct (String.eqb n k') eqn:E; simpl.
    + apply String.eqb_eq in E. subst. exists []. now rewrite app_nil_r.
    + exists l. now rewrite IH.
Qed.

(** A new key goes last. *)
Lemma dict_set_new {A} (d : dict A) (n : string) (v : A) :
  ~ In n (keys d) -> dict_set d n v = d ++ [(n, v)].
Proof.
  induction d as [|[k' v'] d IH]; simpl; intros H; [reflexivity|].
  destruct (String.eqb n k') eqn:E.
  - apply String.eqb_eq in E. subst. tauto.
  - rewrite IH; [reflexivity | tauto].
Qed.

Lemma keys_dict_set_new {A} (d : dict A) (n : string) (v : A) :
  ~ In n (keys d) -> keys (dict_set d n v) = keys d ++ [n].
Proof.
  intros H. rewrite (dict_set_new d n v H). unfold keys.
  now rewrite map_app.
Qed.

Lemma keys_dict_set_nodup {A} (d : dict A) (n : string) (v : A) :
  NoDup (keys d) -> NoDup (keys (dict_set d n v)).
Proof.
  induction d as [|[k' v'] d IH]; simpl; intros H.
  - constructor; [tauto | constructor].
  - inversion H as [|? ? Hk Hd]; subst.
    destruct (String.eqb n k') eqn:E; simpl.
    + apply String.eqb_eq in E. subst. now constructor.
    + constructor; [|auto]. rewrite keys_dict_set_in.
      apply String.eqb_neq in E. intros [->|H']; tauto.
Qed.

Lemma in_dict_set {A} (d : dict A) (n : string) (v : A) (e : string * A) :
  In e (dict_set d n v) -> e = (n, v) \/ In e d.
Proof.
  induction d as [|[k' v'] d IH]; simpl.
  - intros [H|H]; auto.
  - destruct (String.eqb n k'); simpl; intros [H|H]; auto.
    destruct (IH H); auto.
Qed.

Lemma keys_dict_del_in {A} (d : dict A) (n k : string) :
  In k (keys (dict_del d n)) -> In k (keys d).
Proof.
  induction d as [|[k' v'] d IH]; simpl; [tauto|].
  destruct (String.eqb n k'); simpl; tauto.
Qed.

Lemma keys_dict_del_other {A} (d : dict A) (n k : string) :
  In k (keys d) -> k = n \/ In k (keys (dict_del d n)).
Proof.
  induction d as [|[k' v'] d IH]; simpl; [tauto|].
  destruct (String.eqb n k') eqn:E; simpl.
  - apply String.eqb_eq in E. subst. intros [H|H]; auto.
  - intros [H|H]; auto. destruct (IH H); auto.
Qed.

Lemma in_dict_del {A} (d : dict A) (n : string) (e : string * A) :
  In e (dict_del d n) -> In e d.
Proof.
  induction d as [|[k' v'] d IH]; simpl; [tauto|].
  destruct (String.eqb n k'); simpl; tauto.
Qed.

Lemma in_dict_del_other {A} (d : dict A) (n : string) (e : string * A) :
  In e d -> fst e <> n -> In e (dict_del d n).
Proof.
  induction d as [|[k' v'] d IH]; simpl; [tauto|].
  destruct (String.eqb n k') eqn:E; simpl.
  - apply String.eqb_eq in E. subst. intros [H|H] Hn; auto.
    subst e. simpl in Hn. congruence.
  - intros [H|H] Hn; auto.
Qed.

Lemma keys_dict_del_nodup {A} (d : dict A) (n : string) :
  NoDup (keys d) -> NoDup (keys (dict_del d n)).
Proof.
  induction d as [|[k' v'] d IH]; simpl; intros H; [constructor|].
  inversion H as [|? ? Hk Hd]; subst.
  destruct (String.eqb n k'); simpl; [exact Hd|].
  constructor; [|auto]. intros Hin. apply Hk.
  now apply keys_dict_del_in in Hin.
Qed.

Lemma keys_dict_del_gone {A} (d : dict A) (n : string) :
  NoDup (keys d) -> ~ In n (keys (dict_del d n)).
Proof.
  induction d as [|[k' v'] d IH]; simpl; intros H; [tauto|].
  inversion H as [|? ? Hk Hd]; subst.
  destruct (String.eqb n k') eqn:E; simpl.
  - apply String.eqb_eq in E. now subst.
  - apply String.eqb_neq in E. intros [H'|H']; [congruence|].
    now apply (IH Hd).
Qed.

Lemma dict_pop_some {A} (d : dict A) (n : string) (v : A) (d' : dict A) :
  dict_pop d n = Some (v, d') -> dict_get d n = Some v /\ d' = dict_del d n.
Proof.
  unfold dict_pop. destruct (dict_get d n); [|discriminate].
  intros [= -> ->]. auto.
Qed.

Lemma dict_pop_none {A} (d : dict A) (n : string) :
  dict_pop d n = None -> ~ In n (keys d).
Proof.
  unfold dict_pop. destruct (dict_get d n) eqn:E; [discriminate|].
  intros _. now apply dict_get_none.
Qed.

(** ** The monad *)

Lemma bind_ok {A B} (m : M A) (f : A -> M B) (st : regs) (b : B)
    (st' : regs) :
  bind m f st = Ok (b, st') ->
  exists a st1, m st = Ok (a, st1) /\ f a st1 = Ok (b, st').
Proof.
  unfold bind. destruct (m st) as [[a st1]|e]; [|discriminate].
  intros H. now exists a, st1.
Qed.

Lemma ret_ok {A} (a b : A) (st st' : regs) :
  ret a st = Ok (b, st') -> a = b /\ st = st'.
Proof. unfold ret. intros [= -> ->]. auto. Qed.

(** ** Growth of the registries *)

Lemma grows_refl (st : regs) : grows st st.
Proof. intros c. exists []. now rewrite app_nil_r. Qed.

Lemma grows_trans (st1 st2 st3 : regs) :
  grows st1 st2 -> grows st2 st3 -> grows st1 st3.
Proof.
  intros H1 H2 c. destruct (H1 c) as [l1 E1]. destruct (H2 c) as [l2 E2].
  exists (l1 ++ l2). now rewrite E2, E1, app_assoc.
Qed.

Lemma grows_put_attr (st : regs) (c name : string) (k : conv) :
  grows st (put_attr st c name k).
Proof.
  intros c'. unfold put_attr. destruct (String.eqb c' c) eqn:E.
  - apply String.eqb_eq in E. subst. apply keys_dict_set_grows.
  - exists []. now rewrite app_nil_r.
Qed.

Lemma grows_in (st st' : regs) (c k : string) :
  grows st st' -> In k (keys (st c)) -> In k (keys (st' c)).
Proof.
  intros H Hk. destruct (H c) as [l E]. rewrite E. apply in_or_app. now left.
Qed.

Lemma grows_length (st st' : regs) (c : string) :
  grows st st' -> List.length (st c) <= List.length (st' c).
Proof.
  intros H. destruct (H c) as [l E].
  apply (f_equal (@List.length string)) in E.
  unfold keys in E. rewrite length_app, !length_map in E. lia.
Qed.

Lemma grows_nth (st st' : regs) (c : string) (i : nat) (k : string) :
  grows st st' ->
  nth_error (keys (st c)) i = Some k -> nth_error (keys (st' c)) i = Some k.
Proof.
  intros H Hk. destruct (H c) as [l E]. rewrite E.
  rewrite nth_error_app1; [exact Hk|].
  apply nth_error_Some. congruence.
Qed.

(** With as many entries as before, a grown registry has the keys it had. *)
Lemma grows_same_length (st st' : regs) (c : string) :
  grows st st' -> List.length (st' c) = List.length (st c) ->
  keys (st' c) = keys (st c).
Proof.
  intros H Hl. destruct (H c) as [l E].
  assert (List.length l = 0) as Hz.
  { apply (f_equal (@List.length string)) in E.
    unfold keys in E. rewrite length_app, !length_map in E. lia. }
  destruct l; [|discriminate]. now rewrite E, app_nil_r.
Qed.

Lemma in_keys_dict_get {A} (d : dict A) (k : string) :
  In k (keys d) -> exists x, dict_get d k = Some x.
Proof.
  intros H. destruct (dict_get d k) eqn:E; [eauto|].
  now apply dict_get_none in E.
Qed.

(** Case analysis on the disjunctions and conjunctions at hand. *)
Ltac by_cases :=
  repeat match goal with
         | |- _ <-> _ => split
         | |- _ /\ _ => split
         | |- forall _, _ => intro
         | H : _ \/ _ |- _ => destruct H
         | H : _ /\ _ |- _ => destruct H
         | H : False |- _ => destruct H
         end;
  subst; simpl; auto.

(** ** The loops, whatever the calls they make *)

Section AnyCalls.

Variable standard_match : pyobj -> string.

Variable rec_value : conv -> pyobj -> M pyobj.

Local Abbreviation load_items' := (load_items standard_match rec_value).
Local Abbreviation add_deleted' := (add_deleted rec_value).
Local Abbreviation dictionary_to_value' :=
  (dictionary_to_value standard_match rec_value).

Lemma load_items_keys (c : string) (items : dict pyobj) :
  forall ya val st ya' val' st',
    load_items' c items ya val st = Ok ((ya', val'), st') ->
    (forall k, In k (keys val') <-> In k (keys val) \/ In k (keys items)) /\
    (forall k, In k (keys ya') -> In k (keys ya)) /\
    (forall k, In k (keys ya) -> In k (keys items) \/ In k (keys ya')).
Proof.
  induction items as [|[name data] items IH]; intros ya val st ya' val' st' H;
    simpl in H.
  - apply ret_ok in H as [[= -> ->] _]. simpl. by_cases.
  - destruct (dict_pop ya name) as [[converter ya1]|] eqn:Ep.
    + apply dict_pop_some in Ep as [_ ->].
      apply bind_ok in H as (x & st1 & _ & H).
      apply IH in H as (Hv & Hy1 & Hy2). split; [|split].
      * intros k. rewrite Hv, keys_dict_set_in. simpl. by_cases.
      * intros k Hk. apply Hy1 in Hk. now apply keys_dict_del_in in Hk.
      * intros k Hk. simpl. apply (keys_dict_del_other _ name) in Hk.
        destruct Hk as [->|Hk]; [auto|]. apply Hy2 in Hk. by_cases.
    + apply bind_ok in H as (u & st1 & _ & H).
      apply bind_ok in H as (x & st2 & _ & H).
      apply IH in H as (Hv & Hy1 & Hy2). split; [|split].
      * intros k. rewrite Hv, keys_dict_set_in. simpl. by_cases.
      * exact Hy1.
      * intros k Hk. simpl. apply Hy2 in Hk. by_cases.
Qed.

Lemma add_deleted_keys (ya : dict conv) :
  forall val st val' st',
    add_deleted' ya val st = Ok (val', st') ->
    forall k, In k (keys val') <-> In k (keys val) \/ In k (keys ya).
Proof.
  induction ya as [|[name converter] ya IH]; intros val st val' st' H k;
    simpl in H.
  - apply ret_ok in H as [-> _]. simpl. by_cases.
  - apply bind_ok in H as (x & st1 & _ & H).
    rewrite (IH _ _ _ _ H), keys_dict_set_in. simpl. by_cases.
Qed.

(** The keys of what Dictionary.to_value returns: those of the input and
    those the class had when the call began. *)
Lemma dictionary_to_value_keys (c : string) (obj : pyobj) (st : regs)
    (value : dict pyobj) (st' : regs) :
  dictionary_to_value' c obj st = Ok (value, st') ->
  forall k,
    In k (keys value) <-> In k (keys (to_dict obj)) \/ In k (keys (st c)).
Proof.
  unfold dictionary_to_value. intros H k.
  apply bind_ok in H as (ya & st0 & Hg & H).
  injection Hg as <- <-.
  apply bind_ok in H as ([ya' val'] & st1 & Hl & H). simpl in H.
  apply load_items_keys in Hl as (Hv & Hy1 & Hy2).
  rewrite (add_deleted_keys _ _ _ _ _ H), Hv. simpl.
  split.
  - intros [[[]|Hk]|Hk]; auto.
  - intros [Hk|Hk]; auto. destruct (Hy2 _ Hk); auto.
Qed.





(** *** Growth *)

Variable rec_data : conv -> pyobj -> M pyobj.

Local Abbreviation dictionary_to_data' :=
  (dictionary_to_data standard_match rec_value rec_data).

Hypothesis rec_value_grows : forall k obj st v st',
  rec_value k obj st = Ok (v, st') -> grows st st'.
Hypothesis rec_data_grows : forall k obj st v st',
  rec_data k obj st = Ok (v, st') -> grows st st'.

Lemma load_items_grows (c : string) (items : dict pyobj) :
  forall ya val st p st',
    load_items' c items ya val st = Ok (p, st') -> grows st st'.
Proof using rec_value rec_value_grows standard_match.
  induction items as [|[name data] items IH]; intros ya val st p st' H;
    simpl in H.
  - apply ret_ok in H as [_ ->]. apply grows_refl.
  - destruct (dict_pop ya name) as [[converter ya1]|].
    + apply bind_ok in H as (x & st1 & Hx & H).
      eapply grows_trans; [exact (rec_value_grows _ _ _ _ _ Hx)|].
      exact (IH _ _ _ _ _ H).
    + apply bind_ok in H as (u & st1 & Hu & H).
      apply bind_ok in H as (x & st2 & Hx & H).
      injection Hu as _ <-.
      eapply grows_trans; [apply grows_put_attr|].
      eapply grows_trans; [exact (rec_value_grows _ _ _ _ _ Hx)|].
      exact (IH _ _ _ _ _ H).
Qed.

Lemma add_deleted_grows (ya : dict conv) :
  forall val st val' st',
    add_deleted' ya val st = Ok (val', st') -> grows st st'.
Proof using rec_value rec_value_grows.
  induction ya as [|[name converter] ya IH]; intros val st val' st' H;
    simpl in H.
  - apply ret_ok in H as [_ ->]. apply grows_refl.
  - apply bind_ok in H as (x & st1 & Hx & H).
    eapply grows_trans; [exact (rec_value_grows _ _ _ _ _ Hx)|].
    exact (IH _ _ _ _ H).
Qed.

Lemma dictionary_to_value_grows (c : string) (obj : pyobj) (st : regs)
    (value : dict pyobj) (st' : regs) :
  dictionary_to_value' c obj st = Ok (value, st') -> grows st st'.
Proof using rec_value rec_value_grows standard_match.
  unfold dictionary_to_value. intros H.
  apply bind_ok in H as (ya & st0 & Hg & H). injection Hg as <- <-.
  apply bind_ok in H as (p & st1 & Hl & H).
  eapply grows_trans; [exact (load_items_grows _ _ _ _ _ _ _ Hl)|].
  exact (add_deleted_grows _ _ _ _ _ H).
Qed.

(** Every key of the input is a key of the class afterwards. *)
Lemma load_items_registers (c : string) (items : dict pyobj) :
  forall ya val st p st',
    (forall k, In k (keys ya) -> In k (keys (st c))) ->
    load_items' c items ya val st = Ok (p, st') ->
    forall k, In k (keys items) -> In k (keys (st' c)).
Proof using rec_value rec_value_grows standard_match.
  induction items as [|[name data] items IH]; intros ya val st p st' Hya H k Hk;
    simpl in H; [contradiction|].
  destruct (dict_pop ya name) as [[converter ya1]|] eqn:Ep.
  - apply dict_pop_some in Ep as [Hget ->].
    apply bind_ok in H as (x & st1 & Hx & H).
    pose proof (rec_value_grows _ _ _ _ _ Hx) as G1.
    pose proof (load_items_grows _ _ _ _ _ _ _ H) as G2.
    destruct Hk as [<-|Hk].
    + simpl. apply (grows_in _ _ _ _ G2), (grows_in _ _ _ _ G1), Hya.
      exact (dict_get_in_keys _ _ _ Hget).
    + apply (IH _ _ _ _ _) with (k := k) in H; [exact H| |exact Hk].
      intros k' Hk'. apply (grows_in _ _ _ _ G1), Hya.
      now apply keys_dict_del_in in Hk'.
  - apply bind_ok in H as (u & st1 & Hu & H).
    apply bind_ok in H as (x & st2 & Hx & H).
    injection Hu as _ <-.
    pose proof (rec_value_grows _ _ _ _ _ Hx) as G1.
    pose proof (load_items_grows _ _ _ _ _ _ _ H) as G2.
    destruct Hk as [<-|Hk].
    + simpl. apply (grows_in _ _ _ _ G2), (grows_in _ _ _ _ G1).
      unfold put_attr. rewrite String.eqb_refl.
      apply keys_dict_set_in. now left.
    + apply (IH _ _ _ _ _) with (k := k) in H; [exact H| |exact Hk].
      intros k' Hk'. apply (grows_in _ _ _ _ G1).
      apply (grows_in _ _ _ _ (grows_put_attr _ _ _ _)). auto.
Qed.

Lemma dictionary_to_value_registers (c : string) (obj : pyobj) (st : regs)
    (value : dict pyobj) (st' : regs) :
  dictionary_to_value' c obj st = Ok (value, st') ->
  forall k, In k (keys (to_dict obj)) -> In k (keys (st' c)).
Proof using rec_value rec_value_grows standard_match.
  unfold dictionary_to_value. intros H k Hk.
  apply bind_ok in H as (ya & st0 & Hg & H). injection Hg as <- <-.
  apply bind_ok in H as (p & st1 & Hl & H).
  apply (grows_in _ _ _ _ (add_deleted_grows _ _ _ _ _ H)).
  apply (load_items_registers _ _ _ _ _ _ _ (fun _ Hk' => Hk') Hl k Hk).
Qed.

Lemma convert_items_grows (rec : conv -> pyobj -> M pyobj) (meth c : string)
    (items : list pyobj) :
  (forall k obj st v st', rec k obj st = Ok (v, st') -> grows st st') ->
  forall acc st l st',
    convert_items rec meth c items acc st = Ok (l, st') -> grows st st'.
Proof.
  intros Hrec. induction items as [|item items IH]; intros acc st l st' H;
    simpl in H.
  - apply ret_ok in H as [_ ->]. apply grows_refl.
  - apply bind_ok in H as (x & st1 & Hx & H).
    unfold call_item in Hx. apply bind_ok in Hx as (it & st0 & Hi & Hx).
    injection Hi as <- <-.
    destruct (dict_get (st c) "all") as [converter|]; [|discriminate].
    eapply grows_trans; [exact (Hrec _ _ _ _ _ Hx)|].
    exact (IH _ _ _ _ H).
Qed.

Lemma list_to_value_grows (c : string) (obj : pyobj) (st : regs)
    (l : list pyobj) (st' : regs) :
  list_to_value rec_value c obj st = Ok (l, st') -> grows st st'.
Proof using rec_value rec_value_grows.
  unfold list_to_value. intros H.
  apply bind_ok in H as (it & st0 & Hi & H). injection Hi as <- <-.
  destruct (dict_get (st c) "all"); [|discriminate].
  exact (convert_items_grows _ _ _ _ rec_value_grows _ _ _ _ H).
Qed.

Lemma list_to_data_grows (c : string) (obj : pyobj) (st : regs)
    (l : list pyobj) (st' : regs) :
  list_to_data rec_value rec_data c obj st = Ok (l, st') -> grows st st'.
Proof using rec_data rec_data_grows rec_value rec_value_grows.
  unfold list_to_data. intros H.
  apply bind_ok in H as (value & st1 & Hv & H).
  eapply grows_trans; [exact (list_to_value_grows _ _ _ _ _ Hv)|].
  exact (convert_items_grows _ _ _ _ rec_data_grows _ _ _ _ H).
Qed.

(** The loop of Dictionary.to_data ends only if the class has as many
    fields as when the loop began, and then it has set one entry for each of
    them. *)
Lemma dump_items_keys (c : string) (size : nat) (value : dict pyobj) :
  forall left i data st data' st',
    i + left = size ->
    dump_items rec_data c size value left i data st = Ok (data', st') ->
    grows st st' /\ List.length (st' c) = size /\
    forall k, In k (keys data') <->
      In k (keys data) \/
      exists j, i <= j < size /\ nth_error (keys (st' c)) j = Some k.
Proof using rec_data rec_data_grows.
  induction left as [|left IH]; intros i data st data' st' Hi H; simpl in H;
    apply bind_ok in H as (attrs & st0 & Hg & H); injection Hg as <- <-;
    destruct (Nat.eqb (List.length (st c)) size) eqn:El; simpl in H;
    try discriminate; apply Nat.eqb_eq in El.
  - apply ret_ok in H as [-> ->]. split; [apply grows_refl|].
    split; [exact El|]. intros k. split; [auto|].
    intros [Hk|[j [Hj _]]]; [exact Hk | lia].
  - destruct (nth_error (st c) i) as [[name converter]|] eqn:En.
    + apply bind_ok in H as (x & st1 & Hx & H).
      apply IH in H as (G2 & Hl & Hk); [|lia].
      pose proof (rec_data_grows _ _ _ _ _ Hx) as G1.
      assert (nth_error (keys (st' c)) i = Some name) as Hname.
      { apply (grows_nth st st'); [exact (grows_trans _ _ _ G1 G2)|].
        unfold keys. now rewrite nth_error_map, En. }
      split; [exact (grows_trans _ _ _ G1 G2)|]. split; [exact Hl|].
      intros k. rewrite Hk, keys_dict_set_in. split.
      * intros [[->|Hd]|[j [Hj Hn]]]; auto.
        -- right. exists i. split; [lia | exact Hname].
        -- right. exists j. split; [lia | exact Hn].
      * intros [Hd|[j [Hj Hn]]]; auto.
        destruct (Nat.eq_dec j i) as [->|Hne].
        -- left. left. congruence.
        -- right. exists j. split; [lia | exact Hn].
    + apply nth_error_None in En. lia.
Qed.

Lemma dictionary_to_data_keys (c : string) (obj : pyobj) (st : regs)
    (data : dict pyobj) (st' : regs) :
  dictionary_to_data' c obj st = Ok (data, st') ->
  grows st st' /\
  (forall k, In k (keys data) <-> In k (keys (st' c))) /\
  (forall k, In k (keys (to_dict obj)) -> In k (keys data)).
Proof using rec_data rec_data_grows rec_value rec_value_grows standard_match.
  unfold dictionary_to_data. intros H.
  apply bind_ok in H as (value & st1 & Hv & H).
  apply bind_ok in H as (attrs & st0 & Hg & H). injection Hg as <- <-.
  apply dump_items_keys in H as (G2 & Hl & Hk); [|reflexivity].
  pose proof (dictionary_to_value_grows _ _ _ _ _ Hv) as G1.
  assert (forall k, In k (keys data) <-> In k (keys (st' c))) as Hkeys.
  { intros k. rewrite Hk. simpl. split.
    - intros [[]|[j [_ Hn]]]. now apply nth_error_In in Hn.
    - intros Hin. right. apply In_nth_error in Hin as [j Hn]. exists j.
      split; [|exact Hn]. split; [lia|].
      assert (j < List.length (keys (st' c))) as Hlt
          by (apply nth_error_Some; congruence).
      unfold keys in Hlt. rewrite length_map in Hlt. lia. }
  split; [exact (grows_trans _ _ _ G1 G2)|]. split; [exact Hkeys|].
  intros k Hin. apply Hkeys. apply (grows_in _ _ _ _ G2).
  exact (dictionary_to_value_registers _ _ _ _ _ Hv k Hin).
Qed.

End AnyCalls.

(** ** Converting what is already converted *)

Lemma dict_get_del_other {A} (d : dict A) (n k : string) :
  k <> n -> dict_get (dict_del d n) k = dict_get d k.
Proof.
  intros Hne. induction d as [|[k' v'] d IH]; simpl; [reflexivity|].
  destruct (String.eqb n k') eqn:E; simpl.
  - apply String.eqb_eq in E. subst k'.
    destruct (String.eqb k n) eqn:E'; [|reflexivity].
    apply String.eqb_eq in E'. contradiction.
  - now rewrite IH.
Qed.

Lemma in_dict_del_iff {A} (d : dict A) (n : string) (e : string * A) :
  NoDup (keys d) -> In e (dict_del d n) <-> In e d /\ fst e <> n.
Proof.
  intros Hnd. split.
  - intros H. split; [now apply in_dict_del in H|].
    intros <-. apply (keys_dict_del_gone d (fst e) Hnd).
    apply (in_map fst) in H. exact H.
  - intros [H Hne]. now apply in_dict_del_other.
Qed.

Lemma dict_get_app {A} (d1 d2 : dict A) (n : string) :
  dict_get (d1 ++ d2) n
  = match dict_get d1 n with Some v => Some v | None => dict_get d2 n end.
Proof.
  induction d1 as [|[k v] d1 IH]; simpl; [reflexivity|].
  now destruct (String.eqb n k).
Qed.

Lemma keys_map_entry {A B} (g : string * A -> B) (d : dict A) :
  keys (map (fun e => (fst e, g e)) d) = keys d.
Proof. unfold keys. rewrite map_map. reflexivity. Qed.

Lemma dict_get_map_entry {A B} (g : string -> A -> B) (d : dict A)
    (n : string) :
  dict_get (map (fun e => (fst e, g (fst e) (snd e))) d) n
  = option_map (g n) (dict_get d n).
Proof.
  induction d as [|[k v] d IH]; simpl; [reflexivity|].
  destruct (String.eqb n k) eqn:E; [|exact IH].
  apply String.eqb_eq in E. now subst.
Qed.

Lemma firstn_succ_nth {A} (l : list A) (i : nat) (x : A) :
  nth_error l i = Some x -> firstn (S i) l = firstn i l ++ [x].
Proof.
  revert i. induction l as [|a l IH]; intros [|i] H; simpl in *;
    try discriminate.
  - now injection H as ->.
  - now rewrite (IH i H).
Qed.

Lemma nodup_nth_not_before {A} (l : list A) (i : nat) (x : A) :
  NoDup l -> nth_error l i = Some x -> ~ In x (firstn i l).
Proof.
  revert i. induction l as [|a l IH]; intros [|i] Hnd H; simpl in *;
    try discriminate; auto.
  inversion Hnd as [|? ? Ha Hl]; subst. intros [->|Hin].
  - apply Ha. now apply nth_error_In in H.
  - now apply (IH i Hl H).
Qed.

Lemma run_of_ok (rec : conv -> pyobj -> M pyobj) (s : regs) (k : conv)
    (x w : pyobj) (s' : regs) :
  rec k x s = Ok (w, s') -> run_of rec s k x = w.
Proof. unfold run_of. now intros ->. Qed.

Section SettledCalls.

Variable standard_match : pyobj -> string.
Variable rec_value : conv -> pyobj -> M pyobj.
Variable rec_data : conv -> pyobj -> M pyobj.
Variable s : regs.
Variable c : string.

Local Abbreviation tv := (run_of rec_value s).
Local Abbreviation td := (run_of rec_data s).

Local Abbreviation settle_entry' := (settle_entry rec_value s c).
Local Abbreviation default_entry' := (default_entry rec_value s).
Local Abbreviation dump_entry' := (dump_entry rec_data s).

Lemma load_settled (items : dict pyobj) :
  forall ya val,
    NoDup (keys items) -> NoDup (keys ya) ->
    (forall n x, In (n, x) items ->
       exists k, dict_get ya n = Some k /\ dict_get (s c) n = Some k /\
                 rec_value k x s = Ok (tv k x, s)) ->
    (forall n, In n (keys val) -> ~ In n (keys items)) ->
    exists ya',
      load_items standard_match rec_value c items ya val s
      = Ok ((ya', val ++ map settle_entry' items), s) /\
      NoDup (keys ya') /\
      (forall e, In e ya' <-> In e ya /\ ~ In (fst e) (keys items)).
Proof.
  induction items as [|[name x] items IH]; intros ya val Hni Hny Hent Hval;
    simpl.
  - exists ya. rewrite app_nil_r. split; [reflexivity|]. split; [exact Hny|].
    intros e. split; [intros H; split; auto | intros [H _]; exact H].
  - simpl in Hni. inversion Hni as [|? ? Hname Hni']; subst.
    destruct (Hent name x (or_introl eq_refl)) as (k & Hya & Hs & Hrec).
    unfold dict_pop. rewrite Hya. unfold bind. rewrite Hrec.
    destruct (IH (dict_del ya name) (dict_set val name (tv k x)) Hni')
      as (ya' & Hl & Hny' & Hin).
    + now apply keys_dict_del_nodup.
    + intros n y Hy. destruct (Hent n y (or_intror Hy)) as (k' & H1 & H2 & H3).
      exists k'. split; [|auto]. rewrite dict_get_del_other; [exact H1|].
      intros ->. apply Hname. apply (in_map fst) in Hy. exact Hy.
    + intros n Hn. apply keys_dict_set_in in Hn as [->|Hn]; [exact Hname|].
      intros Hi. apply (Hval n Hn). now right.
    + exists ya'. split; [|split; [exact Hny'|]].
      * rewrite Hl. rewrite dict_set_new.
        -- rewrite <- app_assoc. simpl. unfold settle_entry at 2.
           simpl. unfold field_conv. now rewrite Hs.
        -- intros Hn. apply (Hval name Hn). now left.
      * intros e. rewrite Hin, (in_dict_del_iff ya name e Hny). simpl.
        split.
        -- intros [[He Hne] Hni2]. split; [exact He|].
           intros [Heq|Hi]; [now apply Hne | now apply Hni2].
        -- intros [He Hn]. split; [split; [exact He|] |].
           ++ intros Heq. apply Hn. now left.
           ++ intros Hi. apply Hn. now right.
Qed.

Lemma add_deleted_settled (ya : dict conv) :
  forall val,
    NoDup (keys ya) ->
    (forall n, In n (keys val) -> ~ In n (keys ya)) ->
    (forall e, In e ya -> rec_value (snd e) VNone s = Ok (tv (snd e) VNone, s)) ->
    add_deleted rec_value ya val s = Ok (val ++ map default_entry' ya, s).
Proof.
  induction ya as [|[name k] ya IH]; intros val Hnd Hval Hrec; simpl.
  - now rewrite app_nil_r.
  - simpl in Hnd. inversion Hnd as [|? ? Hname Hnd']; subst.
    pose proof (Hrec (name, k) (or_introl eq_refl)) as Hk. simpl in Hk.
    unfold bind. rewrite Hk. rewrite IH.
    + rewrite dict_set_new.
      * now rewrite <- app_assoc.
      * intros Hn. apply (Hval name Hn). now left.
    + exact Hnd'.
    + intros n Hn. apply keys_dict_set_in in Hn as [->|Hn]; [exact Hname|].
      intros Hi. apply (Hval n Hn). now right.
    + intros e He. apply Hrec. now right.
Qed.

Lemma dump_settled (value : dict pyobj) :
  NoDup (keys (s c)) ->
  (forall e, In e (s c) ->
     rec_data (snd e) (get_or_none value (fst e)) s
     = Ok (td (snd e) (get_or_none value (fst e)), s)) ->
  forall left i,
    i + left = List.length (s c) ->
    dump_items rec_data c (List.length (s c)) value left i
      (map (dump_entry' value) (firstn i (s c))) s
    = Ok (map (dump_entry' value) (s c), s).
Proof.
  intros Hnd Hrec. induction left as [|left IH]; intros i Hi; simpl;
    unfold bind, get_attrs; rewrite Nat.eqb_refl; simpl.
  - rewrite firstn_all2 by lia. reflexivity.
  - destruct (nth_error (s c) i) as [[name k]|] eqn:En.
    + pose proof (Hrec (name, k) (nth_error_In _ _ En)) as Hk. simpl in Hk.
      rewrite Hk. rewrite dict_set_new.
      * specialize (IH (S i) ltac:(lia)).
        rewrite (firstn_succ_nth _ _ _ En), map_app in IH. exact IH.
      * unfold dump_entry. rewrite keys_map_entry.
        unfold keys. rewrite <- firstn_map.
        apply nodup_nth_not_before; [exact Hnd|].
        now rewrite nth_error_map, En.
    + apply nth_error_None in En. lia.
Qed.

Lemma dictionary_to_value_settled (v : dict pyobj) :
  NoDup (keys (s c)) -> NoDup (keys v) ->
  (forall n x, In (n, x) v ->
     exists k, dict_get (s c) n = Some k /\ rec_value k x s = Ok (tv k x, s)) ->
  (forall e, In e (s c) ->
     rec_value (snd e) VNone s = Ok (tv (snd e) VNone, s)) ->
  exists ya',
    dictionary_to_value standard_match rec_value c (VDict v) s
    = Ok (map settle_entry' v ++ map default_entry' ya', s) /\
    NoDup (keys ya') /\
    (forall e, In e ya' <-> In e (s c) /\ ~ In (fst e) (keys v)).
Proof using Type.
  intros Hns Hnv Hent Hnone.
  destruct (load_settled v (s c) [] Hnv Hns) as (ya' & Hl & Hny & Hin).
  { intros n x Hx. destruct (Hent n x Hx) as (k & Hk & Hr). now exists k. }
  { intros n []. }
  exists ya'. split; [|split; [exact Hny | exact Hin]].
  unfold dictionary_to_value, bind, get_attrs. cbn [to_dict].
  simpl in Hl. rewrite Hl. cbn [fst snd]. apply add_deleted_settled.
  - exact Hny.
  - intros n Hn Hn'. unfold settle_entry in Hn. rewrite keys_map_entry in Hn.
    apply in_map_iff in Hn' as (e & <- & He). now apply Hin in He.
  - intros e He. apply Hnone. now apply Hin in He.
Qed.

Lemma dictionary_to_data_settled (obj : pyobj) (w : dict pyobj) :
  NoDup (keys (s c)) ->
  dictionary_to_value standard_match rec_value c obj s = Ok (w, s) ->
  (forall e, In e (s c) ->
     rec_data (snd e) (get_or_none w (fst e)) s
     = Ok (td (snd e) (get_or_none w (fst e)), s)) ->
  dictionary_to_data standard_match rec_value rec_data c obj s
  = Ok (map (dump_entry' w) (s c), s).
Proof using Type.
  intros Hns Hv Hrec. unfold dictionary_to_data, bind, get_attrs.
  rewrite Hv. exact (dump_settled w Hns Hrec (List.length (s c)) 0 eq_refl).
Qed.

(** A dict whose entries are settled is settled, and its own entries are
    emitted as the converted ones are. *)
Lemma dict_settled (v : dict pyobj) :
  NoDup (keys (s c)) -> NoDup (keys v) ->
  (forall n x, In (n, x) v ->
     exists k, dict_get (s c) n = Some k /\ settled rec_value rec_data s k x) ->
  (forall e, In e (s c) ->
     rec_value (snd e) VNone s = Ok (tv (snd e) VNone, s) /\
     stable rec_value rec_data s (snd e) (tv (snd e) VNone)) ->
  exists w data,
    dictionary_to_value standard_match rec_value c (VDict v) s = Ok (w, s) /\
    dictionary_to_value standard_match rec_value c (VDict w) s = Ok (w, s) /\
    dictionary_to_data standard_match rec_value rec_data c (VDict v) s
    = Ok (data, s) /\
    dictionary_to_data standard_match rec_value rec_data c (VDict w) s
    = Ok (data, s) /\
    ((forall n, In n (keys (s c)) -> In n (keys v)) ->
     dump_items rec_data c (List.length (s c)) v (List.length (s c)) 0 [] s
     = Ok (data, s)).
Proof using Type.
  intros Hns Hnv Hent Hnone.
  destruct (dictionary_to_value_settled v Hns Hnv) as (ya' & Hv & Hny & Hin).
  { intros n x Hx. destruct (Hent n x Hx) as (k & Hk & Hr & _). now exists k. }
  { intros e He. exact (proj1 (Hnone e He)). }
  set (w := map settle_entry' v ++ map default_entry' ya') in *.
  assert (keys w = keys v ++ keys ya') as Hkw.
  { unfold w, keys. rewrite map_app. unfold settle_entry, default_entry.
    now rewrite !map_map. }
  (* every entry of [w] is converted to itself, and emitted *)
  assert (forall n y, In (n, y) w ->
            exists k, dict_get (s c) n = Some k /\
                      stable rec_value rec_data s k y) as Hw.
  { intros n y Hy. unfold w in Hy. apply in_app_or in Hy as [Hy|Hy].
    - apply in_map_iff in Hy as ([n' x] & [= <- <-] & Hx). simpl.
      destruct (Hent n' x Hx) as (k & Hk & H1 & H2 & H3 & H4).
      exists k. unfold field_conv. rewrite Hk. split; [reflexivity|].
      split; [exact H2 | eauto].
    - apply in_map_iff in Hy as ([n' k] & [= <- <-] & He). simpl.
      apply Hin in He as [He _]. exists k.
      split; [now apply in_dict_get | exact (proj2 (Hnone _ He))]. }
  (* [w] has every field *)
  assert (forall n, In n (keys (s c)) -> In n (keys w)) as Hall.
  { intros n Hn. rewrite Hkw. apply in_or_app.
    destruct (in_dec string_dec n (keys v)) as [Hi|Hi]; [now left|right].
    apply in_map_iff in Hn as (e & <- & He).
    apply (in_map fst). apply Hin. auto. }
  assert (NoDup (keys w)) as Hnw.
  { rewrite Hkw. apply NoDup_app; [exact Hnv | exact Hny|].
    intros n Hn Hn'. apply in_map_iff in Hn' as (e & <- & He).
    now apply Hin in He. }
  assert (dictionary_to_value standard_match rec_value c (VDict w) s
          = Ok (w, s)) as Hww.
  { destruct (dictionary_to_value_settled w Hns Hnw) as (ya2 & Hv2 & _ & Hin2).
    { intros n y Hy. destruct (Hw n y Hy) as (k & Hk & Hr & _). exists k.
      split; [exact Hk|]. now rewrite (run_of_ok _ _ _ _ _ _ Hr). }
    { intros e He. exact (proj1 (Hnone e He)). }
    assert (ya2 = []) as ->.
    { destruct ya2 as [|e ya2]; [reflexivity|]. exfalso.
      destruct (proj1 (Hin2 e) (or_introl eq_refl)) as [He Hne].
      apply Hne, Hall. now apply (in_map fst) in He. }
    rewrite Hv2. simpl. rewrite app_nil_r. f_equal. f_equal.
    rewrite <- (map_id w) at 2. apply map_ext_in. intros [n y] Hy.
    destruct (Hw n y Hy) as (k & Hk & Hr & _).
    unfold settle_entry, field_conv. simpl. rewrite Hk.
    now rewrite (run_of_ok _ _ _ _ _ _ Hr). }
  assert (forall e, In e (s c) ->
            rec_data (snd e) (get_or_none w (fst e)) s
            = Ok (td (snd e) (get_or_none w (fst e)), s)) as Hdump.
  { intros [n k] He. simpl.
    destruct (in_keys_dict_get w n (Hall n (in_map fst _ _ He))) as [y Hy].
    unfold get_or_none. rewrite Hy.
    destruct (Hw n y (dict_get_in _ _ _ Hy)) as (k' & Hk' & _ & d & Hd).
    rewrite (in_dict_get _ _ _ Hns He) in Hk'. injection Hk' as <-.
    now rewrite (run_of_ok _ _ _ _ _ _ Hd). }
  exists w, (map (dump_entry' w) (s c)).
  split; [exact Hv|]. split; [exact Hww|].
  split; [exact (dictionary_to_data_settled _ w Hns Hv Hdump)|].
  split; [exact (dictionary_to_data_settled _ w Hns Hww Hdump)|].
  intros Hfull.
  assert (forall e, In e (s c) ->
            exists x, dict_get v (fst e) = Some x /\
                      settled rec_value rec_data s (snd e) x) as Hv'.
  { intros [n k] He. simpl.
    destruct (in_keys_dict_get v n (Hfull n (in_map fst _ _ He))) as [x Hx].
    destruct (Hent n x (dict_get_in _ _ _ Hx)) as (k' & Hk' & Hs).
    rewrite (in_dict_get _ _ _ Hns He) in Hk'. injection Hk' as <-. eauto. }
  assert (forall e, In e (s c) ->
            rec_data (snd e) (get_or_none v (fst e)) s
            = Ok (td (snd e) (get_or_none v (fst e)), s)) as Hdumpv.
  { intros [n k] He. destruct (Hv' _ He) as (x & Hx & H1 & H2 & H3 & H4).
    simpl in *. unfold get_or_none. rewrite Hx. exact H3. }
  pose proof (dump_settled v Hns Hdumpv (List.length (s c)) 0 eq_refl) as Hd.
  cbn [firstn map] in Hd. rewrite Hd.
  replace (map (dump_entry' w) (s c)) with (map (dump_entry' v) (s c));
    [reflexivity|].
  apply map_ext_in. intros [n k] He.
  destruct (Hv' _ He) as (x & Hx & H1 & H2 & H3 & H4). simpl in Hx.
  unfold dump_entry, get_or_none. simpl. f_equal.
  unfold w. rewrite dict_get_app. unfold settle_entry.
  rewrite (dict_get_map_entry
             (fun n x => run_of rec_value s (field_conv (s c) n) x)).
  rewrite Hx. simpl. unfold field_conv.
  rewrite (in_dict_get _ _ _ Hns He). simpl in H4.
  symmetry. exact (run_of_ok _ _ _ _ _ _ H4).
Qed.

(** *** Lists *)

Lemma convert_settled (rec : conv -> pyobj -> M pyobj) (meth : string)
    (k : conv) (items : list pyobj) :
  dict_get (s c) "all" = Some k ->
  (forall x, In x items -> rec k x s = Ok (run_of rec s k x, s)) ->
  forall acc,
    convert_items rec meth c items acc s
    = Ok (acc ++ map (run_of rec s k) items, s).
Proof using Type.
  intros Hk. induction items as [|x items IH]; intros Hrec acc; simpl.
  - now rewrite app_nil_r.
  - unfold bind, call_item, bind, item_type. rewrite Hk.
    rewrite (Hrec x (or_introl eq_refl)).
    rewrite IH by (intros y Hy; apply Hrec; now right).
    now rewrite <- app_assoc.
Qed.

(** A list whose items are settled is settled, and its own items are
    emitted as the converted ones are. *)
Lemma list_settled (k : conv) (l : list pyobj) :
  dict_get (s c) "all" = Some k ->
  (forall x, In x l -> settled rec_value rec_data s k x) ->
  list_to_value rec_value c (VList l) s = Ok (map (tv k) l, s) /\
  list_to_value rec_value c (VList (map (tv k) l)) s = Ok (map (tv k) l, s) /\
  list_to_data rec_value rec_data c (VList l) s = Ok (map (td k) l, s) /\
  list_to_data rec_value rec_data c (VList (map (tv k) l)) s
  = Ok (map (td k) l, s) /\
  convert_items rec_data "to_data" c l [] s = Ok (map (td k) l, s).
Proof using Type.
  intros Hk Hl.
  assert (list_to_value rec_value c (VList l) s = Ok (map (tv k) l, s)) as H1.
  { unfold list_to_value, bind, item_type. rewrite Hk. simpl.
    apply (convert_settled rec_value "to_value" k l Hk).
    intros x Hx. exact (proj1 (Hl x Hx)). }
  assert (list_to_value rec_value c (VList (map (tv k) l)) s
          = Ok (map (tv k) l, s)) as H2.
  { unfold list_to_value, bind, item_type. rewrite Hk. simpl.
    rewrite (convert_settled rec_value "to_value" k _ Hk).
    - simpl. f_equal. f_equal. rewrite map_map. apply map_ext_in.
      intros x Hx. destruct (Hl x Hx) as (_ & Hr & _).
      exact (run_of_ok _ _ _ _ _ _ Hr).
    - intros y Hy. apply in_map_iff in Hy as (x & <- & Hx).
      destruct (Hl x Hx) as (_ & Hr & _).
      now rewrite (run_of_ok _ _ _ _ _ _ Hr). }
  assert (convert_items rec_data "to_data" c (map (tv k) l) [] s
          = Ok (map (td k) l, s)) as H3.
  { rewrite (convert_settled rec_data "to_data" k _ Hk).
    - simpl. f_equal. f_equal. rewrite map_map. apply map_ext_in.
      intros x Hx. destruct (Hl x Hx) as (_ & _ & _ & Hr).
      exact (run_of_ok _ _ _ _ _ _ Hr).
    - intros y Hy. apply in_map_iff in Hy as (x & <- & Hx).
      destruct (Hl x Hx) as (_ & _ & _ & Hr).
      now rewrite (run_of_ok _ _ _ _ _ _ Hr). }
  split; [exact H1|]. split; [exact H2|].
  split; [unfold list_to_data, bind; now rewrite H1|].
  split; [unfold list_to_data, bind; now rewrite H2|].
  rewrite (convert_settled rec_data "to_data" k l Hk); [reflexivity|].
  intros x Hx. exact (proj1 (proj2 (proj2 (Hl x Hx)))).
Qed.

End SettledCalls.

(** ** Valid inputs *)

Lemma nodupb_NoDup (l : list string) : nodupb l = true -> NoDup l.
Proof.
  induction l as [|k l IH]; simpl; intros H; [constructor|].
  apply andb_true_iff in H as [Hk Hl]. constructor; [|auto].
  intros Hin. apply negb_true_iff in Hk.
  assert (existsb (String.eqb k) l = true) as E.
  { apply existsb_exists. exists k. split; [exact Hin|].
    apply String.eqb_refl. }
  congruence.
Qed.

Lemma to_dict_valid (obj : pyobj) :
  valid_obj obj = true ->
  NoDup (keys (to_dict obj)) /\
  forall n x, In (n, x) (to_dict obj) -> valid_obj x = true.
Proof.
  destruct obj; simpl; intros H;
    try (split; [constructor | intros n x []]).
  - destruct (split_on "=" (strip s)) as [|a [|b [|b' l]]]; simpl;
      (split; [repeat constructor; simpl; tauto|]);
      intros n x [[= <- <-]|[]]; reflexivity.
  - apply andb_true_iff in H as [Hn Hv]. split; [now apply nodupb_NoDup|].
    intros n x Hx. rewrite forallb_forall in Hv. exact (Hv (n, x) Hx).
Qed.

Lemma to_list_valid (obj : pyobj) :
  valid_obj obj = true -> forall x, In x (to_list obj) -> valid_obj x = true.
Proof.
  destruct obj; simpl; intros H x Hx;
    try (destruct Hx as [<-|[]]; exact H); try contradiction.
  - destruct (contains "," (strip s) && negb (contains " " (strip s)));
      apply in_map_iff in Hx as (y & <- & _); reflexivity.
  - rewrite forallb_forall in H. now apply H.
Qed.

(** ** Fields that keep their converters *)

Lemma persists_refl (st : regs) : persists st st.
Proof. intros c n k H. exact H. Qed.

Lemma persists_trans (st1 st2 st3 : regs) :
  persists st1 st2 -> persists st2 st3 -> persists st1 st3.
Proof. intros H1 H2 c n k H. apply H2, H1, H. Qed.

Lemma persists_put_new (st : regs) (c name : string) (k : conv) :
  ~ In name (keys (st c)) -> persists st (put_attr st c name k).
Proof.
  intros Hn c' n k' H. unfold put_attr.
  destruct (String.eqb c' c) eqn:E; [|exact H].
  apply String.eqb_eq in E. subst c'.
  rewrite dict_get_set_other; [exact H|].
  intros ->. apply Hn. now apply dict_get_in_keys in H.
Qed.

Lemma dict_get_del_some {A} (d : dict A) (n m : string) (v : A) :
  NoDup (keys d) -> dict_get (dict_del d n) m = Some v ->
  dict_get d m = Some v.
Proof.
  intros Hnd H. apply in_dict_get; [exact Hnd|].
  apply dict_get_in in H. now apply in_dict_del in H.
Qed.

(** ** Ranked classes *)

Section Ranked.

Variable rank : string -> nat.

Local Abbreviation wf := (wf_schema rank).
Local Abbreviation ok := (conv_ok rank).

Lemma conv_ok_grows (st st' : regs) (b : nat) (k : conv) :
  grows st st' -> ok st b k -> ok st' b k.
Proof.
  intros G. destruct k; simpl; auto.
  intros [Hr Hk]. split; [exact Hr|].
  apply has_key_in. apply (grows_in _ _ _ _ G). now apply has_key_in.
Qed.

Lemma wf_put_attr (st : regs) (c name : string) (k : conv) :
  wf st -> ok (put_attr st c name k) (rank c) k ->
  wf (put_attr st c name k).
Proof.
  intros Hwf Hk c'. destruct (Hwf c') as [Hnd Hok].
  pose proof (grows_put_attr st c name k) as G.
  unfold put_attr at 1 2. destruct (String.eqb c' c) eqn:E.
  - apply String.eqb_eq in E. subst c'. split.
    + now apply keys_dict_set_nodup.
    + intros n k' Hin. apply in_dict_set in Hin as [[= -> ->]|Hin].
      * exact Hk.
      * apply (conv_ok_grows _ _ _ _ G). eauto.
  - split; [exact Hnd|]. intros n k' Hin.
    apply (conv_ok_grows _ _ _ _ G). eauto.
Qed.

Lemma wf_put_leaf (st : regs) (c name l : string) :
  wf st -> wf (put_attr st c name (Leaf l)).
Proof. intros Hwf. now apply wf_put_attr. Qed.

Lemma wf_no_attrs : wf no_attrs.
Proof. intros c. split; [constructor | intros n k []]. Qed.

Lemma untouched_refl (b : nat) (st : regs) : untouched rank b st st.
Proof. now intros c _. Qed.

Lemma untouched_trans (b : nat) (st1 st2 st3 : regs) :
  untouched rank b st1 st2 -> untouched rank b st2 st3 ->
  untouched rank b st1 st3.
Proof. intros H1 H2 c Hc. now rewrite (H2 c Hc), (H1 c Hc). Qed.

(** *** The loops of a class whose calls go to lower ranks *)

Section RankedCalls.

Variable standard_match : pyobj -> string.
Variable c : string.
Variable rec_value : conv -> pyobj -> M pyobj.
Variable rec_data : conv -> pyobj -> M pyobj.

Hypothesis rec_value_grows : forall k obj st v st',
  rec_value k obj st = Ok (v, st') -> grows st st'.
Hypothesis rec_data_grows : forall k obj st v st',
  rec_data k obj st = Ok (v, st') -> grows st st'.
Hypothesis rec_value_ok : forall k obj st,
  wf st -> ok st (rank c) k ->
  exists v st', rec_value k obj st = Ok (v, st') /\
    wf st' /\ untouched rank (rank c) st st'.
Hypothesis rec_data_ok : forall k obj st,
  wf st -> ok st (rank c) k ->
  exists v st', rec_data k obj st = Ok (v, st') /\
    wf st' /\ untouched rank (rank c) st st'.

Local Abbreviation load_items' := (load_items standard_match rec_value).

Lemma load_items_ok (items : dict pyobj) :
  forall ya val st,
    wf st ->
    (forall n k, In (n, k) ya -> ok st (rank c) k) ->
    exists ya' val' st',
      load_items' c items ya val st = Ok ((ya', val'), st') /\
      wf st' /\
      (forall n k, In (n, k) ya' -> ok st' (rank c) k) /\
      (forall c', rank c <= rank c' -> c' <> c -> st' c' = st c') /\
      (forall k, In k (keys (st' c)) ->
                 In k (keys (st c)) \/ In k (keys items)).
Proof using c rank rec_value rec_value_grows rec_value_ok standard_match.
  induction items as [|[name data] items IH]; intros ya val st Hwf Hya; simpl.
  - exists ya, val, st. split; [reflexivity|]. split; [exact Hwf|].
    split; [exact Hya|]. split; auto.
  - destruct (dict_pop ya name) as [[converter ya1]|] eqn:Ep.
    + apply dict_pop_some in Ep as [Hget ->].
      destruct (rec_value_ok converter data st Hwf) as (x & st1 & Hx & Hwf1 & F1).
      { apply (Hya name). now apply dict_get_in. }
      pose proof (rec_value_grows _ _ _ _ _ Hx) as G1.
      destruct (IH (dict_del ya name) (dict_set val name x) st1 Hwf1)
        as (ya' & val' & st' & Hl & Hwf' & Hya' & F' & K').
      { intros n k Hin. apply (conv_ok_grows _ _ _ _ G1).
        apply (Hya n). now apply in_dict_del in Hin. }
      exists ya', val', st'. unfold bind. rewrite Hx.
      split; [exact Hl|]. split; [exact Hwf'|]. split; [exact Hya'|]. split.
      * intros c' Hr Hne. rewrite (F' c' Hr Hne). now apply F1.
      * intros k Hk. apply K' in Hk. rewrite (F1 c) in Hk by lia. by_cases.
    + pose proof (wf_put_leaf st c name (standard_match data) Hwf) as Hwf0.
      pose proof (grows_put_attr st c name (Leaf (standard_match data))) as G0.
      destruct (rec_value_ok (Leaf (standard_match data)) data _ Hwf0 I)
        as (x & st1 & Hx & Hwf1 & F1).
      pose proof (rec_value_grows _ _ _ _ _ Hx) as G1.
      destruct (IH ya (dict_set val name x) st1 Hwf1)
        as (ya' & val' & st' & Hl & Hwf' & Hya' & F' & K').
      { intros n k Hin. apply (conv_ok_grows _ _ _ _ G1).
        apply (conv_ok_grows _ _ _ _ G0). now apply (Hya n). }
      exists ya', val', st'. unfold bind, set_attr. rewrite Hx.
      split; [exact Hl|]. split; [exact Hwf'|]. split; [exact Hya'|]. split.
      * intros c' Hr Hne. rewrite (F' c' Hr Hne), (F1 c' Hr).
        unfold put_attr. apply String.eqb_neq in Hne. now rewrite Hne.
      * intros k Hk. apply K' in Hk. rewrite (F1 c) in Hk by lia.
        unfold put_attr in Hk. rewrite String.eqb_refl in Hk.
        rewrite keys_dict_set_in in Hk. simpl. by_cases.
Qed.

Lemma add_deleted_ok (ya : dict conv) :
  forall val st,
    wf st ->
    (forall n k, In (n, k) ya -> ok st (rank c) k) ->
    exists val' st',
      add_deleted rec_value ya val st = Ok (val', st') /\
      wf st' /\ untouched rank (rank c) st st'.
Proof using c rank rec_value rec_value_grows rec_value_ok.
  induction ya as [|[name converter] ya IH]; intros val st Hwf Hya; simpl.
  - exists val, st. split; [reflexivity|]. split; [exact Hwf|].
    apply untouched_refl.
  - destruct (rec_value_ok converter VNone st Hwf) as (x & st1 & Hx & Hwf1 & F1).
    { apply (Hya name). now left. }
    pose proof (rec_value_grows _ _ _ _ _ Hx) as G1.
    destruct (IH (dict_set val name x) st1 Hwf1) as (val' & st' & Ha & Hwf' & F').
    { intros n k Hin. apply (conv_ok_grows _ _ _ _ G1).
      apply (Hya n). now right. }
    exists val', st'. unfold bind. rewrite Hx.
    split; [exact Ha|]. split; [exact Hwf'|].
    exact (untouched_trans _ _ _ _ F1 F').
Qed.

Lemma dictionary_to_value_ok (obj : pyobj) (st : regs) :
  wf st ->
  exists value st',
    dictionary_to_value standard_match rec_value c obj st = Ok (value, st') /\
    wf st' /\
    (forall c', rank c <= rank c' -> c' <> c -> st' c' = st c') /\
    (forall k, In k (keys (st' c)) ->
               In k (keys (st c)) \/ In k (keys (to_dict obj))).
Proof using c rank rec_value rec_value_grows rec_value_ok standard_match.
  intros Hwf. unfold dictionary_to_value.
  destruct (load_items_ok (to_dict obj) (st c) [] st Hwf)
    as (ya' & val' & st1 & Hl & Hwf1 & Hya' & F1 & K1).
  { intros n k Hin. now apply (proj2 (Hwf c) n). }
  destruct (add_deleted_ok ya' val' st1 Hwf1 Hya') as (value & st' & Ha & Hwf' & F').
  exists value, st'. unfold bind, get_attrs. rewrite Hl. simpl.
  split; [exact Ha|]. split; [exact Hwf'|]. split.
  - intros c' Hr Hne. rewrite (F' c' Hr). now apply F1.
  - intros k Hk. rewrite (F' c) in Hk by lia. auto.
Qed.

Lemma dump_items_ok (size : nat) (value : dict pyobj) :
  forall left i data st,
    wf st -> List.length (st c) = size ->
    exists data' st',
      dump_items rec_data c size value left i data st = Ok (data', st') /\
      wf st' /\ untouched rank (rank c) st st'.
Proof using c rank rec_data rec_data_ok.
  induction left as [|left IH]; intros i data st Hwf Hl; simpl;
    unfold bind, get_attrs; rewrite Hl, Nat.eqb_refl; simpl.
  - exists data, st. split; [reflexivity|]. split; [exact Hwf|].
    apply untouched_refl.
  - destruct (nth_error (st c) i) as [[name converter]|] eqn:En.
    + destruct (rec_data_ok converter (get_or_none value name) st Hwf)
        as (x & st1 & Hx & Hwf1 & F1).
      { apply (proj2 (Hwf c) name). now apply nth_error_In in En. }
      destruct (IH (S i) (dict_set data name x) st1 Hwf1)
        as (data' & st' & Hd & Hwf' & F').
      { rewrite (F1 c); [exact Hl | lia]. }
      exists data', st'. rewrite Hx.
      split; [exact Hd|]. split; [exact Hwf'|].
      exact (untouched_trans _ _ _ _ F1 F').
    + exists data, st. split; [reflexivity|]. split; [exact Hwf|].
      apply untouched_refl.
Qed.

Lemma dictionary_to_data_ok (obj : pyobj) (st : regs) :
  wf st ->
  exists data st',
    dictionary_to_data standard_match rec_value rec_data c obj st
    = Ok (data, st') /\
    wf st' /\
    (forall c', rank c <= rank c' -> c' <> c -> st' c' = st c').
Proof using c rank rec_data rec_data_ok rec_value rec_value_grows rec_value_ok standard_match.
  intros Hwf. unfold dictionary_to_data.
  destruct (dictionary_to_value_ok obj st Hwf) as (value & st1 & Hv & Hwf1 & F1 & _).
  destruct (dump_items_ok (List.length (st1 c)) value (List.length (st1 c)) 0 []
              st1 Hwf1 eq_refl) as (data & st' & Hd & Hwf' & F').
  exists data, st'. unfold bind, get_attrs. rewrite Hv.
  split; [exact Hd|]. split; [exact Hwf'|].
  intros c' Hr Hne. rewrite (F' c' Hr). now apply F1.
Qed.

Lemma convert_items_ok (rec : conv -> pyobj -> M pyobj) (meth : string)
    (items : list pyobj) :
  (forall k obj st,
      wf st -> ok st (rank c) k ->
      exists v st', rec k obj st = Ok (v, st') /\
        wf st' /\ untouched rank (rank c) st st') ->
  forall acc st,
    wf st -> has_key (st c) "all" = true ->
    exists l st',
      convert_items rec meth c items acc st = Ok (l, st') /\
      wf st' /\ untouched rank (rank c) st st'.
Proof.
  intros Hrec. induction items as [|item items IH]; intros acc st Hwf Hall;
    simpl.
  - exists acc, st. split; [reflexivity|]. split; [exact Hwf|].
    apply untouched_refl.
  - unfold bind, call_item, bind, item_type. unfold has_key in Hall.
    destruct (dict_get (st c) "all") as [converter|] eqn:Ei; [|discriminate].
    destruct (Hrec converter item st Hwf) as (x & st1 & Hx & Hwf1 & F1).
    { apply (proj2 (Hwf c) "all"). now apply dict_get_in. }
    destruct (IH (acc ++ [x]) st1 Hwf1) as (l & st' & Hl & Hwf' & F').
    { rewrite (F1 c) by lia. unfold has_key. now rewrite Ei. }
    exists l, st'. rewrite Hx. split; [exact Hl|]. split; [exact Hwf'|].
    exact (untouched_trans _ _ _ _ F1 F').
Qed.

Lemma list_to_value_ok (obj : pyobj) (st : regs) :
  wf st -> has_key (st c) "all" = true ->
  exists l st',
    list_to_value rec_value c obj st = Ok (l, st') /\
    wf st' /\ untouched rank (rank c) st st'.
Proof using c rank rec_value rec_value_ok.
  intros Hwf Hall. unfold list_to_value, bind, item_type.
  pose proof Hall as Hall'. unfold has_key in Hall'.
  destruct (dict_get (st c) "all"); [|discriminate].
  exact (convert_items_ok rec_value _ _ rec_value_ok [] st Hwf Hall).
Qed.

Lemma list_to_data_ok (obj : pyobj) (st : regs) :
  wf st -> has_key (st c) "all" = true ->
  exists l st',
    list_to_data rec_value rec_data c obj st = Ok (l, st') /\
    wf st' /\ untouched rank (rank c) st st'.
Proof using c rank rec_data rec_data_ok rec_value rec_value_ok.
  intros Hwf Hall. unfold list_to_data.
  destruct (list_to_value_ok obj st Hwf Hall) as (value & st1 & Hv & Hwf1 & F1).
  destruct (convert_items_ok rec_data "to_data" value rec_data_ok [] st1 Hwf1)
    as (l & st' & Hl & Hwf' & F').
  { rewrite (F1 c); [exact Hall | lia]. }
  exists l, st'. unfold bind. rewrite Hv.
  split; [exact Hl|]. split; [exact Hwf'|].
  exact (untouched_trans _ _ _ _ F1 F').
Qed.

End RankedCalls.

Lemma untouched_own (c : string) (b : nat) (st st' : regs) :
  rank c < b ->
  (forall c', rank c <= rank c' -> c' <> c -> st' c' = st c') ->
  untouched rank b st st'.
Proof.
  intros Hr F c' Hc'. apply F; [lia|]. intros ->. lia.
Qed.

Lemma untouched_le (b b' : nat) (st st' : regs) :
  b <= b' -> untouched rank b st st' -> untouched rank b' st st'.
Proof. intros Hb F c' Hc'. apply F. lia. Qed.

(** *** The loops of a class, on a valid input *)

Section RunCalls.

Variable standard_match : pyobj -> string.
Variable c : string.
Variable rec_value : conv -> pyobj -> M pyobj.

(** What is known of a value a call has returned, in every later state. *)
Variable known : regs -> conv -> pyobj -> Prop.

Hypothesis rec_value_run : forall k x st,
  wf st -> ok st (rank c) k -> valid_obj x = true ->
  exists v st', rec_value k x st = Ok (v, st') /\
    wf st' /\ untouched rank (rank c) st st' /\ persists st st' /\
    forall s, wf s -> persists st' s -> known s k v.

Local Abbreviation entries_known := (entries_known rank c known).

Lemma entries_known_later (st st' : regs) (value : dict pyobj) :
  persists st st' -> entries_known st value -> entries_known st' value.
Proof using Type.
  intros P H n x Hx. destruct (H n x Hx) as (k & Hk & Hs). exists k.
  split; [now apply P|]. intros s Hw Ps. apply Hs; [exact Hw|].
  exact (persists_trans _ _ _ P Ps).
Qed.

Lemma entries_known_set (st : regs) (value : dict pyobj) (name : string)
    (k : conv) (v : pyobj) :
  dict_get (st c) name = Some k ->
  (forall s, wf s -> persists st s -> known s k v) ->
  entries_known st value -> entries_known st (dict_set value name v).
Proof using Type.
  intros Hk Hv H n x Hx. destruct (string_dec name n) as [<-|Hne].
  - rewrite dict_get_set_same in Hx. injection Hx as <-. eauto.
  - rewrite dict_get_set_other in Hx by exact Hne. eauto.
Qed.

Lemma field_ok (st : regs) (n : string) (k : conv) :
  wf st -> dict_get (st c) n = Some k -> ok st (rank c) k.
Proof using Type.
  intros Hwf H. apply (proj2 (Hwf c) n). now apply dict_get_in.
Qed.

Lemma load_run (items : dict pyobj) :
  forall ya val st,
    wf st -> NoDup (keys items) ->
    (forall n x, In (n, x) items -> valid_obj x = true) ->
    NoDup (keys ya) ->
    (forall n k, dict_get ya n = Some k -> dict_get (st c) n = Some k) ->
    (forall n, In n (keys (st c)) -> In n (keys ya) \/ In n (keys val)) ->
    (forall n, In n (keys val) -> ~ In n (keys items)) ->
    entries_known st val -> NoDup (keys val) ->
    exists ya' val' st',
      load_items standard_match rec_value c items ya val st
      = Ok ((ya', val'), st') /\
      wf st' /\ persists st st' /\
      (forall c', rank c <= rank c' -> c' <> c -> st' c' = st c') /\
      NoDup (keys ya') /\
      (forall n k, dict_get ya' n = Some k -> dict_get (st' c) n = Some k) /\
      (forall n, In n (keys (st' c)) -> In n (keys ya') \/ In n (keys val')) /\
      entries_known st' val' /\ NoDup (keys val').
Proof using rec_value_run.
  induction items as [|[name x] items IH];
    intros ya val st Hwf Hni Hvalid Hny I1 I2 I3 I4 Hnv; simpl.
  - exists ya, val, st. split; [reflexivity|]. split; [exact Hwf|].
    split; [apply persists_refl|]. split; [reflexivity|]. auto.
  - simpl in Hni. inversion Hni as [|? ? Hname Hni']; subst.
    destruct (dict_pop ya name) as [[k ya1]|] eqn:Ep.
    + apply dict_pop_some in Ep as [Hget ->].
      pose proof (I1 _ _ Hget) as Hk.
      destruct (rec_value_run k x st Hwf (field_ok _ _ _ Hwf Hk))
        as (v & st1 & Hx & Hwf1 & F1 & P1 & K1).
      { apply (Hvalid name). now left. }
      assert (st1 c = st c) as Hc by (apply F1; lia).
      destruct (IH (dict_del ya name) (dict_set val name v) st1 Hwf1 Hni')
        as (ya' & val' & st' & Hl & Hwf' & P' & F' & Hny' & I1' & I2' & I4' & Hnv').
      * intros n y Hy. apply (Hvalid n). now right.
      * now apply keys_dict_del_nodup.
      * intros n k' Hn. apply P1, I1. exact (dict_get_del_some _ _ _ _ Hny Hn).
      * intros n Hn. rewrite Hc in Hn. rewrite keys_dict_set_in.
        destruct (I2 n Hn) as [Hy|Hv]; [|auto].
        destruct (keys_dict_del_other _ name _ Hy); auto.
      * intros n Hn. apply keys_dict_set_in in Hn as [->|Hn]; [exact Hname|].
        intros Hi. apply (I3 n Hn). now right.
      * apply (entries_known_set st1 _ name k v); [now apply P1 | exact K1|].
        exact (entries_known_later _ _ _ P1 I4).
      * now apply keys_dict_set_nodup.
      * exists ya', val', st'. unfold bind. rewrite Hx.
        split; [exact Hl|]. split; [exact Hwf'|].
        split; [exact (persists_trans _ _ _ P1 P')|]. split; [|auto].
        intros c' Hr Hne. rewrite (F' c' Hr Hne). now apply F1.
    + apply dict_pop_none in Ep.
      assert (~ In name (keys (st c))) as Hnew.
      { intros Hn. destruct (I2 name Hn) as [Hy|Hv]; [now apply Ep|].
        apply (I3 name Hv). now left. }
      set (k := Leaf (standard_match x)).
      pose proof (wf_put_leaf st c name (standard_match x) Hwf) as Hwf0.
      pose proof (persists_put_new st c name k Hnew) as P0.
      destruct (rec_value_run k x _ Hwf0 I) as (v & st1 & Hx & Hwf1 & F1 & P1 & K1).
      { apply (Hvalid name). now left. }
      assert (st1 c = dict_set (st c) name k) as Hc.
      { rewrite (F1 c) by lia. unfold put_attr. now rewrite String.eqb_refl. }
      destruct (IH ya (dict_set val name v) st1 Hwf1 Hni')
        as (ya' & val' & st' & Hl & Hwf' & P' & F' & Hny' & I1' & I2' & I4' & Hnv').
      * intros n y Hy. apply (Hvalid n). now right.
      * exact Hny.
      * intros n k' Hn. apply P1, P0, I1, Hn.
      * intros n Hn. rewrite Hc in Hn. rewrite keys_dict_set_in.
        apply keys_dict_set_in in Hn as [->|Hn]; [auto|].
        destruct (I2 n Hn); auto.
      * intros n Hn. apply keys_dict_set_in in Hn as [->|Hn]; [exact Hname|].
        intros Hi. apply (I3 n Hn). now right.
      * apply (entries_known_set st1 _ name k v); [|exact K1|].
        -- rewrite Hc. apply dict_get_set_same.
        -- exact (entries_known_later _ _ _ (persists_trans _ _ _ P0 P1) I4).
      * now apply keys_dict_set_nodup.
      * exists ya', val', st'. subst k. unfold bind, set_attr. rewrite Hx.
        split; [exact Hl|]. split; [exact Hwf'|].
        split; [exact (persists_trans _ _ _ (persists_trans _ _ _ P0 P1) P')|].
        split; [|auto].
        intros c' Hr Hne. rewrite (F' c' Hr Hne), (F1 c' Hr).
        unfold put_attr. apply String.eqb_neq in Hne. now rewrite Hne.
Qed.

Lemma add_deleted_run (ya : dict conv) :
  forall val st,
    wf st ->
    (forall n k, In (n, k) ya -> dict_get (st c) n = Some k) ->
    entries_known st val -> NoDup (keys val) ->
    exists val' st',
      add_deleted rec_value ya val st = Ok (val', st') /\
      wf st' /\ persists st st' /\ untouched rank (rank c) st st' /\
      entries_known st' val' /\ NoDup (keys val') /\
      (forall n, In n (keys val) \/ In n (keys ya) -> In n (keys val')).
Proof using rec_value_run.
  induction ya as [|[name k] ya IH]; intros val st Hwf I1 I4 Hnv; simpl.
  - exists val, st. split; [reflexivity|]. split; [exact Hwf|].
    split; [apply persists_refl|]. split; [apply untouched_refl|].
    split; [exact I4|]. split; [exact Hnv|]. intros n [H|[]]. exact H.
  - pose proof (I1 name k (or_introl eq_refl)) as Hk.
    destruct (rec_value_run k VNone st Hwf (field_ok _ _ _ Hwf Hk) eq_refl)
      as (v & st1 & Hx & Hwf1 & F1 & P1 & K1).
    destruct (IH (dict_set val name v) st1 Hwf1)
      as (val' & st' & Ha & Hwf' & P' & F' & I4' & Hnv' & Hk').
    + intros n k' Hn. apply P1, I1. now right.
    + apply (entries_known_set st1 _ name k v); [now apply P1 | exact K1|].
      exact (entries_known_later _ _ _ P1 I4).
    + now apply keys_dict_set_nodup.
    + exists val', st'. unfold bind. rewrite Hx.
      split; [exact Ha|]. split; [exact Hwf'|].
      split; [exact (persists_trans _ _ _ P1 P')|].
      split; [exact (untouched_trans _ _ _ _ F1 F')|].
      split; [exact I4'|]. split; [exact Hnv'|].
      intros n Hn. apply Hk'. rewrite keys_dict_set_in. simpl in Hn.
      destruct Hn as [Hn|[Hn|Hn]]; auto.
Qed.

(** Dictionary.to_value on a valid input: the dict has every field the
    class has afterwards, and each of its entries is known. *)
Lemma dictionary_run (obj : pyobj) (st : regs) :
  wf st -> valid_obj obj = true ->
  exists value st',
    dictionary_to_value standard_match rec_value c obj st = Ok (value, st') /\
    wf st' /\ persists st st' /\
    (forall c', rank c <= rank c' -> c' <> c -> st' c' = st c') /\
    NoDup (keys value) /\
    (forall n, In n (keys (st' c)) -> In n (keys value)) /\
    (forall n x, In (n, x) value ->
       exists k, dict_get (st' c) n = Some k /\
         forall s, wf s -> persists st' s -> known s k x).
Proof using rec_value_run.
  intros Hwf Hvalid. destruct (to_dict_valid obj Hvalid) as [Hni Hv].
  destruct (load_run (to_dict obj) (st c) [] st Hwf Hni Hv (proj1 (Hwf c)))
    as (ya' & val' & st1 & Hl & Hwf1 & P1 & F1 & Hny' & I1' & I2' & I4' & Hnv').
  { auto. } { auto. } { intros n []. } { intros n x Hx. discriminate Hx. }
  { constructor. }
  destruct (add_deleted_run ya' val' st1 Hwf1)
    as (value & st' & Ha & Hwf' & P' & F' & I4 & Hnv & Hk); auto.
  { intros n k Hn. apply I1'. now apply in_dict_get. }
  exists value, st'. unfold dictionary_to_value, bind, get_attrs. rewrite Hl.
  split; [exact Ha|]. split; [exact Hwf'|].
  split; [exact (persists_trans _ _ _ P1 P')|]. split; [|split; [exact Hnv|]].
  - intros c' Hr Hne. rewrite (F' c' Hr). now apply F1.
  - split.
    + intros n Hn. rewrite (F' c) in Hn by lia. apply Hk.
      destruct (I2' n Hn); auto.
    + intros n x Hx. apply I4. now apply in_dict_get.
Qed.

(** List.to_value on a valid input: each item is known. *)
Lemma convert_run (meth : string) (k : conv) (items : list pyobj) :
  forall acc st,
    wf st -> dict_get (st c) "all" = Some k ->
    (forall x, In x items -> valid_obj x = true) ->
    (forall y, In y acc -> forall s, wf s -> persists st s -> known s k y) ->
    exists l st',
      convert_items rec_value meth c items acc st = Ok (l, st') /\
      wf st' /\ persists st st' /\ untouched rank (rank c) st st' /\
      forall y, In y l -> forall s, wf s -> persists st' s -> known s k y.
Proof using rec_value_run.
  induction items as [|x items IH]; intros acc st Hwf Hk Hvalid Hacc; simpl.
  - exists acc, st. split; [reflexivity|]. split; [exact Hwf|].
    split; [apply persists_refl|]. split; [apply untouched_refl | exact Hacc].
  - destruct (rec_value_run k x st Hwf (field_ok _ _ _ Hwf Hk))
      as (v & st1 & Hx & Hwf1 & F1 & P1 & K1).
    { apply Hvalid. now left. }
    destruct (IH (acc ++ [v]) st1 Hwf1) as (l & st' & Hl & Hwf' & P' & F' & K').
    + now apply P1.
    + intros y Hy. apply Hvalid. now right.
    + intros y Hy s Hw Ps. apply in_app_or in Hy as [Hy|[<-|[]]].
      * apply (Hacc y Hy s Hw). exact (persists_trans _ _ _ P1 Ps).
      * now apply K1.
    + exists l, st'. unfold bind, call_item, bind, item_type. rewrite Hk, Hx.
      split; [exact Hl|]. split; [exact Hwf'|].
      split; [exact (persists_trans _ _ _ P1 P')|].
      split; [exact (untouched_trans _ _ _ _ F1 F') | exact K'].
Qed.

Lemma list_run (k : conv) (obj : pyobj) (st : regs) :
  wf st -> dict_get (st c) "all" = Some k -> valid_obj obj = true ->
  exists l st',
    list_to_value rec_value c obj st = Ok (l, st') /\
    wf st' /\ persists st st' /\ untouched rank (rank c) st st' /\
    forall y, In y l -> forall s, wf s -> persists st' s -> known s k y.
Proof using rec_value_run.
  intros Hwf Hk Hvalid. unfold list_to_value, bind, item_type. rewrite Hk.
  apply (convert_run "to_value" k (to_list obj) [] st Hwf Hk).
  - exact (to_list_valid obj Hvalid).
  - intros y [].
Qed.

End RunCalls.

End Ranked.

(** ** The fields the loop of Dictionary.to_data reads *)

Section EmitCalls.

Variable rec_data : conv -> pyobj -> M pyobj.

Hypothesis rec_data_grows : forall k obj st v st',
  rec_data k obj st = Ok (v, st') -> grows st st'.

(** Each field is given what its converter, as the class has it when the
    loop reaches the field, makes of the field's value: the state the loop
    is in when it reaches position [j] is the one it ends in when it is run
    for the fields before [j] only. *)
Lemma dump_items_each (c : string) (size : nat) (value : dict pyobj) :
  forall left i data st data' st',
    i + left = size -> NoDup (keys (st' c)) ->
    keys data = firstn i (keys (st c)) ->
    dump_items rec_data c size value left i data st = Ok (data', st') ->
    (forall name, In name (keys data) ->
       dict_get data' name = dict_get data name) /\
    (forall j name, i <= j -> nth_error (keys (st' c)) j = Some name ->
       exists k dm sm s2 x,
         dump_items rec_data c size value (j - i) i data st = Ok (dm, sm) /\
         nth_error (sm c) j = Some (name, k) /\
         rec_data k (get_or_none value name) sm = Ok (x, s2) /\
         dict_get data' name = Some x).
Proof using rec_data_grows.
  induction left as [|left IH]; intros i data st data' st' Hi Hnd Hdata H.
  - simpl in H. apply bind_ok in H as (attrs & st0 & Hg & H).
    injection Hg as <- <-.
    destruct (Nat.eqb (List.length (st c)) size) eqn:El; simpl in H;
      [|discriminate].
    apply Nat.eqb_eq in El. apply ret_ok in H as [<- <-].
    split; [reflexivity|]. intros j name Hj Hn.
    assert (j < List.length (keys (st c))) as Hlt
        by (apply nth_error_Some; congruence).
    unfold keys in Hlt. rewrite length_map in Hlt. lia.
  - pose proof (dump_items_keys rec_data rec_data_grows c size value (S left)
                  i data st data' st' Hi H) as (G & Hl' & _).
    simpl in H. apply bind_ok in H as (attrs & st0 & Hg & H).
    injection Hg as <- <-.
    destruct (Nat.eqb (List.length (st c)) size) eqn:Eb; simpl in H;
      [|discriminate].
    pose proof (proj1 (Nat.eqb_eq _ _) Eb) as El.
    destruct (nth_error (st c) i) as [[name k]|] eqn:En;
      [|apply nth_error_None in En; lia].
    apply bind_ok in H as (x & st1 & Hx & H).
    pose proof (rec_data_grows _ _ _ _ _ Hx) as G1.
    pose proof (dump_items_keys rec_data rec_data_grows c size value left
                  (S i) _ st1 data' st' ltac:(lia) H) as (G2 & _ & _).
    assert (keys (st' c) = keys (st c)) as E'
        by (apply grows_same_length; [exact G | lia]).
    assert (keys (st1 c) = keys (st c)) as E1.
    { apply grows_same_length; [exact G1|].
      pose proof (grows_length _ _ c G1). pose proof (grows_length _ _ c G2).
      lia. }
    assert (nth_error (keys (st c)) i = Some name) as Hname
        by (unfold keys; now rewrite nth_error_map, En).
    assert (NoDup (keys (st c))) as Hns by now rewrite <- E'.
    assert (~ In name (keys data)) as Hnew.
    { rewrite Hdata. now apply nodup_nth_not_before. }
    destruct (IH (S i) (dict_set data name x) st1 data' st' ltac:(lia) Hnd)
      as [Hkeep Heach]; [|exact H|].
    { rewrite E1, (firstn_succ_nth _ _ _ Hname), <- Hdata.
      now apply keys_dict_set_new. }
    split.
    + intros n Hn. rewrite Hkeep by (apply keys_dict_set_in; now right).
      apply dict_get_set_other. intros ->. contradiction.
    + intros j n Hj Hn. destruct (Nat.eq_dec j i) as [->|Hne].
      * rewrite E', Hname in Hn. injection Hn as <-.
        exists k, data, st, st1, x. rewrite Nat.sub_diag.
        split; [simpl; unfold bind, get_attrs; now rewrite Eb|].
        split; [exact En|]. split; [exact Hx|].
        rewrite Hkeep by (apply keys_dict_set_in; now left).
        apply dict_get_set_same.
      * destruct (Heach j n ltac:(lia) Hn)
          as (k' & dm & sm & s2 & y & Hrun & Hnth & Hy & Hget).
        exists k', dm, sm, s2, y. split; [|auto].
        replace (j - i) with (S (j - S i)) by lia.
        simpl. unfold bind, get_attrs. rewrite Eb. simpl. rewrite En.
        now rewrite Hx.
Qed.

End EmitCalls.

Section Containers.

Variable leaf_to_value : string -> pyobj -> pyobj.
Variable leaf_to_data : string -> pyobj -> pyobj.
Variable standard_match : pyobj -> string.

Local Abbreviation to_value' := (to_value leaf_to_value standard_match).
Local Abbreviation to_data' :=
  (to_data leaf_to_value leaf_to_data standard_match).

(** ** The converters only add fields *)

Lemma to_value_grows (fuel : nat) :
  forall cls obj st v st',
    to_value' fuel cls obj st = Ok (v, st') -> grows st st'.
Proof.
  induction fuel as [|fuel IH]; intros cls obj st v st' H;
    destruct cls; simpl in H; try discriminate;
    try (apply ret_ok in H as [_ ->]; apply grows_refl).
  - apply bind_ok in H as (d & st1 & Hd & H). apply ret_ok in H as [_ ->].
    exact (dictionary_to_value_grows _ _ IH _ _ _ _ _ Hd).
  - apply bind_ok in H as (l & st1 & Hl & H). apply ret_ok in H as [_ ->].
    exact (list_to_value_grows _ IH _ _ _ _ _ Hl).
Qed.

Lemma to_data_grows (fuel : nat) :
  forall cls obj st v st',
    to_data' fuel cls obj st = Ok (v, st') -> grows st st'.
Proof.
  induction fuel as [|fuel IH]; intros cls obj st v st' H;
    destruct cls; simpl in H; try discriminate;
    try (apply ret_ok in H as [_ ->]; apply grows_refl).
  - apply bind_ok in H as (d & st1 & Hd & H). apply ret_ok in H as [_ ->].
    exact (proj1 (dictionary_to_data_keys _ _ _ (to_value_grows fuel) IH
                    _ _ _ _ _ Hd)).
  - apply bind_ok in H as (l & st1 & Hl & H). apply ret_ok in H as [_ ->].
    exact (list_to_data_grows _ _ (to_value_grows fuel) IH _ _ _ _ _ Hl).
Qed.

(** ** With fuel for the ranks, the converters return *)

Section RankedContainers.

Variable rank : string -> nat.

Local Abbreviation wf := (wf_schema rank).
Local Abbreviation ok := (conv_ok rank).

Lemma to_value_ok (fuel : nat) :
  forall cls obj st b,
    b <= fuel -> wf st -> ok st b cls ->
    exists v st',
      to_value' fuel cls obj st = Ok (v, st') /\
      wf st' /\ untouched rank b st st'.
Proof.
  induction fuel as [|fuel IH]; intros cls obj st b Hb Hwf Hok;
    destruct cls as [k|c|c| |]; simpl in Hok; try contradiction;
    try (exists (leaf_to_value k obj), st; split; [reflexivity|];
         split; [exact Hwf | apply untouched_refl]);
    try lia.
  - destruct (dictionary_to_value_ok rank standard_match c (to_value' fuel)
                (to_value_grows fuel)
                (fun k o s Hw Ho => IH k o s (rank c) ltac:(lia) Hw Ho)
                obj st Hwf) as (value & st' & Hv & Hwf' & F & _).
    exists (VDict value), st'. simpl. unfold bind. rewrite Hv.
    split; [reflexivity|]. split; [exact Hwf'|].
    exact (untouched_own rank c b _ _ Hok F).
  - destruct Hok as [Hr Hall].
    destruct (list_to_value_ok rank c (to_value' fuel)
                (fun k o s Hw Ho => IH k o s (rank c) ltac:(lia) Hw Ho)
                obj st Hwf Hall) as (l & st' & Hl & Hwf' & F).
    exists (VList l), st'. simpl. unfold bind. rewrite Hl.
    split; [reflexivity|]. split; [exact Hwf'|].
    apply (untouched_le rank (rank c)); [lia | exact F].
Qed.

Lemma to_data_ok (fuel : nat) :
  forall cls obj st b,
    b <= fuel -> wf st -> ok st b cls ->
    exists v st',
      to_data' fuel cls obj st = Ok (v, st') /\
      wf st' /\ untouched rank b st st'.
Proof.
  induction fuel as [|fuel IH]; intros cls obj st b Hb Hwf Hok;
    destruct cls as [k|c|c| |]; simpl in Hok; try contradiction;
    try (exists (leaf_to_data k obj), st; split; [reflexivity|];
         split; [exact Hwf | apply untouched_refl]);
    try lia.
  - destruct (dictionary_to_data_ok rank standard_match c (to_value' fuel)
                (to_data' fuel)
                (to_value_grows fuel)
                (fun k o s Hw Ho =>
                   to_value_ok fuel k o s (rank c) ltac:(lia) Hw Ho)
                (fun k o s Hw Ho => IH k o s (rank c) ltac:(lia) Hw Ho)
                obj st Hwf) as (data & st' & Hd & Hwf' & F).
    exists (VDict data), st'. simpl. unfold bind. rewrite Hd.
    split; [reflexivity|]. split; [exact Hwf'|].
    exact (untouched_own rank c b _ _ Hok F).
  - destruct Hok as [Hr Hall].
    destruct (list_to_data_ok rank c (to_value' fuel) (to_data' fuel)
                (fun k o s Hw Ho =>
                   to_value_ok fuel k o s (rank c) ltac:(lia) Hw Ho)
                (fun k o s Hw Ho => IH k o s (rank c) ltac:(lia) Hw Ho)
                obj st Hwf Hall) as (l & st' & Hl & Hwf' & F).
    exists (VList l), st'. simpl. unfold bind. rewrite Hl.
    split; [reflexivity|]. split; [exact Hwf'|].
    apply (untouched_le rank (rank c)); [lia | exact F].
Qed.

(** ** C2, C3 and C10: the keys of what Dictionary returns *)



(** C10, as amended: the dict that [to_value] of a subclass of Dictionary
    returns has every key of the input and every key the class had in
    [yorm_attrs] when the call began.  When the classes are ranked and the
    fuel exceeds the rank of the class, [to_value] and [to_data] return, the
    class has the same fields after [to_data] as after the [to_value] inside
    it, and for every field of the class the dict of [to_value] has a value,
    so that [value.get(name, None)] in [to_data] finds it: what [to_data]
    gives the field is what [to_data] of the field's converter makes of
    that value, not of None, in the state [s1] the loop is in when it
    reaches the field (the one it ends in when run for the fields before it
    only), in which the class has the fields it has in the end. *)
Theorem dictionary_to_value_has_fields (c : string) (obj : pyobj)
    (st : regs) :
  (forall fuel v st',
      to_value' fuel (DictSub c) obj st = Ok (v, st') ->
      exists value, v = VDict value /\
        forall name,
          In name (keys (to_dict obj)) \/ In name (keys (st c)) ->
          exists x, dict_get value name = Some x /\
                    get_or_none value name = x) /\
  (forall fuel, wf st -> rank c < fuel ->
      exists value st',
        to_value' fuel (DictSub c) obj st = Ok (VDict value, st') /\
        forall name, In name (keys (st' c)) ->
          exists x, dict_get value name = Some x /\
                    get_or_none value name = x) /\
  (forall fuel, wf st -> rank c < fuel ->
      exists value st1 data st',
        to_value' fuel (DictSub c) obj st = Ok (VDict value, st1) /\
        to_data' fuel (DictSub c) obj st = Ok (VDict data, st') /\
        st' c = st1 c /\
        forall name k, dict_get (st' c) name = Some k ->
          exists j dj x s1 s2 y,
            nth_error (st' c) j = Some (name, k) /\
            dump_items (to_data' (pred fuel)) c (List.length (st1 c)) value
              j 0 [] st1 = Ok (dj, s1) /\
            s1 c = st' c /\
            dict_get value name = Some x /\
            get_or_none value name = x /\
            to_data' (pred fuel) k x s1 = Ok (y, s2) /\
            dict_get data name = Some y).
Proof.
  split; [|split].
  - intros [|fuel] v st' H; simpl in H; [discriminate|].
    apply bind_ok in H as (value & st1 & Hv & H).
    apply ret_ok in H as [<- <-]. exists value. split; [reflexivity|].
    intros name Hname.
    apply (dictionary_to_value_keys _ _ _ _ _ _ _ Hv) in Hname.
    apply in_keys_dict_get in Hname as [x Hx]. exists x.
    split; [exact Hx|]. unfold get_or_none. now rewrite Hx.
  - intros [|fuel] Hwf Hr; [lia|].
    destruct (dictionary_to_value_ok rank standard_match c (to_value' fuel)
                (to_value_grows fuel)
                (fun k o s Hw Ho =>
                   to_value_ok fuel k o s (rank c) ltac:(lia) Hw Ho)
                obj st Hwf) as (value & st' & Hv & _ & _ & K).
    exists value, st'. simpl. unfold bind. rewrite Hv.
    split; [reflexivity|]. intros name Hname.
    assert (In name (keys value)) as Hin.
    { apply (dictionary_to_value_keys _ _ _ _ _ _ _ Hv).
      apply K in Hname. by_cases. }
    apply in_keys_dict_get in Hin as [x Hx]. exists x.
    split; [exact Hx|]. unfold get_or_none. now rewrite Hx.
  - intros [|fuel] Hwf Hr; [lia|].
    pose proof (fun k o s Hw Ho =>
                  to_data_ok fuel k o s (rank c) ltac:(lia) Hw Ho) as Hrec.
    destruct (dictionary_to_value_ok rank standard_match c (to_value' fuel)
                (to_value_grows fuel)
                (fun k o s Hw Ho =>
                   to_value_ok fuel k o s (rank c) ltac:(lia) Hw Ho)
                obj st Hwf) as (value & st1 & Hv & Hwf1 & _ & K).
    destruct (dump_items_ok rank c (to_data' fuel) Hrec
                (List.length (st1 c)) value (List.length (st1 c)) 0 [] st1
                Hwf1 eq_refl) as (data & st' & Hd & Hwf' & F').
    assert (st' c = st1 c) as Ec by (apply F'; lia).
    exists value, st1, data, st'.
    split; [simpl; unfold bind; now rewrite Hv|].
    split.
    { simpl. unfold bind, dictionary_to_data, bind, get_attrs.
      rewrite Hv. now rewrite Hd. }
    split; [exact Ec|]. intros name k Hk.
    assert (In name (keys (st' c))) as Hin
        by exact (dict_get_in_keys _ _ _ Hk).
    assert (In name (keys value)) as Hval.
    { apply (dictionary_to_value_keys _ _ _ _ _ _ _ Hv).
      rewrite Ec in Hin. apply K in Hin. by_cases. }
    apply in_keys_dict_get in Hval as [x Hx].
    apply In_nth_error in Hin as [j Hj].
    destruct (dump_items_each (to_data' fuel) (to_data_grows fuel) c
                (List.length (st1 c)) value (List.length (st1 c)) 0 [] st1
                data st' (Nat.add_0_l _) (proj1 (Hwf' c)) eq_refl Hd)
      as [_ Heach].
    destruct (Heach j name (Nat.le_0_l _) Hj)
      as (k' & dm & sm & s2 & y & Hrun & Hnth & Hy & Hget).
    rewrite Nat.sub_0_r in Hrun.
    destruct (dump_items_ok rank c (to_data' fuel) Hrec
                (List.length (st1 c)) value j 0 [] st1 Hwf1 eq_refl)
      as (dm' & sm' & Hrun' & _ & Fm).
    rewrite Hrun in Hrun'. injection Hrun' as _ <-.
    assert (sm c = st' c) as Em by (rewrite Ec; apply Fm; lia).
    assert (k' = k) as ->.
    { apply nth_error_In in Hnth. rewrite Em in Hnth.
      apply (in_dict_get _ _ _ (proj1 (Hwf' c))) in Hnth.
      rewrite Hk in Hnth. now injection Hnth. }
    exists j, dm, x, sm, s2, y. unfold get_or_none in *. rewrite Hx in *.
    rewrite Em in Hnth. simpl. auto 10.
Qed.

(** ** C1: emitting a converted value *)

Section Idempotent.

(** The scalar converters convert their own results to themselves. *)
Hypothesis to_value_idempotent : forall k x,
  leaf_to_value k (leaf_to_value k x) = leaf_to_value k x.

Lemma to_value_leaf (fuel : nat) (k : string) (x : pyobj) (s : regs) :
  to_value' fuel (Leaf k) x s = Ok (leaf_to_value k x, s).
Proof using Type. destruct fuel; reflexivity. Qed.

Lemma to_data_leaf (fuel : nat) (k : string) (x : pyobj) (s : regs) :
  to_data' fuel (Leaf k) x s = Ok (leaf_to_data k x, s).
Proof using Type. destruct fuel; reflexivity. Qed.

(** What a converter makes of None, it converts to itself. *)
Lemma none_stable (fuel : nat) :
  forall k s b,
    b <= fuel -> wf s -> ok s b k ->
    exists u,
      to_value' fuel k VNone s = Ok (u, s) /\
      stable (to_value' fuel) (to_data' fuel) s k u.
Proof using to_value_idempotent.
  induction fuel as [|fuel IH]; intros k s b Hb Hwf Hok;
    destruct k as [k|c|c| |]; simpl in Hok; try contradiction;
    try (exists (leaf_to_value k VNone);
         split; [apply to_value_leaf|];
         split; [now rewrite to_value_leaf, to_value_idempotent|];
         eexists; apply to_data_leaf);
    try lia; try (destruct Hok; lia).
  - destruct (dict_settled standard_match (to_value' fuel) (to_data' fuel)
                s c [] (proj1 (Hwf c)) (NoDup_nil _))
      as (w & data & H1 & H2 & H3 & H4 & _).
    { intros n x []. }
    { intros [n k] He. simpl.
      destruct (IH k s (rank c) ltac:(lia) Hwf (proj2 (Hwf c) n k He))
        as (u & Hu & Hst).
      rewrite (run_of_ok _ _ _ _ _ _ Hu). auto. }
    exists (VDict w). split; [|split].
    + simpl. unfold bind.
      change (dictionary_to_value standard_match (to_value' fuel) c VNone s)
        with (dictionary_to_value standard_match (to_value' fuel) c
                (VDict []) s).
      now rewrite H1.
    + simpl. unfold bind. now rewrite H2.
    + exists (VDict data). simpl. unfold bind. now rewrite H4.
  - destruct Hok as [Hr Hall]. unfold has_key in Hall.
    destruct (dict_get (s c) "all") as [k|] eqn:Ek; [|discriminate].
    exists (VList []). split; [|split; [|exists (VList [])]]; simpl;
      unfold bind, list_to_data, bind, list_to_value, bind, item_type;
      rewrite Ek; reflexivity.
Qed.

(** On a valid input, [to_value] returns a value that is settled in every
    later state. *)
Lemma to_value_settles (fuel : nat) :
  forall k x st b,
    b <= fuel -> wf st -> ok st b k -> valid_obj x = true ->
    exists v st',
      to_value' fuel k x st = Ok (v, st') /\
      wf st' /\ untouched rank b st st' /\ persists st st' /\
      forall s, wf s -> persists st' s ->
        settled (to_value' fuel) (to_data' fuel) s k v.
Proof using to_value_idempotent.
  induction fuel as [|fuel IH]; intros k x st b Hb Hwf Hok Hvalid;
    destruct k as [k|c|c| |]; simpl in Hok; try contradiction;
    try (exists (leaf_to_value k x), st;
         split; [apply to_value_leaf|]; split; [exact Hwf|];
         split; [apply untouched_refl|]; split; [apply persists_refl|];
         intros s _ _; unfold settled, run_of;
         rewrite !to_value_leaf, !to_data_leaf, !to_value_idempotent;
         auto);
    try lia; try (destruct Hok; lia).
  - destruct (dictionary_run rank standard_match c (to_value' fuel)
                (settled (to_value' fuel) (to_data' fuel))
                (fun k x st Hw Ho Hv => IH k x st (rank c) ltac:(lia) Hw Ho Hv)
                x st Hwf Hvalid)
      as (value & st' & Hv & Hwf' & P & F & Hnv & Hfull & Hent).
    exists (VDict value), st'.
    split; [simpl; unfold bind; now rewrite Hv|]. split; [exact Hwf'|].
    split; [exact (untouched_own rank c b _ _ Hok F)|]. split; [exact P|].
    intros s Hws Ps.
    destruct (dict_settled standard_match (to_value' fuel) (to_data' fuel)
                s c value (proj1 (Hws c)) Hnv)
      as (w & data & H1 & H2 & H3 & H4 & _).
    { intros n y Hy. destruct (Hent n y Hy) as (k & Hk & Hs). exists k.
      split; [now apply Ps | now apply Hs]. }
    { intros [n k] He. simpl.
      destruct (none_stable fuel k s (rank c) ltac:(lia) Hws
                  (proj2 (Hws c) n k He)) as (u & Hu & Hst).
      rewrite (run_of_ok _ _ _ _ _ _ Hu). auto. }
    assert (to_value' (S fuel) (DictSub c) (VDict value) s
            = Ok (VDict w, s)) as E1
        by (simpl; unfold bind; now rewrite H1).
    assert (to_value' (S fuel) (DictSub c) (VDict w) s = Ok (VDict w, s))
      as E2 by (simpl; unfold bind; now rewrite H2).
    assert (to_data' (S fuel) (DictSub c) (VDict value) s
            = Ok (VDict data, s)) as E3
        by (simpl; unfold bind; now rewrite H3).
    assert (to_data' (S fuel) (DictSub c) (VDict w) s = Ok (VDict data, s))
      as E4 by (simpl; unfold bind; now rewrite H4).
    unfold settled.
    rewrite (run_of_ok _ _ _ _ _ _ E1), (run_of_ok _ _ _ _ _ _ E3). auto.
  - destruct Hok as [Hr Hall]. unfold has_key in Hall.
    destruct (dict_get (st c) "all") as [k|] eqn:Ek; [|discriminate].
    destruct (list_run rank c (to_value' fuel)
                (settled (to_value' fuel) (to_data' fuel))
                (fun k x st Hw Ho Hv => IH k x st (rank c) ltac:(lia) Hw Ho Hv)
                k x st Hwf Ek Hvalid)
      as (l & st' & Hl & Hwf' & P & F & Hent).
    exists (VList l), st'.
    split; [simpl; unfold bind; now rewrite Hl|]. split; [exact Hwf'|].
    split; [apply (untouched_le rank (rank c)); [lia | exact F]|].
    split; [exact P|]. intros s Hws Ps.
    destruct (list_settled (to_value' fuel) (to_data' fuel) s c k l
                (Ps _ _ _ (P _ _ _ Ek)) (fun y Hy => Hent y Hy s Hws Ps))
      as (H1 & H2 & H3 & H4 & _).
    assert (to_value' (S fuel) (ListSub c) (VList l) s
            = Ok (VList (map (run_of (to_value' fuel) s k) l), s)) as E1
        by (simpl; unfold bind; now rewrite H1).
    assert (to_data' (S fuel) (ListSub c) (VList l) s
            = Ok (VList (map (run_of (to_data' fuel) s k) l), s)) as E3
        by (simpl; unfold bind; now rewrite H3).
    unfold settled.
    rewrite (run_of_ok _ _ _ _ _ _ E1), (run_of_ok _ _ _ _ _ _ E3).
    split; [exact E1|]. split; [simpl; unfold bind; now rewrite H2|].
    split; [exact E3|]. simpl. unfold bind. now rewrite H4.
Qed.


End Idempotent.

End RankedContainers.

End Containers.

(** * Further properties *)

(** ** More on lists and dicts *)

Lemma filter_twice {A} (f g : A -> bool) (l : list A) :
  filter f (filter g l) = filter (fun x => g x && f x) l.
Proof.
  induction l as [|a l IH]; simpl; [reflexivity|].
  destruct (g a); simpl; [destruct (f a)|]; now rewrite IH.
Qed.

Lemma filter_all {A} (f : A -> bool) (l : list A) :
  (forall x, In x l -> f x = true) -> filter f l = l.
Proof.
  induction l as [|a l IH]; simpl; intros H; [reflexivity|].
  rewrite (H a (or_introl eq_refl)), IH; auto.
Qed.

Lemma keys_dict_del_filter {A} (d : dict A) (n : string) :
  NoDup (keys d) ->
  keys (dict_del d n) = filter (fun m => negb (String.eqb m n)) (keys d).
Proof.
  induction d as [|[k v] d IH]; simpl; intros Hnd; [reflexivity|].
  inversion Hnd as [|? ? Hk Hd]; subst.
  destruct (String.eqb n k) eqn:E.
  - apply String.eqb_eq in E. subst k. rewrite String.eqb_refl. simpl.
    symmetry. apply filter_all. intros m Hm.
    apply negb_true_iff, String.eqb_neq. intros ->. contradiction.
  - rewrite String.eqb_sym, E. simpl. now rewrite IH.
Qed.

Lemma has_key_existsb {A} (d : dict A) (n : string) :
  has_key d n = existsb (String.eqb n) (keys d).
Proof.
  unfold has_key. induction d as [|[k v] d IH]; simpl; [reflexivity|].
  destruct (String.eqb n k); [reflexivity | exact IH].
Qed.

(** ** The loops of Dictionary.to_value, once more *)

Section MoreCalls.

Variable standard_match : pyobj -> string.
Variable rec_value : conv -> pyobj -> M pyobj.

(** *** The order of the keys *)

Lemma load_items_key_order (c : string) (items : dict pyobj) :
  forall ya val st ya' val' st',
    NoDup (keys items) -> NoDup (keys ya) ->
    (forall n, In n (keys val) -> ~ In n (keys items)) ->
    load_items standard_match rec_value c items ya val st
    = Ok ((ya', val'), st') ->
    keys val' = keys val ++ keys items /\
    NoDup (keys ya') /\
    keys ya'
    = filter (fun n => negb (existsb (String.eqb n) (keys items))) (keys ya).
Proof.
  induction items as [|[name x] items IH];
    intros ya val st ya' val' st' Hni Hny Hval H; simpl in H.
  - apply ret_ok in H as [[= -> ->] _]. simpl. rewrite app_nil_r.
    split; [reflexivity|]. split; [exact Hny|].
    symmetry. now apply filter_all.
  - simpl in Hni. inversion Hni as [|? ? Hname Hni']; subst.
    assert (~ In name (keys val)) as Hnv.
    { intros Hn. apply (Hval name Hn). now left. }
    assert (forall v n, In n (keys (dict_set val name v)) ->
                        ~ In n (keys items)) as Hval'.
    { intros v n Hn. apply keys_dict_set_in in Hn as [->|Hn]; [exact Hname|].
      intros Hi. apply (Hval n Hn). now right. }
    destruct (dict_pop ya name) as [[k ya1]|] eqn:Ep.
    + apply dict_pop_some in Ep as [_ ->].
      apply bind_ok in H as (v & st1 & _ & H).
      destruct (IH _ _ _ _ _ _ Hni' (keys_dict_del_nodup ya name Hny)
                  (Hval' v) H) as (Hk & Hny' & Hy).
      split; [|split; [exact Hny'|]].
      * rewrite Hk, (keys_dict_set_new val name v Hnv), <- app_assoc.
        reflexivity.
      * rewrite Hy, (keys_dict_del_filter ya name Hny), filter_twice.
        apply filter_ext. intros m. simpl.
        now rewrite negb_orb.
    + apply dict_pop_none in Ep.
      apply bind_ok in H as (u & st0 & _ & H).
      apply bind_ok in H as (v & st1 & _ & H).
      destruct (IH _ _ _ _ _ _ Hni' Hny (Hval' v) H) as (Hk & Hny' & Hy).
      split; [|split; [exact Hny'|]].
      * rewrite Hk, (keys_dict_set_new val name v Hnv), <- app_assoc.
        reflexivity.
      * rewrite Hy. apply filter_ext_in. intros m Hm. simpl.
        destruct (String.eqb m name) eqn:E; [|reflexivity].
        apply String.eqb_eq in E. subst m. contradiction.
Qed.

Lemma add_deleted_key_order (ya : dict conv) :
  forall val st val' st',
    NoDup (keys ya) ->
    (forall n, In n (keys val) -> ~ In n (keys ya)) ->
    add_deleted rec_value ya val st = Ok (val', st') ->
    keys val' = keys val ++ keys ya.
Proof.
  induction ya as [|[name k] ya IH]; intros val st val' st' Hnd Hval H;
    simpl in H.
  - apply ret_ok in H as [-> _]. simpl. now rewrite app_nil_r.
  - simpl in Hnd. inversion Hnd as [|? ? Hname Hnd']; subst.
    apply bind_ok in H as (v & st1 & _ & H).
    apply IH in H; [|exact Hnd'|].
    + rewrite H, keys_dict_set_new, <- app_assoc; [reflexivity|].
      intros Hn. apply (Hval name Hn). now left.
    + intros n Hn. apply keys_dict_set_in in Hn as [->|Hn]; [exact Hname|].
      intros Hi. apply (Hval n Hn). now right.
Qed.

Lemma dictionary_to_value_key_order (c : string) (obj : pyobj) (st : regs)
    (value : dict pyobj) (st' : regs) :
  NoDup (keys (to_dict obj)) -> NoDup (keys (st c)) ->
  dictionary_to_value standard_match rec_value c obj st = Ok (value, st') ->
  keys value
  = keys (to_dict obj)
    ++ filter (fun n => negb (has_key (to_dict obj) n)) (keys (st c)).
Proof.
  unfold dictionary_to_value. intros Hni Hns H.
  apply bind_ok in H as (ya & st0 & Hg & H). injection Hg as <- <-.
  apply bind_ok in H as ([ya' val'] & st1 & Hl & H). simpl in H.
  destruct (load_items_key_order _ _ _ _ _ _ _ _ Hni Hns
              (fun n (Hn : In n (keys [])) => match Hn with end) Hl)
    as (Hk & Hny & Hy).
  apply add_deleted_key_order in H; [|exact Hny|].
  - rewrite H, Hk, Hy. simpl. f_equal. apply filter_ext. intros n.
    now rewrite has_key_existsb.
  - intros n Hn Hn'. rewrite Hk in Hn. simpl in Hn.
    rewrite Hy in Hn'. apply filter_In in Hn' as [_ Hf].
    apply negb_true_iff in Hf.
    assert (existsb (String.eqb n) (keys (to_dict obj)) = true) as E.
    { apply existsb_exists. exists n. split; [exact Hn|].
      apply String.eqb_refl. }
    rewrite E in Hf. discriminate Hf.
Qed.

(** *** The value of a field *)




(** *** None registers nothing *)

Lemma add_deleted_same_state (ya : dict conv) :
  (forall k v s s', rec_value k VNone s = Ok (v, s') -> s' = s) ->
  forall val st val' st',
    add_deleted rec_value ya val st = Ok (val', st') -> st' = st.
Proof.
  intros Hrec. induction ya as [|[name k] ya IH]; intros val st val' st' H;
    simpl in H.
  - now apply ret_ok in H as [_ ->].
  - apply bind_ok in H as (v & st1 & Hv & H).
    apply Hrec in Hv. subst st1. exact (IH _ _ _ _ H).
Qed.

(** *** Fields keep their converters *)

Hypothesis rec_value_persists : forall k x st v st',
  valid_obj x = true -> rec_value k x st = Ok (v, st') -> persists st st'.

Lemma load_items_persists (c : string) (entry : regs) (items : dict pyobj) :
  forall ya val st p st',
    NoDup (keys items) ->
    (forall n x, In (n, x) items -> valid_obj x = true) ->
    (forall n, In n (keys (entry c)) -> In n (keys ya) \/ In n (keys val)) ->
    (forall n, In n (keys val) -> ~ In n (keys items)) ->
    persists entry st ->
    load_items standard_match rec_value c items ya val st = Ok (p, st') ->
    persists entry st'.
Proof using rec_value_persists.
  induction items as [|[name x] items IH];
    intros ya val st p st' Hni Hvalid J I3 P H; simpl in H.
  - now apply ret_ok in H as [_ <-].
  - simpl in Hni. inversion Hni as [|? ? Hname Hni']; subst.
    assert (forall v n, In n (keys (dict_set val name v)) ->
                        ~ In n (keys items)) as I3'.
    { intros v n Hn. apply keys_dict_set_in in Hn as [->|Hn]; [exact Hname|].
      intros Hi. apply (I3 n Hn). now right. }
    assert (valid_obj x = true) as Hx by (apply (Hvalid name); now left).
    assert (forall n y, In (n, y) items -> valid_obj y = true) as Hvalid'
        by (intros n y Hy; apply (Hvalid n); now right).
    destruct (dict_pop ya name) as [[k ya1]|] eqn:Ep.
    + apply dict_pop_some in Ep as [_ ->].
      apply bind_ok in H as (v & st1 & Hv & H).
      refine (IH _ _ _ _ _ Hni' Hvalid' _ (I3' v) _ H).
      * intros n Hn. rewrite keys_dict_set_in.
        destruct (J n Hn) as [Hy|Hy]; [|auto].
        destruct (keys_dict_del_other _ name _ Hy); auto.
      * exact (persists_trans _ _ _ P (rec_value_persists _ _ _ _ _ Hx Hv)).
    + apply dict_pop_none in Ep.
      apply bind_ok in H as (u & st0 & Hu & H). injection Hu as _ <-.
      apply bind_ok in H as (v & st1 & Hv & H).
      assert (~ In name (keys (entry c))) as Hnew.
      { intros Hn. destruct (J name Hn) as [Hy|Hy]; [now apply Ep|].
        apply (I3 name Hy). now left. }
      refine (IH _ _ _ _ _ Hni' Hvalid' _ (I3' v) _ H).
      * intros n Hn. rewrite keys_dict_set_in. destruct (J n Hn); auto.
      * apply (persists_trans _ (put_attr st c name
                                   (Leaf (standard_match x)))).
        -- intros c' n k' Hg. unfold put_attr.
           destruct (String.eqb c' c) eqn:E; [|now apply P].
           apply String.eqb_eq in E. subst c'.
           rewrite dict_get_set_other; [now apply P|].
           intros ->. apply Hnew. exact (dict_get_in_keys _ _ _ Hg).
        -- exact (rec_value_persists _ _ _ _ _ Hx Hv).
Qed.

Lemma add_deleted_persists (ya : dict conv) :
  forall val st val' st',
    add_deleted rec_value ya val st = Ok (val', st') -> persists st st'.
Proof using rec_value_persists.
  induction ya as [|[name k] ya IH]; intros val st val' st' H; simpl in H.
  - apply ret_ok in H as [_ <-]. apply persists_refl.
  - apply bind_ok in H as (v & st1 & Hv & H).
    exact (persists_trans _ _ _
             (rec_value_persists _ VNone _ _ _ eq_refl Hv) (IH _ _ _ _ H)).
Qed.

Lemma dictionary_to_value_persists (c : string) (obj : pyobj) (st : regs)
    (value : dict pyobj) (st' : regs) :
  valid_obj obj = true ->
  dictionary_to_value standard_match rec_value c obj st = Ok (value, st') ->
  persists st st'.
Proof using rec_value_persists.
  unfold dictionary_to_value. intros Hvalid H.
  destruct (to_dict_valid obj Hvalid) as [Hni Hv].
  apply bind_ok in H as (ya & st0 & Hg & H). injection Hg as <- <-.
  apply bind_ok in H as (p & st1 & Hl & H).
  apply (persists_trans _ st1); [|exact (add_deleted_persists _ _ _ _ _ H)].
  refine (load_items_persists c st _ _ _ _ _ _ Hni Hv _ _ _ Hl).
  - auto.
  - intros n [].
  - apply persists_refl.
Qed.

Lemma convert_items_persists (meth c : string) (items : list pyobj) :
  (forall x, In x items -> valid_obj x = true) ->
  forall acc st l st',
    convert_items rec_value meth c items acc st = Ok (l, st') ->
    persists st st'.
Proof using rec_value_persists.
  induction items as [|x items IH]; intros Hvalid acc st l st' H; simpl in H.
  - apply ret_ok in H as [_ <-]. apply persists_refl.
  - apply bind_ok in H as (v & st1 & Hv & H).
    unfold call_item in Hv. apply bind_ok in Hv as (it & st0 & Hi & Hv).
    injection Hi as <- <-.
    destruct (dict_get (st c) "all") as [k|]; [|discriminate].
    apply (persists_trans _ st1).
    + apply (rec_value_persists _ _ _ _ _ (Hvalid x (or_introl eq_refl)) Hv).
    + apply (IH (fun y Hy => Hvalid y (or_intror Hy)) _ _ _ _ H).
Qed.

End MoreCalls.

(** ** What to_dict and to_list make of a string *)

Lemma join_split_on (sep : ascii) (s : string) :
  join sep (split_on sep s) = s.
Proof.
  induction s as [|a s IH]; simpl; [reflexivity|].
  destruct (Ascii.eqb a sep) eqn:E.
  - apply Ascii.eqb_eq in E. subst a.
    pose proof (split_on_nonempty sep s) as Hne.
    destruct (split_on sep s) as [|w ws] eqn:Es; [contradiction|].
    cbn [join]. cbn [join] in IH. now rewrite IH.
  - pose proof (split_on_nonempty sep s) as Hne.
    destruct (split_on sep s) as [|w ws] eqn:Es; [contradiction|].
    destruct ws as [|w' ws]; cbn [join] in *; simpl; now rewrite IH.
Qed.

(** No part of a split has the separator, and no part has a character the
    string lacks. *)
Lemma split_on_parts (sep ch : ascii) (s : string) :
  forall w, In w (split_on sep s) ->
    contains sep w = false /\ (contains ch s = false -> contains ch w = false).
Proof.
  induction s as [|a s IH]; simpl; intros w Hw.
  - destruct Hw as [<-|[]]. auto.
  - destruct (Ascii.eqb a sep) eqn:E.
    + destruct Hw as [<-|Hw]; [auto|].
      destruct (IH w Hw) as [H1 H2]. split; [exact H1|].
      intros H. apply orb_false_iff in H as [_ H]. auto.
    + pose proof (split_on_nonempty sep s) as Hne.
      destruct (split_on sep s) as [|w0 ws] eqn:Es; [contradiction|].
      destruct Hw as [<-|Hw].
      * destruct (IH w0 (or_introl eq_refl)) as [H1 H2]. simpl.
        rewrite E, H1. split; [reflexivity|].
        intros H. apply orb_false_iff in H as [Ha H]. now rewrite Ha, H2.
      * destruct (IH w (or_intror Hw)) as [H1 H2]. split; [exact H1|].
        intros H. apply orb_false_iff in H as [_ H]. auto.
Qed.

(** The words of a split on whitespace are not empty and have no
    whitespace. *)
Lemma split_go_words (s : string) :
  has_space (fst (split_go s)) = false /\
  forall w, In w (snd (split_go s)) -> w <> "" /\ has_space w = false.
Proof.
  induction s as [|a s [IH1 IH2]]; simpl.
  - split; [reflexivity | intros w []].
  - destruct (split_go s) as [w0 ws]. simpl in *.
    destruct (is_space a) eqn:Ea; simpl.
    + split; [reflexivity|]. intros w Hw.
      destruct w0 as [|b w0]; simpl in Hw; [now apply IH2|].
      destruct Hw as [<-|Hw]; [|now apply IH2].
      split; [discriminate | exact IH1].
    + rewrite Ea, IH1. split; [reflexivity | exact IH2].
Qed.

Lemma split_ws_words (s : string) :
  forall w, In w (split_ws s) -> w <> "" /\ has_space w = false.
Proof.
  unfold split_ws. pose proof (split_go_words s) as [H1 H2].
  destruct (split_go s) as [w0 ws]. simpl in *. intros w Hw.
  destruct w0 as [|b w0]; simpl in Hw; [now apply H2|].
  destruct Hw as [<-|Hw]; [|now apply H2].
  split; [discriminate | exact H1].
Qed.

(** X1: whatever the string, [to_dict] gives a dict of one entry, and the
    entry tells the string's form: a str value means the stripped string is
    the key, "=" and the value, neither of which has a "="; the value None
    means the key is the stripped string and that it does not have exactly
    one "=". *)
Theorem to_dict_of_str (s : string) :
  exists k v, to_dict (VStr s) = [(k, v)] /\
    ((exists w, v = VStr w /\ strip s = (k ++ String "=" w)%string /\
                contains "=" k = false /\ contains "=" w = false) \/
     (v = VNone /\ k = strip s /\ count_char "=" (strip s) <> 1)).
Proof.
  unfold to_dict.
  pose proof (join_split_on "=" (strip s)) as Hj.
  pose proof (split_on_parts "=" "=" (strip s)) as Hp.
  pose proof (split_on_length "=" (strip s)) as Hl.
  destruct (split_on "=" (strip s)) as [|k [|w [|x l]]].
  - discriminate Hl.
  - exists (strip s), VNone. split; [reflexivity|]. right.
    split; [reflexivity|]. split; [reflexivity|].
    simpl in Hl. intros E. rewrite E in Hl. discriminate Hl.
  - exists k, (VStr w). split; [reflexivity|]. left. exists w.
    split; [reflexivity|]. split; [now rewrite <- Hj|].
    split; [apply (proj1 (Hp k ltac:(simpl; auto))) |
            apply (proj1 (Hp w ltac:(simpl; auto)))].
  - exists (strip s), VNone. split; [reflexivity|]. right.
    split; [reflexivity|]. split; [reflexivity|].
    simpl in Hl. intros E. rewrite E in Hl. discriminate Hl.
Qed.

(** X2: the items [to_list] makes of a string are strings without a space
    character.  When the stripped string is split on commas, the items have
    no comma either, they are one more than the commas, and joined with
    commas they give the stripped string back; otherwise no item is empty
    and no item has whitespace. *)
Theorem to_list_of_str (s : string) :
  exists ws, to_list (VStr s) = map VStr ws /\
    (forall w, In w ws -> contains " " w = false) /\
    (contains "," (strip s) && negb (contains " " (strip s)) = true ->
       ws = split_on "," (strip s) /\
       join "," ws = strip s /\
       List.length ws = S (count_char "," (strip s)) /\
       forall w, In w ws -> contains "," w = false) /\
    (contains "," (strip s) && negb (contains " " (strip s)) = false ->
       ws = split_ws s /\
       forall w, In w ws -> w <> "" /\ has_space w = false).
Proof.
  unfold to_list.
  destruct (contains "," (strip s) && negb (contains " " (strip s))) eqn:E.
  - exists (split_on "," (strip s)). split; [reflexivity|].
    apply andb_true_iff in E as [_ Hs]. apply negb_true_iff in Hs.
    split; [|split; [|discriminate]].
    + intros w Hw. now apply (split_on_parts "," " " (strip s) w Hw).
    + intros _. split; [reflexivity|]. split; [apply join_split_on|].
      split; [apply split_on_length|].
      intros w Hw. now apply (split_on_parts "," " " (strip s) w Hw).
  - exists (split_ws s). rewrite split_ws_strip. split; [reflexivity|].
    split; [|split; [discriminate|]].
    + intros w Hw. apply contains_space_has_space.
      now apply (split_ws_words s w Hw).
    + intros _. split; [reflexivity | apply split_ws_words].
Qed.

(** ** Reading attributes, and the writes of a [with] block *)

(** X3: on an object whose [yorm_attrs] is a dict and whose [yorm_mapper]
    is a Mapper, reading an attribute that [yorm_attrs] holds first
    retrieves, once, and then gives the attribute, every attribute but the
    mapper being as it was; reading any other attribute gives it and leaves
    the object alone; and [yorm_attrs] and [yorm_mapper] themselves are read
    without a retrieve. *)
Theorem getattribute_retrieves_mapped (self : object) (name : string)
    (attrs : dict pyobj) (m : mapper) :
  name <> "yorm_mapper" -> name <> "yorm_attrs" ->
  lookup_attr self "yorm_attrs" = Some (VDict attrs) ->
  lookup_attr self "yorm_mapper" = Some (VMapper m) ->
  (has_key attrs name = true ->
     exists self',
       Mappable_getattribute self name
       = match lookup_attr self name with
         | Some v => Ok (v, self')
         | None => Raise (AttributeError name)
         end /\
       mapper_of self'
       = Some (Mapper (auto m) (stores m) (S (retrieves m))) /\
       forall n, n <> "yorm_mapper" ->
                 lookup_attr self' n = lookup_attr self n) /\
  (has_key attrs name = false ->
     Mappable_getattribute self name
     = match lookup_attr self name with
       | Some v => Ok (v, self)
       | None => Raise (AttributeError name)
       end) /\
  Mappable_getattribute self "yorm_attrs" = Ok (VDict attrs, self) /\
  Mappable_getattribute self "yorm_mapper" = Ok (VMapper m, self).
Proof.
  intros Hn1 Hn2 Hattrs Hm.
  assert (String.eqb name "yorm_mapper" || String.eqb name "yorm_attrs"
          = false) as E.
  { apply orb_false_iff. split; now apply String.eqb_neq. }
  split; [|split; [|split]].
  - intros Hin. exists (update_mapper self (mapper_retrieve m)).
    split; [|split].
    + unfold Mappable_getattribute. rewrite E.
      unfold object_getattribute at 1. rewrite Hattrs. simpl. rewrite Hin.
      unfold call_mapper, object_getattribute at 1. rewrite Hm.
      unfold object_getattribute.
      rewrite (lookup_attr_update_mapper self _ name Hn1).
      now destruct (lookup_attr self name).
    + apply mapper_of_update_mapper.
    + intros n Hn. now apply lookup_attr_update_mapper.
  - intros Hin. unfold Mappable_getattribute. rewrite E.
    unfold object_getattribute at 1. rewrite Hattrs. simpl. rewrite Hin.
    unfold object_getattribute. now destruct (lookup_attr self name).
  - unfold Mappable_getattribute, object_getattribute. simpl.
    now rewrite Hattrs.
  - unfold Mappable_getattribute, object_getattribute. simpl.
    now rewrite Hm.
Qed.

Section Block.

Variable leaf_to_value : string -> pyobj -> pyobj.
Variable standard_match : pyobj -> string.

Local Abbreviation setattr' := (Mappable_setattr leaf_to_value standard_match).
Local Abbreviation write_attrs' := (write_attrs leaf_to_value standard_match).
Local Abbreviation with_block' := (with_block leaf_to_value standard_match).

(** While the auto flag is off, a write stores nothing. *)
Lemma setattr_auto_off (fuel : nat) (self : object) (name : string)
    (value : pyobj) (st : regs) (self' : object) (st' : regs) (m : mapper) :
  name <> "yorm_mapper" -> dict_get (descriptors self) name = None ->
  mapper_of self = Some m -> auto m = false ->
  setattr' fuel self name value st = Ok (self', st') ->
  mapper_of self' = Some m /\ descriptors self' = descriptors self.
Proof.
  intros Hn Hplain Hm Ha H. unfold Mappable_setattr in H.
  destruct (is_mapped self name) as [mapped|e]; [|discriminate].
  destruct (if mapped
            then match lookup_attr self "yorm_attrs" with
                 | Some attrs =>
                     match py_getitem attrs name with
                     | Ok converter =>
                         call_to_value leaf_to_value standard_match fuel
                           converter value st
                     | Raise e => Raise e
                     end
                 | None => Raise (AttributeError "yorm_attrs")
                 end
            else Ok (value, st)) as [[value' st1]|e]; [|discriminate].
  rewrite (object_setattr_plain self name value' Hplain) in H.
  assert (mapper_of (store_attr self name value') = Some m) as Hm'.
  { unfold mapper_of.
    rewrite (lookup_attr_setattr_other self name "yorm_mapper" value' Hn).
    exact Hm. }
  destruct (is_mapped (store_attr self name value') name) as [[|]|e];
    try discriminate.
  - unfold store_if_auto in H. unfold mapper_of in Hm'.
    destruct (lookup_attr (store_attr self name value') "yorm_mapper")
      as [[]|] eqn:El; try discriminate.
    injection Hm' as ->. rewrite Ha in H. injection H as <- _.
    unfold mapper_of. now rewrite El.
  - injection H as <- _. split; [exact Hm' | reflexivity].
Qed.

Lemma write_attrs_auto_off (fuel : nat) (writes : list (string * pyobj)) :
  forall self st self' st' m,
    (forall n v, In (n, v) writes ->
       n <> "yorm_mapper" /\ dict_get (descriptors self) n = None) ->
    mapper_of self = Some m -> auto m = false ->
    write_attrs' fuel self writes st = Ok (self', st') ->
    mapper_of self' = Some m.
Proof.
  induction writes as [|[name value] writes IH];
    intros self st self' st' m Hn Hm Ha H; simpl in H.
  - apply ret_ok in H as [<- _]. exact Hm.
  - apply bind_ok in H as (self1 & st1 & Hs & H).
    destruct (Hn name value (or_introl eq_refl)) as [Hn1 Hn2].
    destruct (setattr_auto_off fuel self name value st self1 st1 m Hn1 Hn2
                Hm Ha Hs) as [Hm1 Hd1].
    apply (IH self1 st1 self' st' m); auto.
    intros n v Hv. rewrite Hd1. apply (Hn n v). now right.
Qed.

Lemma Mappable_enter_mapper (self : object) (m : mapper) :
  mapper_of self = Some m ->
  exists self', Mappable_enter self = Ok self' /\
    mapper_of self' = Some (Mapper false (stores m) (retrieves m)) /\
    descriptors self' = descriptors self.
Proof.
  unfold mapper_of, Mappable_enter, object_getattribute.
  destruct (lookup_attr self "yorm_mapper") as [[]|]; try discriminate.
  intros [= ->]. eexists. split; [reflexivity|].
  split; [apply mapper_of_update_mapper | apply descriptors_update_mapper].
Qed.

(** X4: a [with] block on an object that has a mapper stores once, at its
    end, however many attributes are written inside and whatever the auto
    flag was, and leaves the flag off; the writes are to attributes other
    than [yorm_mapper] for which the class has no data descriptor. *)
Theorem with_block_stores_once (fuel : nat) (self : object)
    (writes : list (string * pyobj)) (st : regs) (self' : object)
    (st' : regs) (m : mapper) :
  mapper_of self = Some m ->
  (forall n v, In (n, v) writes ->
     n <> "yorm_mapper" /\ dict_get (descriptors self) n = None) ->
  with_block' fuel self writes st = Ok (self', st') ->
  mapper_of self' = Some (Mapper false (S (stores m)) (retrieves m)).
Proof.
  intros Hm Hn H. unfold with_block in H.
  destruct (Mappable_enter_mapper self m Hm) as (self1 & He & Hm1 & Hd1).
  rewrite He in H.
  destruct (write_attrs' fuel self1 writes st) as [[self2 st2]|e] eqn:Hw;
    [|discriminate].
  assert (mapper_of self2
          = Some (Mapper false (stores m) (retrieves m))) as Hm2.
  { apply (write_attrs_auto_off fuel writes self1 st self2 st2 _); auto.
    intros n v Hv. rewrite Hd1. exact (Hn n v Hv). }
  destruct (Mappable_exit_mapper self2 _ Hm2) as (self3 & Hx & Hm3).
  rewrite Hx in H. injection H as <- _. exact Hm3.
Qed.

End Block.

(** ** The registries stay dicts *)

Lemma all_nodup_put_attr (st : regs) (c name : string) (k : conv) :
  all_nodup st -> all_nodup (put_attr st c name k).
Proof.
  intros H c'. unfold put_attr. destruct (String.eqb c' c); [|apply H].
  apply keys_dict_set_nodup, H.
Qed.

Section NoDupCalls.

Variable standard_match : pyobj -> string.
Variable rec : conv -> pyobj -> M pyobj.

Hypothesis rec_nodup : forall k obj st v st',
  rec k obj st = Ok (v, st') -> all_nodup st -> all_nodup st'.

Lemma load_items_nodup (c : string) (items : dict pyobj) :
  forall ya val st p st',
    load_items standard_match rec c items ya val st = Ok (p, st') ->
    all_nodup st -> all_nodup st'.
Proof using rec rec_nodup standard_match.
  induction items as [|[name data] items IH]; intros ya val st p st' H Hnd;
    simpl in H.
  - now apply ret_ok in H as [_ <-].
  - destruct (dict_pop ya name) as [[converter ya1]|].
    + apply bind_ok in H as (x & st1 & Hx & H).
      exact (IH _ _ _ _ _ H (rec_nodup _ _ _ _ _ Hx Hnd)).
    + apply bind_ok in H as (u & st0 & Hu & H). injection Hu as _ <-.
      apply bind_ok in H as (x & st1 & Hx & H).
      apply (IH _ _ _ _ _ H). apply (rec_nodup _ _ _ _ _ Hx).
      now apply all_nodup_put_attr.
Qed.

Lemma add_deleted_nodup (ya : dict conv) :
  forall val st val' st',
    add_deleted rec ya val st = Ok (val', st') ->
    all_nodup st -> all_nodup st'.
Proof using rec rec_nodup.
  induction ya as [|[name k] ya IH]; intros val st val' st' H Hnd;
    simpl in H.
  - now apply ret_ok in H as [_ <-].
  - apply bind_ok in H as (x & st1 & Hx & H).
    exact (IH _ _ _ _ H (rec_nodup _ _ _ _ _ Hx Hnd)).
Qed.

Lemma dictionary_to_value_nodup (c : string) (obj : pyobj) (st : regs)
    (value : dict pyobj) (st' : regs) :
  dictionary_to_value standard_match rec c obj st = Ok (value, st') ->
  all_nodup st -> all_nodup st'.
Proof using rec rec_nodup standard_match.
  unfold dictionary_to_value. intros H Hnd.
  apply bind_ok in H as (ya & st0 & Hg & H). injection Hg as <- <-.
  apply bind_ok in H as (p & st1 & Hl & H).
  apply (add_deleted_nodup _ _ _ _ _ H).
  exact (load_items_nodup _ _ _ _ _ _ _ Hl Hnd).
Qed.

Lemma convert_items_nodup (meth c : string) (items : list pyobj) :
  forall acc st l st',
    convert_items rec meth c items acc st = Ok (l, st') ->
    all_nodup st -> all_nodup st'.
Proof using rec rec_nodup.
  induction items as [|x items IH]; intros acc st l st' H Hnd; simpl in H.
  - now apply ret_ok in H as [_ <-].
  - apply bind_ok in H as (v & st1 & Hv & H).
    unfold call_item in Hv. apply bind_ok in Hv as (it & st0 & Hi & Hv).
    injection Hi as <- <-.
    destruct (dict_get (st c) "all") as [k|]; [|discriminate].
    exact (IH _ _ _ _ H (rec_nodup _ _ _ _ _ Hv Hnd)).
Qed.

Lemma dump_items_nodup (c : string) (size : nat) (value : dict pyobj) :
  forall left i data st data' st',
    dump_items rec c size value left i data st = Ok (data', st') ->
    all_nodup st -> all_nodup st'.
Proof using rec rec_nodup.
  induction left as [|left IH]; intros i data st data' st' H Hnd; simpl in H;
    apply bind_ok in H as (attrs & st0 & Hg & H); injection Hg as <- <-;
    destruct (negb (Nat.eqb (List.length (st c)) size)); try discriminate.
  - now apply ret_ok in H as [_ <-].
  - destruct (nth_error (st c) i) as [[name k]|].
    + apply bind_ok in H as (x & st1 & Hx & H).
      exact (IH _ _ _ _ _ H (rec_nodup _ _ _ _ _ Hx Hnd)).
    + now apply ret_ok in H as [_ <-].
Qed.

(** *** The order in which Dictionary.to_data emits the fields *)

Hypothesis rec_grows : forall k obj st v st',
  rec k obj st = Ok (v, st') -> grows st st'.

Lemma dump_items_order (c : string) (size : nat) (value : dict pyobj) :
  forall left i data st data' st',
    i + left = size -> NoDup (keys (st' c)) ->
    keys data = firstn i (keys (st c)) ->
    dump_items rec c size value left i data st = Ok (data', st') ->
    keys data' = keys (st' c).
Proof using rec rec_grows.
  induction left as [|left IH]; intros i data st data' st' Hi Hnd Hdata H.
  - simpl in H. apply bind_ok in H as (attrs & st0 & Hg & H).
    injection Hg as <- <-.
    destruct (Nat.eqb (List.length (st c)) size) eqn:El; simpl in H;
      [|discriminate].
    apply Nat.eqb_eq in El. apply ret_ok in H as [<- <-].
    rewrite Hdata. apply firstn_all2. unfold keys. rewrite length_map. lia.
  - pose proof (dump_items_keys rec rec_grows c size value (S left) i data
                  st data' st' Hi H) as (G & Hl' & _).
    simpl in H. apply bind_ok in H as (attrs & st0 & Hg & H).
    injection Hg as <- <-.
    destruct (Nat.eqb (List.length (st c)) size) eqn:El; simpl in H;
      [|discriminate].
    apply Nat.eqb_eq in El.
    destruct (nth_error (st c) i) as [[name k]|] eqn:En.
    + apply bind_ok in H as (x & st1 & Hx & H).
      pose proof (rec_grows _ _ _ _ _ Hx) as G1.
      pose proof (dump_items_keys rec rec_grows c size value left (S i) _
                    st1 data' st' ltac:(lia) H) as (G2 & _ & _).
      assert (keys (st' c) = keys (st c)) as E'
          by (apply grows_same_length; [exact G | lia]).
      assert (keys (st1 c) = keys (st c)) as E1.
      { apply grows_same_length; [exact G1|].
        pose proof (grows_length _ _ c G1). pose proof (grows_length _ _ c G2).
        lia. }
      assert (nth_error (keys (st c)) i = Some name) as Hname
          by (unfold keys; now rewrite nth_error_map, En).
      apply (IH (S i) (dict_set data name x) st1 data' st' ltac:(lia) Hnd);
        [|exact H].
      rewrite E1, (firstn_succ_nth _ _ _ Hname), <- Hdata.
      apply keys_dict_set_new. rewrite Hdata.
      apply nodup_nth_not_before; [|exact Hname]. now rewrite <- E'.
    + apply nth_error_None in En. lia.
Qed.

End NoDupCalls.

(** ** The converters, at any depth *)

Section MoreContainers.

Variable leaf_to_value : string -> pyobj -> pyobj.
Variable leaf_to_data : string -> pyobj -> pyobj.
Variable standard_match : pyobj -> string.

Local Abbreviation to_value' := (to_value leaf_to_value standard_match).
Local Abbreviation to_data' :=
  (to_data leaf_to_value leaf_to_data standard_match).

(** X5: [to_value] and [to_data] only add fields: when either returns,
    every class has the keys it had, in the order it had them, and after
    them those that were added. *)
Theorem converters_only_add_fields (fuel : nat) (cls : conv) (obj : pyobj)
    (st : regs) (v : pyobj) (st' : regs) :
  to_value' fuel cls obj st = Ok (v, st') \/
  to_data' fuel cls obj st = Ok (v, st') ->
  forall c, exists added, keys (st' c) = keys (st c) ++ added.
Proof.
  intros [H|H] c.
  - exact (to_value_grows _ _ _ _ _ _ _ _ H c).
  - exact (to_data_grows _ _ _ _ _ _ _ _ _ H c).
Qed.

Lemma to_value_persists (fuel : nat) :
  forall cls obj st v st',
    valid_obj obj = true ->
    to_value' fuel cls obj st = Ok (v, st') -> persists st st'.
Proof.
  induction fuel as [|fuel IH]; intros cls obj st v st' Hvalid H;
    destruct cls; simpl in H; try discriminate;
    try (apply ret_ok in H as [_ <-]; apply persists_refl).
  - apply bind_ok in H as (d & st1 & Hd & H). apply ret_ok in H as [_ <-].
    exact (dictionary_to_value_persists standard_match (to_value' fuel) IH
             _ _ _ _ _ Hvalid Hd).
  - apply bind_ok in H as (l & st1 & Hl & H). apply ret_ok in H as [_ <-].
    unfold list_to_value in Hl.
    apply bind_ok in Hl as (it & st0 & Hi & Hl). injection Hi as <- <-.
    destruct (dict_get (st c) "all"); [|discriminate].
    exact (convert_items_persists (to_value' fuel) IH _ _ _
             (to_list_valid obj Hvalid) _ _ _ _ Hl).
Qed.

(** X6: [to_value] of an input in which no dict has a key twice replaces
    no converter: a field that a class had when the call began has the same
    converter when the call returns, whatever the classes refer to. *)
Theorem to_value_keeps_converters (fuel : nat) (cls : conv) (obj : pyobj)
    (st : regs) (v : pyobj) (st' : regs) :
  valid_obj obj = true ->
  to_value' fuel cls obj st = Ok (v, st') ->
  forall c name k,
    dict_get (st c) name = Some k -> dict_get (st' c) name = Some k.
Proof.
  intros Hvalid H. exact (to_value_persists fuel _ _ _ _ _ Hvalid H).
Qed.

(** X7: the dict [to_value] of a subclass of Dictionary returns has first
    the keys of the input, in the order of the input, and then the fields of
    the class that the input lacks, in the order of [yorm_attrs]. *)
Theorem to_value_key_order (fuel : nat) (c : string) (obj : pyobj)
    (st : regs) (v : pyobj) (st' : regs) :
  NoDup (keys (to_dict obj)) -> NoDup (keys (st c)) ->
  to_value' fuel (DictSub c) obj st = Ok (v, st') ->
  exists value, v = VDict value /\
    keys value
    = keys (to_dict obj)
      ++ filter (fun n => negb (has_key (to_dict obj) n)) (keys (st c)).
Proof.
  intros Hni Hns H. destruct fuel as [|fuel]; simpl in H; [discriminate|].
  apply bind_ok in H as (value & st1 & Hv & H). apply ret_ok in H as [<- _].
  exists value. split; [reflexivity|].
  exact (dictionary_to_value_key_order _ _ _ _ _ _ _ Hni Hns Hv).
Qed.


Lemma to_value_nodup (fuel : nat) :
  forall cls obj st v st',
    to_value' fuel cls obj st = Ok (v, st') -> all_nodup st -> all_nodup st'.
Proof.
  induction fuel as [|fuel IH]; intros cls obj st v st' H Hnd;
    destruct cls; simpl in H; try discriminate;
    try (now apply ret_ok in H as [_ <-]).
  - apply bind_ok in H as (d & st1 & Hd & H). apply ret_ok in H as [_ <-].
    exact (dictionary_to_value_nodup _ _ IH _ _ _ _ _ Hd Hnd).
  - apply bind_ok in H as (l & st1 & Hl & H). apply ret_ok in H as [_ <-].
    unfold list_to_value in Hl.
    apply bind_ok in Hl as (it & st0 & Hi & Hl). injection Hi as <- <-.
    destruct (dict_get (st c) "all"); [|discriminate].
    exact (convert_items_nodup _ IH _ _ _ _ _ _ _ Hl Hnd).
Qed.

Lemma to_data_nodup (fuel : nat) :
  forall cls obj st v st',
    to_data' fuel cls obj st = Ok (v, st') -> all_nodup st -> all_nodup st'.
Proof.
  induction fuel as [|fuel IH]; intros cls obj st v st' H Hnd;
    destruct cls; simpl in H; try discriminate;
    try (now apply ret_ok in H as [_ <-]).
  - apply bind_ok in H as (d & st1 & Hd & H). apply ret_ok in H as [_ <-].
    unfold dictionary_to_data in Hd.
    apply bind_ok in Hd as (value & s1 & Hv & Hd).
    apply bind_ok in Hd as (attrs & s0 & Hg & Hd). injection Hg as <- <-.
    apply (dump_items_nodup _ IH _ _ _ _ _ _ _ _ _ Hd).
    exact (dictionary_to_value_nodup _ _ (to_value_nodup fuel) _ _ _ _ _ Hv
             Hnd).
  - apply bind_ok in H as (l & st1 & Hl & H). apply ret_ok in H as [_ <-].
    unfold list_to_data in Hl.
    apply bind_ok in Hl as (value & s1 & Hv & Hl).
    apply (convert_items_nodup _ IH _ _ _ _ _ _ _ Hl).
    unfold list_to_value in Hv.
    apply bind_ok in Hv as (it & st0 & Hi & Hv). injection Hi as <- <-.
    destruct (dict_get (st c) "all"); [|discriminate].
    exact (convert_items_nodup _ (to_value_nodup fuel) _ _ _ _ _ _ _ Hv Hnd).
Qed.

(** X9: the dict [to_data] of a subclass of Dictionary returns has the
    fields of the class in the order of [yorm_attrs] as it is after the
    call, each once: the order of the input does not show.  These are the
    fields the class has once [to_value] has returned: emitting adds none
    to the class. *)
Theorem to_data_key_order (fuel : nat) (c : string) (obj : pyobj)
    (st : regs) (v : pyobj) (st' : regs) :
  all_nodup st ->
  to_data' fuel (DictSub c) obj st = Ok (v, st') ->
  exists data value st1,
    v = VDict data /\
    to_value' fuel (DictSub c) obj st = Ok (VDict value, st1) /\
    keys (st' c) = keys (st1 c) /\
    keys data = keys (st' c) /\ NoDup (keys data).
Proof.
  intros Hnd H. pose proof (to_data_nodup fuel _ _ _ _ _ H Hnd c) as Hnd'.
  destruct fuel as [|fuel]; simpl in H; [discriminate|].
  apply bind_ok in H as (data & st2 & Hd & H). apply ret_ok in H as [<- <-].
  unfold dictionary_to_data in Hd.
  apply bind_ok in Hd as (value & s1 & Hv & Hd).
  apply bind_ok in Hd as (attrs & s0 & Hg & Hd). injection Hg as <- <-.
  exists data, value, s1. split; [reflexivity|].
  split; [simpl; unfold bind; now rewrite Hv|].
  destruct (dump_items_keys (to_data' fuel) (to_data_grows _ _ _ fuel) c
              (List.length (s1 c)) value (List.length (s1 c)) 0 [] s1 data
              st2 (Nat.add_0_l _) Hd) as (G & Hl & _).
  split; [exact (grows_same_length _ _ c G Hl)|].
  assert (keys data = keys (st2 c)) as E.
  { exact (dump_items_order (to_data' fuel) (to_data_grows _ _ _ fuel) c
             (List.length (s1 c)) value (List.length (s1 c)) 0 [] s1 data st2
             (Nat.add_0_l _) Hnd' eq_refl Hd). }
  split; [exact E | now rewrite E].
Qed.

Lemma to_value_none_state (fuel : nat) :
  forall cls st v st', to_value' fuel cls VNone st = Ok (v, st') -> st' = st.
Proof.
  induction fuel as [|fuel IH]; intros cls st v st' H;
    destruct cls; simpl in H; try discriminate;
    try (now apply ret_ok in H as [_ <-]).
  - apply bind_ok in H as (d & st1 & Hd & H). apply ret_ok in H as [_ <-].
    unfold dictionary_to_value in Hd.
    apply bind_ok in Hd as (ya & st0 & Hg & Hd). injection Hg as <- <-.
    apply bind_ok in Hd as (p & s1 & Hl & Hd). simpl in Hl.
    apply ret_ok in Hl as [<- <-]. simpl in Hd.
    exact (add_deleted_same_state _ _ (fun k v s s' => IH k s v s') _ _ _ _
             Hd).
  - apply bind_ok in H as (l & st1 & Hl & H). apply ret_ok in H as [_ <-].
    unfold list_to_value in Hl.
    apply bind_ok in Hl as (it & st0 & Hi & Hl). injection Hi as <- <-.
    destruct (dict_get (st c) "all"); [|discriminate]. simpl in Hl.
    now apply ret_ok in Hl as [_ <-].
Qed.

(** X10: [to_value] of None registers nothing, at any depth: the classes
    are as they were.  A subclass of Dictionary gives a dict of its fields,
    in the order of [yorm_attrs], a subclass of List the empty list, and the
    base classes give nothing. *)
Theorem to_value_of_none (fuel : nat) (cls : conv) (st : regs) (v : pyobj)
    (st' : regs) :
  to_value' fuel cls VNone st = Ok (v, st') ->
  st' = st /\
  match cls with
  | Leaf k => v = leaf_to_value k VNone
  | DictSub c =>
      NoDup (keys (st c)) ->
      exists value, v = VDict value /\ keys value = keys (st c)
  | ListSub c => v = VList []
  | DictBase | ListBase => False
  end.
Proof.
  intros H. split; [exact (to_value_none_state fuel _ _ _ _ H)|].
  destruct cls as [k|c|c| |].
  - rewrite to_value_leaf in H. now injection H as <- _.
  - intros Hns. destruct fuel as [|fuel]; simpl in H; [discriminate|].
    apply bind_ok in H as (value & st1 & Hv & H). apply ret_ok in H as [<- _].
    exists value. split; [reflexivity|].
    rewrite (dictionary_to_value_key_order _ _ _ VNone _ _ _ (NoDup_nil _)
               Hns Hv).
    simpl. now apply filter_all.
  - destruct fuel as [|fuel]; simpl in H; [discriminate|].
    apply bind_ok in H as (l & st1 & Hl & H). apply ret_ok in H as [<- _].
    unfold list_to_value in Hl.
    apply bind_ok in Hl as (it & st0 & Hi & Hl). injection Hi as <- <-.
    destruct (dict_get (st c) "all"); [|discriminate]. simpl in Hl.
    now apply ret_ok in Hl as [<- _].
  - destruct fuel; discriminate.
  - destruct fuel; discriminate.
Qed.

(** X11: a subclass of List whose item type is a scalar converter converts
    item by item and registers nothing: [to_value] gives the list of what
    the converter's [to_value] makes of the items of [to_list], and
    [to_data] the list of what its [to_data] makes of those. *)
Theorem list_of_scalars (fuel : nat) (c k : string) (obj : pyobj)
    (st : regs) :
  dict_get (st c) "all" = Some (Leaf k) ->
  to_value' (S fuel) (ListSub c) obj st
  = Ok (VList (map (leaf_to_value k) (to_list obj)), st) /\
  to_data' (S fuel) (ListSub c) obj st
  = Ok (VList (map (fun x => leaf_to_data k (leaf_to_value k x))
                 (to_list obj)), st).
Proof.
  intros Hk.
  assert (list_to_value (to_value' fuel) c obj st
          = Ok (map (leaf_to_value k) (to_list obj), st)) as Hv.
  { unfold list_to_value, bind, item_type. rewrite Hk.
    rewrite (convert_settled st c (to_value' fuel) "to_value" (Leaf k)
               (to_list obj) Hk).
    - simpl. f_equal. f_equal. apply map_ext. intros x.
      unfold run_of. now rewrite to_value_leaf.
    - intros x _. unfold run_of. now rewrite to_value_leaf. }
  split.
  - simpl. unfold bind. now rewrite Hv.
  - simpl. unfold bind, list_to_data, bind. rewrite Hv.
    rewrite (convert_settled st c (to_data' fuel) "to_data" (Leaf k) _ Hk).
    + rewrite (map_ext _ (leaf_to_data k))
        by (intros x; unfold run_of; now rewrite to_data_leaf).
      simpl. unfold ret. now rewrite map_map.
    + intros x _. unfold run_of. now rewrite to_data_leaf.
Qed.

(** X12: on a subclass of List whose [yorm_attrs] has no entry "all",
    [to_data] raises the NotImplementedError of [to_value], whatever the
    input, and returns a value at no call depth. *)
Theorem list_to_data_without_item_type (c : string) (obj : pyobj)
    (st : regs) :
  dict_get (st c) "all" = None ->
  (forall fuel,
      to_data' (S fuel) (ListSub c) obj st
      = Raise (NotImplementedError "List subclass must specify item type")) /\
  (forall fuel v st', to_data' fuel (ListSub c) obj st <> Ok (v, st')).
Proof.
  intros H.
  assert (forall fuel,
             to_data' (S fuel) (ListSub c) obj st
             = Raise (NotImplementedError
                        "List subclass must specify item type")) as E.
  { intros fuel. simpl.
    unfold bind, list_to_data, bind, list_to_value, bind, item_type.
    now rewrite H. }
  split; [exact E|].
  intros [|fuel] v st'; [discriminate|]. rewrite E. discriminate.
Qed.

Section MoreRanked.

Variable rank : string -> nat.

(** X13: when no class is reachable from itself, [to_value] and [to_data]
    return for every input once the fuel exceeds the rank of the class; the
    classes are still ranked afterwards, and those whose rank is not below
    the fuel are as they were. *)
Theorem ranked_converters_return (fuel : nat) (cls : conv) (obj : pyobj)
    (st : regs) :
  wf_schema rank st -> conv_ok rank st fuel cls ->
  (exists v st',
      to_value' fuel cls obj st = Ok (v, st') /\
      wf_schema rank st' /\ untouched rank fuel st st') /\
  (exists d st',
      to_data' fuel cls obj st = Ok (d, st') /\
      wf_schema rank st' /\ untouched rank fuel st st').
Proof.
  intros Hwf Hok. split.
  - exact (to_value_ok _ _ rank fuel cls obj st fuel (le_n _) Hwf Hok).
  - exact (to_data_ok _ _ _ rank fuel cls obj st fuel (le_n _) Hwf Hok).
Qed.

Hypothesis to_value_idempotent : forall k x,
  leaf_to_value k (leaf_to_value k x) = leaf_to_value k x.

(** X14: when the scalar converters convert their own results to
    themselves and no class is reachable from itself, converting what
    [to_value] has returned for a valid input registers no field, and what
    that gives is converted to itself. *)
Theorem to_value_twice (fuel : nat) (cls : conv) (obj : pyobj) (st : regs) :
  wf_schema rank st -> conv_ok rank st fuel cls -> valid_obj obj = true ->
  exists v st' w,
    to_value' fuel cls obj st = Ok (v, st') /\
    to_value' fuel cls v st' = Ok (w, st') /\
    to_value' fuel cls w st' = Ok (w, st').
Proof using to_value_idempotent.
  intros Hwf Hok Hvalid.
  destruct (to_value_settles leaf_to_value leaf_to_value standard_match rank
              to_value_idempotent fuel cls obj st fuel (le_n _) Hwf Hok
              Hvalid) as (v & st' & Hv & Hwf' & _ & _ & Hs).
  destruct (Hs st' Hwf' (persists_refl _)) as (H1 & H2 & _).
  exists v, st', (run_of (to_value' fuel) st' cls v). auto.
Qed.

End MoreRanked.

End MoreContainers.

(** ** What Dictionary.to_data emits for a field *)

Section Emitted.

Variable leaf_to_value : string -> pyobj -> pyobj.
Variable leaf_to_data : string -> pyobj -> pyobj.
Variable standard_match : pyobj -> string.

Local Abbreviation to_value' := (to_value leaf_to_value standard_match).
Local Abbreviation to_data' :=
  (to_data leaf_to_value leaf_to_data standard_match).

(** X18: in the dict [to_data] of a subclass of Dictionary returns, the
    field at position [j] of [yorm_attrs] holds what [to_data] of the
    field's converter makes of the value the dict of [to_value] has for the
    field, or of None where that dict has none.  The converter is the one
    [yorm_attrs] has at that position when the loop reaches it: in the state
    [s1] in which the loop has run for the [j] fields before it. *)
Theorem to_data_emits_each_field (fuel : nat) (c : string) (obj : pyobj)
    (st : regs) (d : pyobj) (st' : regs) (j : nat) (name : string) :
  all_nodup st ->
  to_data' (S fuel) (DictSub c) obj st = Ok (d, st') ->
  nth_error (keys (st' c)) j = Some name ->
  exists data value st1 k dj s1 s2 x,
    d = VDict data /\
    to_value' (S fuel) (DictSub c) obj st = Ok (VDict value, st1) /\
    dump_items (to_data' fuel) c (List.length (st1 c)) value j 0 [] st1
    = Ok (dj, s1) /\
    nth_error (s1 c) j = Some (name, k) /\
    to_data' fuel k (get_or_none value name) s1 = Ok (x, s2) /\
    dict_get data name = Some x.
Proof.
  intros Hnd H Hj.
  pose proof (to_data_nodup _ _ _ (S fuel) _ _ _ _ _ H Hnd c) as Hnd'.
  simpl in H.
  apply bind_ok in H as (data & st2 & Hd & H). apply ret_ok in H as [<- <-].
  unfold dictionary_to_data in Hd.
  apply bind_ok in Hd as (value & st1 & Hv & Hd).
  apply bind_ok in Hd as (attrs & s0 & Hg & Hd). injection Hg as <- <-.
  destruct (dump_items_each (to_data' fuel) (to_data_grows _ _ _ fuel) c
              (List.length (st1 c)) value (List.length (st1 c)) 0 [] st1 data
              st2 (Nat.add_0_l _) Hnd' eq_refl Hd) as [_ Heach].
  destruct (Heach j name (Nat.le_0_l _) Hj)
    as (k & dj & s1 & s2 & x & Hrun & Hk & Hx & Hg).
  rewrite Nat.sub_0_r in Hrun.
  exists data, value, st1, k, dj, s1, s2, x. split; [reflexivity|].
  split; [simpl; unfold bind; now rewrite Hv|]. auto.
Qed.

End Emitted.

(** ** A class that is the converter of one of its own fields *)

Section SelfReference.

Variable leaf_to_value : string -> pyobj -> pyobj.
Variable leaf_to_data : string -> pyobj -> pyobj.
Variable standard_match : pyobj -> string.

(** The class [c] has the field [name], whose converter is [c]. *)
Variable c : string.
Variable name : string.

Local Abbreviation to_value' := (to_value leaf_to_value standard_match).
Local Abbreviation to_data' :=
  (to_data leaf_to_value leaf_to_data standard_match).
Local Abbreviation own_field :=
  (fun st : regs => dict_get (st c) name = Some (DictSub c)).

Section SelfCalls.

Variable rec_value : conv -> pyobj -> M pyobj.

Hypothesis rec_value_keeps : forall k obj st v st',
  rec_value k obj st = Ok (v, st') -> own_field st -> own_field st'.

Lemma load_items_other (c' : string) (items : dict pyobj) :
  c' <> c ->
  forall ya val st p st',
    load_items standard_match rec_value c' items ya val st = Ok (p, st') ->
    own_field st -> own_field st'.
Proof using rec_value_keeps.
  intros Hc. induction items as [|[n0 data] items IH];
    intros ya val st p st' H Hown; simpl in H.
  - now apply ret_ok in H as [_ <-].
  - destruct (dict_pop ya n0) as [[k ya1]|].
    + apply bind_ok in H as (x & st1 & Hx & H).
      exact (IH _ _ _ _ _ H (rec_value_keeps _ _ _ _ _ Hx Hown)).
    + apply bind_ok in H as (u & st0 & Hu & H). injection Hu as _ <-.
      apply bind_ok in H as (x & st1 & Hx & H).
      apply (IH _ _ _ _ _ H). apply (rec_value_keeps _ _ _ _ _ Hx).
      unfold put_attr.
      destruct (String.eqb c c') eqn:E; [|exact Hown].
      apply String.eqb_eq in E. now elim Hc.
Qed.

Lemma add_deleted_keeps (ya : dict conv) :
  forall val st val' st',
    add_deleted rec_value ya val st = Ok (val', st') ->
    own_field st -> own_field st'.
Proof using rec_value_keeps.
  induction ya as [|[n0 k] ya IH]; intros val st val' st' H Hown;
    simpl in H.
  - now apply ret_ok in H as [_ <-].
  - apply bind_ok in H as (x & st1 & Hx & H).
    exact (IH _ _ _ _ H (rec_value_keeps _ _ _ _ _ Hx Hown)).
Qed.

Lemma convert_items_keeps (meth c' : string) (items : list pyobj) :
  forall acc st l st',
    convert_items rec_value meth c' items acc st = Ok (l, st') ->
    own_field st -> own_field st'.
Proof using rec_value_keeps.
  induction items as [|x items IH]; intros acc st l st' H Hown; simpl in H.
  - now apply ret_ok in H as [_ <-].
  - apply bind_ok in H as (v & st1 & Hv & H).
    unfold call_item in Hv. apply bind_ok in Hv as (it & st0 & Hi & Hv).
    injection Hi as <- <-.
    destruct (dict_get (st c') "all") as [k|]; [|discriminate].
    exact (IH _ _ _ _ H (rec_value_keeps _ _ _ _ _ Hv Hown)).
Qed.

Hypothesis rec_value_own : forall obj st v st',
  own_field st -> rec_value (DictSub c) obj st <> Ok (v, st').

(** The first loop never reaches the end with the field popped: to pop it
    is to call the class on itself. *)
Lemma load_items_own (items : dict pyobj) :
  forall ya val st ya' val' st',
    dict_get ya name = Some (DictSub c) -> own_field st ->
    load_items standard_match rec_value c items ya val st
    = Ok ((ya', val'), st') ->
    dict_get ya' name = Some (DictSub c) /\ own_field st'.
Proof using rec_value_keeps rec_value_own.
  induction items as [|[n0 data] items IH];
    intros ya val st ya' val' st' Hya Hown H; simpl in H.
  - apply ret_ok in H as [[= <- <-] <-]. auto.
  - destruct (dict_pop ya n0) as [[k ya1]|] eqn:Ep.
    + apply dict_pop_some in Ep as [Hk ->].
      apply bind_ok in H as (x & st1 & Hx & H).
      destruct (string_dec n0 name) as [->|Hne].
      * rewrite Hya in Hk. injection Hk as <-.
        now elim (rec_value_own _ _ _ _ Hown Hx).
      * apply (IH _ _ _ _ _ _) with (3 := H).
        -- rewrite dict_get_del_other; [exact Hya|]. congruence.
        -- exact (rec_value_keeps _ _ _ _ _ Hx Hown).
    + apply dict_pop_none in Ep.
      assert (n0 <> name) as Hne.
      { intros ->. apply Ep. exact (dict_get_in_keys _ _ _ Hya). }
      apply bind_ok in H as (u & st0 & Hu & H). injection Hu as _ <-.
      apply bind_ok in H as (x & st1 & Hx & H).
      apply (IH _ _ _ _ _ _) with (3 := H); [exact Hya|].
      apply (rec_value_keeps _ _ _ _ _ Hx).
      unfold put_attr. rewrite String.eqb_refl.
      rewrite dict_get_set_other; [exact Hown | exact Hne].
Qed.

(** The second loop does not end when the field is left in the copy. *)
Lemma add_deleted_own (ya : dict conv) :
  forall val st val' st',
    dict_get ya name = Some (DictSub c) -> own_field st ->
    add_deleted rec_value ya val st <> Ok (val', st').
Proof using rec_value_keeps rec_value_own.
  induction ya as [|[n0 k] ya IH]; intros val st val' st' Hya Hown H;
    simpl in *; [discriminate|].
  apply bind_ok in H as (x & st1 & Hx & H).
  destruct (String.eqb name n0) eqn:E.
  - injection Hya as ->. now elim (rec_value_own _ _ _ _ Hown Hx).
  - exact (IH _ _ _ _ Hya (rec_value_keeps _ _ _ _ _ Hx Hown) H).
Qed.

End SelfCalls.

Lemma to_value_own (fuel : nat) :
  (forall obj st v st',
      own_field st -> to_value' fuel (DictSub c) obj st <> Ok (v, st')) /\
  (forall k obj st v st',
      to_value' fuel k obj st = Ok (v, st') -> own_field st -> own_field st').
Proof.
  induction fuel as [|fuel [IHown IHkeeps]].
  - split.
    + intros obj st v st' _ H. discriminate H.
    + intros k obj st v st' H Hown. destruct k; simpl in H; try discriminate.
      now apply ret_ok in H as [_ <-].
  - assert (forall obj st v st',
               own_field st ->
               to_value' (S fuel) (DictSub c) obj st <> Ok (v, st')) as Hown'.
    { intros obj st v st' Hown H. simpl in H.
      apply bind_ok in H as (d & st1 & Hd & _).
      unfold dictionary_to_value in Hd.
      apply bind_ok in Hd as (ya & st0 & Hg & Hd). injection Hg as <- <-.
      apply bind_ok in Hd as ([ya' val'] & s1 & Hl & Hd). simpl in Hd.
      destruct (load_items_own (to_value' fuel) IHkeeps IHown _ _ _ _ _ _ _
                  Hown Hown Hl) as [Hya' Hown1].
      exact (add_deleted_own (to_value' fuel) IHkeeps IHown _ _ _ _ _ Hya'
               Hown1 Hd). }
    split; [exact Hown'|].
    intros k obj st v st' H Hown. destruct k as [k|c'|c'| |]; simpl in H;
      try discriminate.
    + now apply ret_ok in H as [_ <-].
    + destruct (string_dec c' c) as [->|Hc].
      * now elim (Hown' obj st v st' Hown).
      * apply bind_ok in H as (d & st1 & Hd & H).
        apply ret_ok in H as [_ <-]. unfold dictionary_to_value in Hd.
        apply bind_ok in Hd as (ya & st0 & Hg & Hd). injection Hg as <- <-.
        apply bind_ok in Hd as (p & s1 & Hl & Hd).
        apply (add_deleted_keeps (to_value' fuel) IHkeeps _ _ _ _ _ Hd).
        exact (load_items_other (to_value' fuel) IHkeeps c' _ Hc _ _ _ _ _
                 Hl Hown).
    + apply bind_ok in H as (l & st1 & Hl & H). apply ret_ok in H as [_ <-].
      unfold list_to_value in Hl.
      apply bind_ok in Hl as (it & st0 & Hi & Hl). injection Hi as <- <-.
      destruct (dict_get (st c') "all"); [|discriminate].
      exact (convert_items_keeps (to_value' fuel) IHkeeps _ _ _ _ _ _ _ Hl
               Hown).
Qed.

(** X15: a subclass of Dictionary that has a field whose converter is the
    class itself converts nothing: whatever the input and the other fields,
    and however deep the calls may nest, [to_value] and [to_data] do not
    return. *)
Theorem own_field_never_returns (st : regs) :
  dict_get (st c) name = Some (DictSub c) ->
  forall fuel obj v st',
    to_value' fuel (DictSub c) obj st <> Ok (v, st') /\
    to_data' fuel (DictSub c) obj st <> Ok (v, st').
Proof.
  intros Hown fuel obj v st'. split.
  - exact (proj1 (to_value_own fuel) obj st v st' Hown).
  - destruct fuel as [|fuel]; [discriminate|]. intros H. simpl in H.
    apply bind_ok in H as (d & st1 & Hd & _).
    unfold dictionary_to_data in Hd.
    apply bind_ok in Hd as (value & s1 & Hv & _).
    apply (proj1 (to_value_own (S fuel)) obj st (VDict value) s1 Hown).
    simpl. unfold bind. now rewrite Hv.
Qed.

End SelfReference.

(** ** The items of a list *)

Section ListItems.

Variable leaf_to_value : string -> pyobj -> pyobj.
Variable leaf_to_data : string -> pyobj -> pyobj.
Variable standard_match : pyobj -> string.

Local Abbreviation to_value' := (to_value leaf_to_value standard_match).
Local Abbreviation to_data' :=
  (to_data leaf_to_value leaf_to_data standard_match).

(** The loop of List.to_value and of List.to_data gives one item for each
    item, in order; the item at position [j] is converted by the item type
    the class has when the loop reaches it: in the state the loop ends in
    when it is run for the items before [j] only. *)
Lemma convert_items_each (rec : conv -> pyobj -> M pyobj) (meth c : string)
    (items : list pyobj) :
  forall acc st l st',
    convert_items rec meth c items acc st = Ok (l, st') ->
    exists l', l = acc ++ l' /\ List.length l' = List.length items /\
      forall j x, nth_error items j = Some x ->
        exists k lj sj s2 y,
          convert_items rec meth c (firstn j items) acc st = Ok (lj, sj) /\
          dict_get (sj c) "all" = Some k /\
          rec k x sj = Ok (y, s2) /\
          nth_error l' j = Some y.
Proof.
  induction items as [|x0 items IH]; intros acc st l st' H; simpl in H.
  - apply ret_ok in H as [<- _]. exists []. rewrite app_nil_r.
    split; [reflexivity|]. split; [reflexivity|].
    intros [|j] x Hx; discriminate Hx.
  - apply bind_ok in H as (y0 & st1 & Hy & H).
    unfold call_item in Hy. apply bind_ok in Hy as (it & st0 & Hi & Hy).
    injection Hi as <- <-.
    destruct (dict_get (st c) "all") as [k0|] eqn:Ek; [|discriminate].
    destruct (IH _ _ _ _ H) as (l' & -> & Hlen & Heach).
    exists (y0 :: l'). rewrite <- app_assoc. split; [reflexivity|].
    split; [simpl; now rewrite Hlen|].
    intros [|j] x Hx; simpl in Hx.
    + injection Hx as <-. exists k0, acc, st, st1, y0. auto.
    + destruct (Heach j x Hx) as (k & lj & sj & s2 & y & Hrun & Hk & Hr & Hn).
      exists k, lj, sj, s2, y. split; [|auto].
      simpl. unfold bind, call_item, bind, item_type. rewrite Ek.
      now rewrite Hy.
Qed.

(** X17: the list [to_value] of a subclass of List returns has one item
    for each item of [to_list] of the input, in the same order.  The item at
    position [j] is what [to_value] of the item type makes of the item of
    the input at [j], the item type being the one the class has when the
    loop reaches the item: in the state [sj] in which the items before [j]
    have been converted.  [to_data] does the same with [to_data] to the
    items of the list [to_value] has returned. *)
Theorem list_converts_each_item (fuel : nat) (c : string) (obj : pyobj)
    (st : regs) :
  (forall v st',
      to_value' (S fuel) (ListSub c) obj st = Ok (v, st') ->
      exists l, v = VList l /\
        List.length l = List.length (to_list obj) /\
        forall j x, nth_error (to_list obj) j = Some x ->
          exists k lj sj s2 y,
            to_value' (S fuel) (ListSub c) (VList (firstn j (to_list obj))) st
            = Ok (VList lj, sj) /\
            dict_get (sj c) "all" = Some k /\
            to_value' fuel k x sj = Ok (y, s2) /\
            nth_error l j = Some y) /\
  (forall d st',
      to_data' (S fuel) (ListSub c) obj st = Ok (d, st') ->
      exists l l' st1, d = VList l' /\
        to_value' (S fuel) (ListSub c) obj st = Ok (VList l, st1) /\
        List.length l' = List.length l /\
        forall j x, nth_error l j = Some x ->
          exists k lj sj s2 y,
            convert_items (to_data' fuel) "to_data" c (firstn j l) [] st1
            = Ok (lj, sj) /\
            dict_get (sj c) "all" = Some k /\
            to_data' fuel k x sj = Ok (y, s2) /\
            nth_error l' j = Some y).
Proof.
  split.
  - intros v st' H. simpl in H.
    apply bind_ok in H as (l & st1 & Hl & H). apply ret_ok in H as [<- _].
    exists l. split; [reflexivity|]. unfold list_to_value in Hl.
    apply bind_ok in Hl as (it & st0 & Hi & Hl). injection Hi as <- <-.
    destruct (dict_get (st c) "all") as [k0|] eqn:Ek; [|discriminate].
    destruct (convert_items_each _ _ _ _ _ _ _ _ Hl)
      as (l' & -> & Hlen & Heach).
    split; [exact Hlen|]. intros j x Hx.
    destruct (Heach j x Hx) as (k & lj & sj & s2 & y & Hrun & Hk & Hr & Hn).
    exists k, lj, sj, s2, y. split; [|auto].
    simpl. unfold bind, list_to_value, bind, item_type. rewrite Ek.
    cbn [to_list]. now rewrite Hrun.
  - intros d st' H. simpl in H.
    apply bind_ok in H as (l' & st2 & Hl' & H). apply ret_ok in H as [<- _].
    unfold list_to_data in Hl'.
    apply bind_ok in Hl' as (l & st1 & Hl & Hl').
    exists l, l', st1. split; [reflexivity|]. split.
    + simpl. unfold bind. now rewrite Hl.
    + destruct (convert_items_each _ _ _ _ _ _ _ _ Hl')
        as (l2 & -> & Hlen & Heach).
      split; [exact Hlen | exact Heach].
Qed.

End ListItems.

(** ** A write, then a read *)

Section WriteRead.

Variable leaf_to_value : string -> pyobj -> pyobj.
Variable standard_match : pyobj -> string.

Local Abbreviation to_value' := (to_value leaf_to_value standard_match).
Local Abbreviation setattr' := (Mappable_setattr leaf_to_value standard_match).

Lemma lookup_mapper_update_mapper (self : object) (m : mapper) :
  lookup_attr (update_mapper self m) "yorm_mapper" = Some (VMapper m).
Proof.
  unfold update_mapper, lookup_attr, has_key.
  destruct (dict_get (inst_dict self) "yorm_mapper") eqn:E; simpl.
  - now rewrite dict_get_set_same.
  - rewrite E. now rewrite dict_get_set_same.
Qed.

Lemma getattribute_mapped (self : object) (name : string)
    (attrs : dict pyobj) (m : mapper) (v : pyobj) :
  name <> "yorm_mapper" -> name <> "yorm_attrs" ->
  lookup_attr self "yorm_attrs" = Some (VDict attrs) ->
  lookup_attr self "yorm_mapper" = Some (VMapper m) ->
  has_key attrs name = true ->
  lookup_attr self name = Some v ->
  Mappable_getattribute self name
  = Ok (v, update_mapper self (mapper_retrieve m)).
Proof.
  intros Hn1 Hn2 Hattrs Hm Hin Hv. unfold Mappable_getattribute.
  apply String.eqb_neq in Hn1 as E1. apply String.eqb_neq in Hn2 as E2.
  rewrite E1, E2. simpl.
  unfold object_getattribute at 1. rewrite Hattrs. simpl. rewrite Hin.
  unfold call_mapper, object_getattribute at 1. rewrite Hm.
  unfold object_getattribute.
  now rewrite (lookup_attr_update_mapper self _ name Hn1), Hv.
Qed.

(** X16: on an object whose [yorm_attrs] is a dict and whose [yorm_mapper]
    is a Mapper, the write of a value to a field for which the class has no
    data descriptor and the read of the field after it give what the
    field's converter makes of the value; the two together store once if
    the auto flag is on and not at all if it is off, and retrieve once. *)
Theorem setattr_then_getattribute (fuel : nat) (self : object)
    (name : string) (value : pyobj) (st : regs) (attrs : dict pyobj)
    (cls : conv) (m : mapper) (value' : pyobj) (st' : regs) :
  name <> "yorm_attrs" -> name <> "yorm_mapper" ->
  dict_get (descriptors self) name = None ->
  lookup_attr self "yorm_attrs" = Some (VDict attrs) ->
  lookup_attr self "yorm_mapper" = Some (VMapper m) ->
  dict_get attrs name = Some (VClass cls) ->
  to_value' fuel cls value st = Ok (value', st') ->
  exists self1 self2,
    setattr' fuel self name value st = Ok (self1, st') /\
    Mappable_getattribute self1 name = Ok (value', self2) /\
    mapper_of self2
    = Some (Mapper (auto m) (if auto m then S (stores m) else stores m)
              (S (retrieves m))).
Proof.
  intros Hn1 Hn2 Hplain Hattrs Hm Hcls Hv.
  assert (has_key attrs name = true) as Hin
      by (unfold has_key; now rewrite Hcls).
  set (self0 := store_attr self name value').
  assert (lookup_attr self0 "yorm_attrs" = Some (VDict attrs)) as Hattrs0.
  { unfold self0.
    now rewrite (lookup_attr_setattr_other self name "yorm_attrs" value' Hn1). }
  assert (lookup_attr self0 "yorm_mapper" = Some (VMapper m)) as Hm0.
  { unfold self0.
    now rewrite (lookup_attr_setattr_other self name "yorm_mapper" value'
                   Hn2). }
  assert (lookup_attr self0 name = Some value') as Hname0
      by apply lookup_attr_setattr_same.
  destruct (call_store_mapper self0 m Hm0)
    as (selfs & Es & Hms & _ & _ & Hls).
  assert (setattr' fuel self name value st
          = Ok (if auto m then selfs else self0, st')) as Hset.
  { unfold Mappable_setattr, is_mapped. rewrite Hattrs. simpl. rewrite Hin.
    rewrite Hcls. simpl. rewrite Hv.
    rewrite (object_setattr_plain self name value' Hplain). fold self0.
    rewrite Hattrs0. simpl. rewrite Hin. unfold store_if_auto. rewrite Hm0.
    destruct (auto m); [|reflexivity]. now rewrite Es. }
  destruct (auto m) eqn:Ha.
  - assert (lookup_attr selfs "yorm_mapper" = Some (VMapper (mapper_store m)))
      as Hml.
    { unfold mapper_of in Hms.
      destruct (lookup_attr selfs "yorm_mapper") as [[]|]; try discriminate.
      now injection Hms as ->. }
    exists selfs, (update_mapper selfs (mapper_retrieve (mapper_store m))).
    split; [exact Hset|]. split.
    + apply (getattribute_mapped _ name attrs (mapper_store m) value' Hn2
               Hn1).
      * rewrite Hls by discriminate. exact Hattrs0.
      * exact Hml.
      * exact Hin.
      * rewrite Hls by exact Hn2. exact Hname0.
    + rewrite mapper_of_update_mapper.
      unfold mapper_retrieve, mapper_store. simpl. now rewrite Ha.
  - exists self0, (update_mapper self0 (mapper_retrieve m)).
    split; [exact Hset|]. split.
    + exact (getattribute_mapped _ name attrs m value' Hn2 Hn1 Hattrs0 Hm0
               Hin Hname0).
    + rewrite mapper_of_update_mapper.
      unfold mapper_retrieve, mapper_store. simpl. now rewrite Ha.
Qed.

End WriteRead.

(** * Concrete runs *)

(** C6: the entry for a string that is not of the form key=value is made
    from the stripped text, not from the string: " key" gives the key
    "key". *)
Lemma to_dict_strips_counterexample :
  count_char "=" " key" <> 1 /\
  to_dict (VStr " key") = [("key", VNone)] /\
  to_dict (VStr " key") <> [(" key", VNone)].
Proof.
  split; [discriminate|]. split; [reflexivity | discriminate].
Qed.

Lemma to_dict_cases_witness :
  to_dict (VStr " key=42 ") = [("key", VStr "42")] /\
  to_dict (VStr "a=b=c") = [("a=b=c", VNone)] /\
  strip "key" = "key".
Proof.
  destruct to_dict_cases as [_ [H2 [H3 [H4 _]]]].
  split; [|split].
  - apply (H2 " key=42 " "key" "42"); reflexivity.
  - apply (H3 "a=b=c"). discriminate.
  - apply (H4 "key"). reflexivity.
Defined.

(** C7: " a,b" has a comma and has whitespace, and is split on commas all
    the same, because the whitespace is stripped before the test; splitting
    it on whitespace would give the one field "a,b". *)
Lemma to_list_strips_counterexample :
  contains "," " a,b" = true /\ has_space " a,b" = true /\
  to_list (VStr " a,b") = [VStr "a"; VStr "b"] /\
  to_list (VStr " a,b") <> map VStr (split_ws " a,b").
Proof.
  split; [reflexivity|]. split; [reflexivity|].
  split; [reflexivity | discriminate].
Qed.

Lemma to_list_cases_witness :
  to_list (VStr " a,b ") = [VStr "a"; VStr "b"] /\
  to_list (VStr "a b  c") = [VStr "a"; VStr "b"; VStr "c"] /\
  to_list (VStr "a,b,c") = [VStr "a"; VStr "b"; VStr "c"] /\
  to_list (VInt 42) = [VInt 42].
Proof.
  destruct to_list_cases as [_ [H2 [H3 [H4 [_ H6]]]]].
  split; [|split; [|split]].
  - apply (H2 " a,b "); reflexivity.
  - apply (H3 "a b  c"). reflexivity.
  - apply (H4 "a,b,c"); reflexivity.
  - apply (H6 (VInt 42)); discriminate.
Defined.

Lemma list_to_value_without_item_type_witness :
  to_value sample_to_value sample_match 3 (ListSub "Tags") (VStr "a,b")
    no_attrs
  = Raise (NotImplementedError "List subclass must specify item type").
Proof.
  apply (list_to_value_without_item_type sample_to_value sample_match
           "Tags" (VStr "a,b") no_attrs).
  reflexivity.
Defined.

(** C4: a [with] block on an object whose auto flag is on, with three
    writes to mapped fields inside: one store, and the auto flag is off
    afterwards. *)
Theorem with_block_leaves_auto_off :
  exists self' st',
    with_block sample_to_value sample_match 2 (sample_object true)
      [("count", VInt 1); ("tags", VStr "a,b"); ("count", VInt 2)] tags_regs
    = Ok (self', st') /\
    mapper_of (sample_object true) = Some (Mapper true 0 0) /\
    mapper_of self' = Some (Mapper false 1 0).
Proof.
  eexists. eexists. split; [reflexivity|]. split; reflexivity.
Qed.

Lemma setattr_converts_then_stores_if_auto_witness :
  (exists self',
      Mappable_setattr sample_to_value sample_match 1 (sample_object true)
        "tags" (VStr "a,b") tags_regs = Ok (self', tags_regs) /\
      lookup_attr self' "tags" = Some (VList [VStr "a"; VStr "b"]) /\
      mapper_of self' = Some (Mapper true 1 0) /\
      dict_get (document self') "tags" = Some (VList [VStr "a"; VStr "b"])) /\
  Mappable_setattr sample_to_value sample_match 1 (sample_object true)
    "other" (VStr "a,b") tags_regs
  = Ok (store_attr (sample_object true) "other" (VStr "a,b"), tags_regs).
Proof.
  split.
  - destruct (setattr_converts_then_stores_if_auto sample_to_value
                sample_match 1 (sample_object true) "tags" (VStr "a,b")
                tags_regs
                [("count", VClass (Leaf "Integer"));
                 ("tags", VClass (ListSub "Tags"))]) as [H _].
    + discriminate.
    + discriminate.
    + reflexivity.
    + right. eexists. reflexivity.
    + destruct (proj1 (H (ListSub "Tags") eq_refl) eq_refl)
        as (self' & E & Hl & Hm & Hd).
      exists self'. split; [exact E|]. split; [exact Hl|].
      split; [exact Hm|]. rewrite Hd. reflexivity.
  - destruct (setattr_converts_then_stores_if_auto sample_to_value
                sample_match 1 (sample_object true) "other" (VStr "a,b")
                tags_regs
                [("count", VClass (Leaf "Integer"));
                 ("tags", VClass (ListSub "Tags"))]) as [_ H].
    + discriminate.
    + discriminate.
    + reflexivity.
    + right. eexists. reflexivity.
    + exact (proj1 (proj1 (H eq_refl) eq_refl)).
Defined.

(** C5: [yorm_attrs] is not a field of the sample object, and the write of
    a dict that has the key "yorm_attrs" to it stores all the same: the
    second test for a field is made on the attribute just assigned.  And
    the write of a number to [__class__], no field either, assigns
    nothing: [object.__setattr__] refuses it. *)
Lemma setattr_converts_then_stores_if_auto_counterexample :
  is_mapped (sample_object true) "yorm_attrs" = Ok false /\
  (exists self',
      Mappable_setattr sample_to_value sample_match 1 (sample_object true)
        "yorm_attrs" (VDict [("yorm_attrs", VClass (Leaf "String"))])
        tags_regs = Ok (self', tags_regs) /\
      mapper_of (sample_object true) = Some (Mapper true 0 0) /\
      mapper_of self' = Some (Mapper true 1 0)) /\
  is_mapped (sample_object true) "__class__" = Ok false /\
  Mappable_setattr sample_to_value sample_match 1 (sample_object true)
    "__class__" (VInt 5) tags_regs = Raise TypeError.
Proof.
  split; [reflexivity|]. split.
  - eexists. split; [reflexivity|]. split; reflexivity.
  - split; reflexivity.
Qed.

(** C9: an instance with a mapper and no [yorm_attrs] gives its mapper when
    [yorm_mapper] is read; and on an instance without [yorm_attrs], the
    write of a number to [yorm_attrs] raises TypeError, and so does the
    write of a number to [__class__]. *)
Lemma access_without_yorm_attrs_counterexample :
  lookup_attr half_mapped "yorm_attrs" = None /\
  Mappable_getattribute half_mapped "yorm_mapper"
  = Ok (VMapper (Mapper true 0 0), half_mapped) /\
  Mappable_setattr sample_to_value sample_match 1 half_mapped
    "yorm_attrs" (VInt 5) no_attrs = Raise TypeError /\
  Mappable_setattr sample_to_value sample_match 1 half_mapped
    "__class__" (VInt 5) no_attrs = Raise TypeError.
Proof.
  split; [reflexivity|]. split; [reflexivity|]. split; reflexivity.
Qed.

Lemma access_without_yorm_attrs_witness :
  Mappable_getattribute half_mapped "count"
  = Raise (AttributeError "yorm_attrs") /\
  Mappable_setattr sample_to_value sample_match 1 half_mapped
    "count" (VStr "7") no_attrs
  = Ok (store_attr half_mapped "count" (VStr "7"), no_attrs) /\
  Mappable_setattr sample_to_value sample_match 1 half_mapped
    "__weakref__" (VStr "7") no_attrs
  = Raise (AttributeError "__weakref__").
Proof.
  destruct (access_without_yorm_attrs sample_to_value sample_match
              half_mapped eq_refl) as [H1 [_ [H3 H4]]].
  split; [|split].
  - apply H1. discriminate.
  - apply H3; [discriminate | reflexivity].
  - apply H4. reflexivity.
Defined.

Lemma sample_regs_wf : wf_schema sample_rank sample_regs.
Proof.
  unfold sample_regs, tags_regs.
  apply wf_put_attr; [apply wf_put_attr; [apply wf_put_attr|]|].
  - apply wf_no_attrs.
  - exact I.
  - exact I.
  - split; [unfold sample_rank; simpl; lia | reflexivity].
Qed.




(** C10: in the tree, the dict [to_value] returns for the parent has no
    entry for the field [x] that Node has by then, and [to_data] gives the
    field what Integer makes of None. *)
Lemma dictionary_to_value_has_fields_counterexample :
  exists value st' data st'',
    to_value sample_to_value sample_match 5 (DictSub "Node") tree_doc
      tree_regs = Ok (VDict value, st') /\
    dict_get (st' "Node") "x" = Some (Leaf "Integer") /\
    dict_get value "x" = None /\
    to_data sample_to_value sample_to_data sample_match 5 (DictSub "Node")
      tree_doc tree_regs = Ok (VDict data, st'') /\
    dict_get data "x" = Some (sample_to_data "Integer" VNone).
Proof.
  do 4 eexists. split; [cbv; reflexivity|]. split; [reflexivity|].
  split; [reflexivity|]. split; [cbv; reflexivity | reflexivity].
Qed.

Lemma dictionary_to_value_has_fields_witness :
  (exists value st',
      to_value sample_to_value sample_match 2 (DictSub "Sample")
        (VDict sample_doc) sample_regs = Ok (VDict value, st') /\
      (forall name,
          In name (keys sample_doc) \/ In name (keys (sample_regs "Sample")) ->
          exists x, dict_get value name = Some x /\
                    get_or_none value name = x) /\
      (forall name, In name (keys (st' "Sample")) ->
          exists x, dict_get value name = Some x /\
                    get_or_none value name = x)) /\
  (exists value st1 data st',
      to_value sample_to_value sample_match 2 (DictSub "Sample")
        (VDict sample_doc) sample_regs = Ok (VDict value, st1) /\
      to_data sample_to_value plain_to_data sample_match 2 (DictSub "Sample")
        (VDict sample_doc) sample_regs = Ok (VDict data, st') /\
      forall name k, dict_get (st' "Sample") name = Some k ->
        exists x s1 s2 y,
          dict_get value name = Some x /\
          to_data sample_to_value plain_to_data sample_match 1 k x s1
          = Ok (y, s2) /\
          dict_get data name = Some y).
Proof.
  destruct (dictionary_to_value_has_fields sample_to_value plain_to_data
              sample_match sample_rank "Sample" (VDict sample_doc)
              sample_regs) as [H1 [H2 H3]].
  split.
  - destruct (H2 2 sample_regs_wf) as (value & st' & E & Hk').
    { unfold sample_rank. simpl. lia. }
    exists value, st'. split; [exact E|]. split; [|exact Hk'].
    destruct (H1 2 _ _ E) as (value' & Hv & Hk).
    injection Hv as <-. exact Hk.
  - destruct (H3 2 sample_regs_wf) as (value & st1 & data & st' & E1 & E2
                                       & _ & Hf).
    { unfold sample_rank. simpl. lia. }
    exists value, st1, data, st'. split; [exact E1|]. split; [exact E2|].
    intros name k Hk.
    destruct (Hf name k Hk)
      as (j & dj & x & s1 & s2 & y & _ & _ & _ & Hx & _ & Hy & Hd).
    exists x, s1, s2, y. auto.
Defined.

Lemma sample_to_value_idempotent (k : string) (x : pyobj) :
  sample_to_value k (sample_to_value k x) = sample_to_value k x.
Proof.
  unfold sample_to_value.
  destruct (String.eqb k "Integer"); [destruct x; reflexivity|].
  destruct (String.eqb k "String"); [destruct x; reflexivity|].
  destruct (String.eqb k "MockConverter"); reflexivity.
Qed.



(** ** Runs of the further properties *)

Lemma sample_regs_nodup : all_nodup sample_regs.
Proof. intros c. exact (proj1 (sample_regs_wf c)). Qed.

Lemma sample_doc_nodup : NoDup (keys (to_dict (VDict sample_doc))).
Proof. apply nodupb_NoDup. reflexivity. Qed.

Lemma sample_ok : conv_ok sample_rank sample_regs 2 (DictSub "Sample").
Proof. unfold sample_rank. simpl. lia. Qed.

Lemma to_list_of_str_witness :
  (exists ws, to_list (VStr " a,b ") = map VStr ws /\
              join "," ws = "a,b" /\ List.length ws = 2) /\
  (exists ws, to_list (VStr "a, b") = map VStr ws /\
              forall w, In w ws -> w <> "" /\ has_space w = false).
Proof.
  split.
  - destruct (to_list_of_str " a,b ") as (ws & E & _ & Hc & _).
    destruct (Hc eq_refl) as (_ & Hj & Hl & _).
    exists ws. split; [exact E|]. split; [exact Hj | exact Hl].
  - destruct (to_list_of_str "a, b") as (ws & E & _ & _ & Hw).
    destruct (Hw eq_refl) as (_ & Hn).
    exists ws. split; [exact E | exact Hn].
Defined.

Lemma getattribute_retrieves_mapped_witness :
  exists self',
    Mappable_getattribute
      (store_attr (sample_object true) "count" (VInt 3)) "count"
    = Ok (VInt 3, self') /\
    mapper_of self' = Some (Mapper true 0 1).
Proof.
  destruct (getattribute_retrieves_mapped
              (store_attr (sample_object true) "count" (VInt 3)) "count"
              [("count", VClass (Leaf "Integer"));
               ("tags", VClass (ListSub "Tags"))]
              (Mapper true 0 0)) as [H _].
  - discriminate.
  - discriminate.
  - reflexivity.
  - reflexivity.
  - destruct (H eq_refl) as (self' & E & Hm & _).
    exists self'. split; [exact E | exact Hm].
Defined.

Lemma with_block_stores_once_witness :
  exists self' st',
    with_block sample_to_value sample_match 2 (sample_object false)
      [("tags", VStr "x y"); ("other", VInt 1)] tags_regs = Ok (self', st') /\
    mapper_of self' = Some (Mapper false 1 0).
Proof.
  destruct (with_block sample_to_value sample_match 2 (sample_object false)
              [("tags", VStr "x y"); ("other", VInt 1)] tags_regs)
    as [[self' st']|e] eqn:E; [|vm_compute in E; discriminate E].
  exists self', st'. split; [reflexivity|].
  apply (with_block_stores_once sample_to_value sample_match 2
           (sample_object false) [("tags", VStr "x y"); ("other", VInt 1)]
           tags_regs self' st' (Mapper false 0 0)).
  - reflexivity.
  - intros n v [[= <- _]|[[= <- _]|[]]];
      (split; [discriminate | reflexivity]).
  - exact E.
Defined.

Lemma converters_only_add_fields_witness :
  exists v st',
    to_value sample_to_value sample_match 2 (DictSub "Sample")
      (VDict sample_doc) sample_regs = Ok (v, st') /\
    exists added,
      keys (st' "Sample") = keys (sample_regs "Sample") ++ added.
Proof.
  destruct (to_value_ok sample_to_value sample_match sample_rank 2
              (DictSub "Sample") (VDict sample_doc) sample_regs 2 (le_n _)
              sample_regs_wf sample_ok) as (v & st' & E & _).
  exists v, st'. split; [exact E|].
  exact (converters_only_add_fields sample_to_value sample_to_data
           sample_match 2 (DictSub "Sample") (VDict sample_doc) sample_regs
           v st' (or_introl E) "Sample").
Defined.

Lemma to_value_keeps_converters_witness :
  exists v st',
    to_value sample_to_value sample_match 5 (DictSub "Node") tree_doc
      tree_regs = Ok (v, st') /\
    dict_get (st' "Node") "children" = Some (ListSub "Nodes").
Proof.
  destruct (to_value sample_to_value sample_match 5 (DictSub "Node") tree_doc
              tree_regs) as [[v st']|e] eqn:E;
    [|vm_compute in E; discriminate E].
  exists v, st'. split; [reflexivity|].
  apply (to_value_keeps_converters sample_to_value sample_match 5
           (DictSub "Node") tree_doc tree_regs v st' eq_refl E "Node"
           "children" (ListSub "Nodes")).
  reflexivity.
Defined.

Lemma to_value_key_order_witness :
  exists value st',
    to_value sample_to_value sample_match 2 (DictSub "Sample")
      (VDict sample_doc) sample_regs = Ok (VDict value, st') /\
    keys value = ["count"; "note"; "tags"].
Proof.
  destruct (to_value_ok sample_to_value sample_match sample_rank 2
              (DictSub "Sample") (VDict sample_doc) sample_regs 2 (le_n _)
              sample_regs_wf sample_ok) as (v & st' & E & _).
  destruct (to_value_key_order sample_to_value sample_match 2 "Sample"
              (VDict sample_doc) sample_regs v st' sample_doc_nodup
              (sample_regs_nodup "Sample") E) as (value & -> & Hk).
  exists value, st'. split; [exact E | exact Hk].
Defined.


Lemma to_data_key_order_witness :
  exists data st',
    to_data sample_to_value sample_to_data sample_match 2 (DictSub "Sample")
      (VDict sample_doc) sample_regs = Ok (VDict data, st') /\
    keys data = keys (st' "Sample").
Proof.
  destruct (to_data_ok sample_to_value sample_to_data sample_match
              sample_rank 2 (DictSub "Sample") (VDict sample_doc) sample_regs
              2 (le_n _) sample_regs_wf sample_ok) as (v & st' & E & _).
  destruct (to_data_key_order sample_to_value sample_to_data sample_match 2
              "Sample" (VDict sample_doc) sample_regs v st' sample_regs_nodup
              E) as (data & value & st1 & -> & _ & _ & Hk & _).
  exists data, st'. split; [exact E | exact Hk].
Defined.

Lemma to_value_of_none_witness :
  exists value,
    to_value sample_to_value sample_match 2 (DictSub "Sample") VNone
      sample_regs = Ok (VDict value, sample_regs) /\
    keys value = ["count"; "tags"].
Proof.
  destruct (to_value_ok sample_to_value sample_match sample_rank 2
              (DictSub "Sample") VNone sample_regs 2 (le_n _)
              sample_regs_wf sample_ok) as (v & st' & E & _).
  destruct (to_value_of_none sample_to_value sample_match 2
              (DictSub "Sample") sample_regs v st' E) as [-> H].
  destruct (H (sample_regs_nodup "Sample")) as (value & -> & Hk).
  exists value. split; [exact E | exact Hk].
Defined.

Lemma list_of_scalars_witness :
  to_value sample_to_value sample_match 1 (ListSub "Tags") (VStr "a,b")
    tags_regs = Ok (VList [VStr "a"; VStr "b"], tags_regs) /\
  to_data sample_to_value sample_to_data sample_match 1 (ListSub "Tags")
    (VInt 7) tags_regs = Ok (VList [VStr ""], tags_regs).
Proof.
  split.
  - exact (proj1 (list_of_scalars sample_to_value sample_to_data
                    sample_match 0 "Tags" "String" (VStr "a,b") tags_regs
                    eq_refl)).
  - exact (proj2 (list_of_scalars sample_to_value sample_to_data
                    sample_match 0 "Tags" "String" (VInt 7) tags_regs
                    eq_refl)).
Defined.

Lemma list_to_data_without_item_type_witness :
  to_data sample_to_value sample_to_data sample_match 3 (ListSub "Tags")
    (VStr "a,b") no_attrs
  = Raise (NotImplementedError "List subclass must specify item type").
Proof.
  apply (list_to_data_without_item_type sample_to_value sample_to_data
           sample_match "Tags" (VStr "a,b") no_attrs).
  reflexivity.
Defined.

Lemma ranked_converters_return_witness :
  (exists v st',
      to_value sample_to_value sample_match 2 (DictSub "Sample")
        (VStr "count=7") sample_regs = Ok (v, st')) /\
  (exists d st',
      to_data sample_to_value sample_to_data sample_match 2
        (DictSub "Sample") (VStr "count=7") sample_regs = Ok (d, st')).
Proof.
  destruct (ranked_converters_return sample_to_value sample_to_data
              sample_match sample_rank 2 (DictSub "Sample") (VStr "count=7")
              sample_regs sample_regs_wf sample_ok)
    as [(v & st' & E & _) (d & st'' & E' & _)].
  split; [exists v, st'; exact E | exists d, st''; exact E'].
Defined.

Lemma to_value_twice_witness :
  exists v st' w,
    to_value sample_to_value sample_match 2 (DictSub "Sample")
      (VDict sample_doc) sample_regs = Ok (v, st') /\
    to_value sample_to_value sample_match 2 (DictSub "Sample") v st'
    = Ok (w, st') /\
    to_value sample_to_value sample_match 2 (DictSub "Sample") w st'
    = Ok (w, st').
Proof.
  exact (to_value_twice sample_to_value sample_match sample_rank
           sample_to_value_idempotent 2 (DictSub "Sample") (VDict sample_doc)
           sample_regs sample_regs_wf sample_ok eq_refl).
Defined.

Lemma own_field_never_returns_witness :
  to_value sample_to_value sample_match 9 (DictSub "Link")
    (VDict [("next", VNone)]) chain_regs <> Ok (VDict [], chain_regs) /\
  to_data sample_to_value sample_to_data sample_match 9 (DictSub "Link")
    VNone chain_regs <> Ok (VDict [], chain_regs).
Proof.
  split.
  - exact (proj1 (own_field_never_returns sample_to_value sample_to_data
                    sample_match "Link" "next" chain_regs eq_refl 9
                    (VDict [("next", VNone)]) (VDict []) chain_regs)).
  - exact (proj2 (own_field_never_returns sample_to_value sample_to_data
                    sample_match "Link" "next" chain_regs eq_refl 9
                    VNone (VDict []) chain_regs)).
Defined.

Lemma list_converts_each_item_witness :
  exists l st' k lj sj s2 y,
    to_value sample_to_value sample_match 1 (ListSub "Tags") (VStr "a b c")
      tags_regs = Ok (VList l, st') /\
    List.length l = 3 /\
    to_value sample_to_value sample_match 1 (ListSub "Tags")
      (VList [VStr "a"; VStr "b"]) tags_regs = Ok (VList lj, sj) /\
    dict_get (sj "Tags") "all" = Some k /\
    to_value sample_to_value sample_match 0 k (VStr "c") sj = Ok (y, s2) /\
    nth_error l 2 = Some y.
Proof.
  destruct (to_value sample_to_value sample_match 1 (ListSub "Tags")
              (VStr "a b c") tags_regs) as [[v st']|e] eqn:E;
    [|vm_compute in E; discriminate E].
  destruct (proj1 (list_converts_each_item sample_to_value sample_to_data
                     sample_match 0 "Tags" (VStr "a b c") tags_regs) v st' E)
    as (l & -> & Hlen & Heach).
  destruct (Heach 2 (VStr "c") eq_refl)
    as (k & lj & sj & s2 & y & Hrun & Hk & Hr & Hn).
  exists l, st', k, lj, sj, s2, y. auto 10.
Defined.

Lemma setattr_then_getattribute_witness :
  exists self1 self2,
    Mappable_setattr sample_to_value sample_match 1 (sample_object true)
      "tags" (VStr "a,b") tags_regs = Ok (self1, tags_regs) /\
    Mappable_getattribute self1 "tags"
    = Ok (VList [VStr "a"; VStr "b"], self2) /\
    mapper_of self2 = Some (Mapper true 1 1).
Proof.
  exact (setattr_then_getattribute sample_to_value sample_match 1
           (sample_object true) "tags" (VStr "a,b") tags_regs
           [("count", VClass (Leaf "Integer"));
            ("tags", VClass (ListSub "Tags"))]
           (ListSub "Tags") (Mapper true 0 0)
           (VList [VStr "a"; VStr "b"]) tags_regs
           ltac:(discriminate) ltac:(discriminate) eq_refl eq_refl eq_refl
           eq_refl eq_refl).
Defined.

Lemma to_data_emits_each_field_witness :
  exists data st' value st1 k dj s1 s2 x,
    to_data sample_to_value sample_to_data sample_match 2 (DictSub "Sample")
      (VDict sample_doc) sample_regs = Ok (VDict data, st') /\
    to_value sample_to_value sample_match 2 (DictSub "Sample")
      (VDict sample_doc) sample_regs = Ok (VDict value, st1) /\
    dump_items (to_data sample_to_value sample_to_data sample_match 1)
      "Sample" (List.length (st1 "Sample")) value 1 0 [] st1 = Ok (dj, s1) /\
    nth_error (s1 "Sample") 1 = Some ("tags", k) /\
    to_data sample_to_value sample_to_data sample_match 1 k
      (get_or_none value "tags") s1 = Ok (x, s2) /\
    dict_get data "tags" = Some x.
Proof.
  destruct (to_data_ok sample_to_value sample_to_data sample_match
              sample_rank 2 (DictSub "Sample") (VDict sample_doc) sample_regs
              2 (le_n _) sample_regs_wf sample_ok) as (d & st' & E & _).
  assert (nth_error (keys (st' "Sample")) 1 = Some "tags") as Hj.
  { apply (grows_nth sample_regs st').
    - exact (to_data_grows _ _ _ _ _ _ _ _ _ E).
    - reflexivity. }
  destruct (to_data_emits_each_field sample_to_value sample_to_data
              sample_match 1 "Sample" (VDict sample_doc) sample_regs d st'
              1 "tags" sample_regs_nodup E Hj)
    as (data & value & st1 & k & dj & s1 & s2 & x & -> & Hv & Hr & Hk & Hx
        & Hg).
  exists data, st', value, st1, k, dj, s1, s2, x. auto 10.
Defined.
